(** * nodoai: opportunity detection and event matching

    A shallow embedding of the detection core of the bot
    ([arbitrage_scanner.py], [cross_platform_scanner.py],
    [delta_scanner.py], [event_matcher.py], [platforms/base.py]) and the
    properties its specification states about it.

    Python's [float] is embedded once, over an interface [PyFloat] with two
    instances: IEEE binary64 (what CPython computes with) and exact rationals
    (the real-number reading behind "within floating tolerance").  Every
    function of the source is written a single time against the interface;
    universal arithmetic facts are proved on the exact instance, structural
    facts for every instance, and concrete scenarios are evaluated on
    binary64 as well.  An exception is a value: every function that can
    divide returns a [result].  Text is ASCII: [lower], [split] and the
    word boundaries of the regular expressions are those of Python on
    ASCII input. *)

From Stdlib Require Import QArith Qabs Qminmax ZArith Floats Uint63.
From Stdlib Require Import String Ascii List Permutation Bool Lia Lqa.
From stdpp Require Import gmap strings sorting.
Import ListNotations.

Local Open Scope string_scope.

(** ** Exceptions and the error monad *)

Inductive exn : Set :=
| ZeroDivisionError
| IndexError.

Inductive result (A : Type) : Type :=
| Ok (a : A)
| Raise (e : exn).
Arguments Ok {A} a.
Arguments Raise {A} e.

Definition rbind {A B : Type} (r : result A) (k : A -> result B) : result B :=
  match r with
  | Ok a => k a
  | Raise e => Raise e
  end.

Declare Scope py_scope.
Delimit Scope py_scope with py.
Notation "'let!' x ':=' c1 'in' c2" := (rbind c1 (fun x => c2))
  (at level 10, x name, c1 at level 100, c2 at level 200) : py_scope.

(** ** Python floats *)

Class PyFloat (F : Type) : Type := {
  lit : Q -> F;               (* a decimal or integer literal *)
  fadd : F -> F -> F;
  fsub : F -> F -> F;
  fmul : F -> F -> F;
  fquot : F -> F -> F;        (* the quotient, for a non-zero divisor *)
  fis0 : F -> bool;           (* x == 0 *)
  flt : F -> F -> bool;       (* x < y *)
  fle : F -> F -> bool;       (* x <= y *)
  fabs : F -> F
}.

Section Float.
Context {F : Type} `{PyFloat F}.

(** [x / y] raises ZeroDivisionError on a zero divisor. *)
Definition fdiv (x y : F) : result F :=
  if fis0 y then Raise ZeroDivisionError else Ok (fquot x y).

(** [bool(x)] *)
Definition truthy (x : F) : bool := negb (fis0 x).

(** [min(a, b)] and [max(a, b)]: the first argument unless the second
    is strictly better. *)
Definition pymin (a b : F) : F := if flt b a then b else a.
Definition pymax (a b : F) : F := if flt a b then b else a.

(** [sum(xs)]: a left fold from the integer 0.  (CPython 3.12 adds a
    compensation term to float sums; on two addends the result is the
    same double.) *)
Definition pysum (xs : list F) : F := fold_left fadd xs (lit 0).
End Float.

(** Exact rationals. *)
#[global] Instance Q_float : PyFloat Q := {|
  lit q := q;
  fadd := Qplus;
  fsub := Qminus;
  fmul := Qmult;
  fquot := Qdiv;
  fis0 x := Qeq_bool x 0;
  flt x y := negb (Qle_bool y x);
  fle := Qle_bool;
  fabs := Qabs
|}.

(** IEEE binary64.  [Z2float] is the double nearest to an integer, ties
    going to the even mantissa: the primitive conversion below 2^63, and
    above it the 53 leading bits, rounded on the bits dropped and scaled
    back (infinity when the result is out of range).  A literal [n/d] with [n], [d] below
    2^53 is the correctly rounded quotient of two exactly represented
    integers, that is, the double nearest to the decimal, as Python's
    parser produces; so is a literal [n/1] of any size. *)
Definition Z2float_abs (a : Z) : float :=
  if (a <? 2 ^ 63)%Z then PrimFloat.of_uint63 (Uint63.of_Z a)
  else
    let e := (Z.log2 a - 52)%Z in
    let m := Z.shiftr a e in
    let r := Z.land a (Z.ones e) in
    let half := Z.shiftl 1 (e - 1) in
    let m' :=
      if (half <? r)%Z || ((r =? half)%Z && Z.odd m) then (m + 1)%Z else m in
    Z.ldexp (PrimFloat.of_uint63 (Uint63.of_Z m')) e.

Definition Z2float (z : Z) : float :=
  if (z <? 0)%Z then PrimFloat.opp (Z2float_abs (- z)) else Z2float_abs z.

#[global] Instance B64_float : PyFloat float := {|
  lit q := PrimFloat.div (Z2float (Qnum q)) (Z2float (Zpos (Qden q)));
  fadd := PrimFloat.add;
  fsub := PrimFloat.sub;
  fmul := PrimFloat.mul;
  fquot := PrimFloat.div;
  fis0 x := PrimFloat.eqb x PrimFloat.zero;
  flt := PrimFloat.ltb;
  fle := PrimFloat.leb;
  fabs := PrimFloat.abs
|}.

(** ** Python dicts: insertion-ordered, keyed by strings *)

Section Dict.
Context {V : Type}.

Definition dict : Type := list (string * V).

Fixpoint dict_get (d : dict) (k : string) : option V :=
  match d with
  | [] => None
  | (k', v) :: r => if String.eqb k' k then Some v else dict_get r k
  end.

(** [d[k] = v]: overwrite in place, or append a new key. *)
Fixpoint dict_set (d : dict) (k : string) (v : V) : dict :=
  match d with
  | [] => [(k, v)]
  | (k', v') :: r =>
      if String.eqb k' k then (k', v) :: r else (k', v') :: dict_set r k v
  end.

Definition dict_keys (d : dict) : list string := map fst d.
End Dict.
Arguments dict V : clear implicits.

(** ** Sorting *)

Section Sorting.
Context {F : Type} `{PyFloat F} {A : Type}.
Variable key : A -> F.

(** [l.sort(key=key)]: a stable sort that compares keys with [<]. *)
Fixpoint insert_by (x : A) (l : list A) : list A :=
  match l with
  | [] => [x]
  | y :: r => if flt (key x) (key y) then x :: y :: r else y :: insert_by x r
  end.

Definition sort_by (l : list A) : list A :=
  fold_left (fun acc x => insert_by x acc) l [].

(** [l.sort(key=key, reverse=True)]: the list is reversed, sorted, and
    reversed again, which keeps items of equal key in their order. *)
Definition sort_by_reverse (l : list A) : list A := rev (sort_by (rev l)).

(** [min(xs, key=key)] and [max(xs, key=key)] on a non-empty sequence
    [x :: rest]: the first item among those of least (greatest) key. *)
Definition min_by (x : A) (rest : list A) : A :=
  fold_left (fun best y => if flt (key y) (key best) then y else best) rest x.

Definition max_by (x : A) (rest : list A) : A :=
  fold_left (fun best y => if flt (key best) (key y) then y else best) rest x.
End Sorting.

(** ** Strings (ASCII text) *)

(** A string is a sequence of bytes, a Python [str] a sequence of code
    points.  The two coincide on ASCII text, every character below 128,
    and there the functions of this part are Python's: [isupper] and
    [lower] on the letters A to Z, [len] as the number of characters,
    [split] on ASCII whitespace, the classes [\w], [\d], [\s] and the
    boundary [\b] of the regular expressions on ASCII letters, digits,
    underscore and whitespace.  Statements about every text are stated for
    the texts that pass [ascii_text]. *)
Definition ascii_text (s : string) : bool :=
  forallb (fun c => (nat_of_ascii c <? 128)%nat) (list_ascii_of_string s).

Definition is_upper (c : ascii) : bool :=
  let n := nat_of_ascii c in (65 <=? n)%nat && (n <=? 90)%nat.

Definition ascii_lower (c : ascii) : ascii :=
  if is_upper c then ascii_of_nat (nat_of_ascii c + 32) else c.

(** [s.lower()] *)
Fixpoint lower (s : string) : string :=
  match s with
  | EmptyString => EmptyString
  | String c r => String (ascii_lower c) (lower r)
  end.

(** [needle in hay] *)
Fixpoint contains (needle hay : string) : bool :=
  String.prefix needle hay ||
  match hay with
  | EmptyString => false
  | String _ r => contains needle r
  end.

Definition in_range (lo hi : nat) (c : ascii) : bool :=
  let n := nat_of_ascii c in (lo <=? n)%nat && (n <=? hi)%nat.

Definition flush (cur : list ascii) : list string :=
  match cur with
  | [] => []
  | _ => [string_of_list_ascii (rev cur)]
  end.

(** The maximal runs of characters satisfying [keep], left to right. *)
Fixpoint runs (keep : ascii -> bool) (s : string) (cur : list ascii)
    : list string :=
  match s with
  | EmptyString => flush cur
  | String c r =>
      if keep c then runs keep r (c :: cur)
      else (flush cur ++ runs keep r [])%list
  end.

(** [x in xs] for a list of strings *)
Definition str_in (x : string) (xs : list string) : bool :=
  existsb (String.eqb x) xs.

(** ** config.py *)

Record Config (F : Type) : Type := {
  MIN_PROFIT_THRESHOLD : F;
  TRADING_FEE : F
}.
Arguments MIN_PROFIT_THRESHOLD {F} _.
Arguments TRADING_FEE {F} _.

Definition config {F : Type} `{PyFloat F} : Config F :=
  {| MIN_PROFIT_THRESHOLD := lit (5 # 10); TRADING_FEE := lit (2 # 100) |}.

(** ** polymarket_client.py *)

Module PolymarketClient.

Record Market (F : Type) : Type := {
  id : string;
  question : string;
  slug : string;
  active : bool;
  closed : bool;
  outcomes : list string;
  outcome_prices : list F;
  volume : F;
  liquidity : F;
  end_date : option string
}.
Arguments id {F} _.
Arguments question {F} _.
Arguments slug {F} _.
Arguments active {F} _.
Arguments closed {F} _.
Arguments outcomes {F} _.
Arguments outcome_prices {F} _.
Arguments volume {F} _.
Arguments liquidity {F} _.
Arguments end_date {F} _.

Section Properties.
Context {F : Type} `{PyFloat F}.
Variable cfg : Config F.

Local Open Scope py_scope.

(** [Market.total_price] *)
Definition total_price (m : Market F) : F := pysum (outcome_prices m).

(** [Market.arbitrage_opportunity] *)
Definition arbitrage_opportunity (m : Market F) : result F :=
  if flt (total_price m) (lit 1)
  then
    let! g := fdiv (fsub (lit 1) (total_price m)) (total_price m) in
    Ok (fmul g (lit 100))
  else Ok (lit 0).

(** [Market.has_arbitrage] *)
Definition has_arbitrage (m : Market F) : result bool :=
  let! a := arbitrage_opportunity m in
  Ok (flt (MIN_PROFIT_THRESHOLD cfg) a).
End Properties.

End PolymarketClient.

(** ** arbitrage_scanner.py *)

Module ArbitrageScanner.
Import PolymarketClient.

Inductive arb_type : Set := binary | multi_outcome.

Record ArbitrageOpportunity (F : Type) : Type := {
  market : Market F;
  type : arb_type;
  total_cost : F;
  gross_profit_pct : F;
  net_profit_pct : F;
  optimal_allocation : dict F
}.
Arguments market {F} _.
Arguments type {F} _.
Arguments total_cost {F} _.
Arguments gross_profit_pct {F} _.
Arguments net_profit_pct {F} _.
Arguments optimal_allocation {F} _.

Section Scanner.
Context {F : Type} `{PyFloat F}.
Variable cfg : Config F.

Local Open Scope py_scope.

(** [ArbitrageOpportunity.is_profitable] *)
Definition is_profitable (opp : ArbitrageOpportunity F) : bool :=
  flt (MIN_PROFIT_THRESHOLD cfg) (net_profit_pct opp).

(** The allocation loop of [_analyze_market]:
    [for i, outcome in enumerate(market.outcomes):
       optimal_allocation[outcome] = market.outcome_prices[i] / total_cost] *)
Fixpoint allocate (names : list string) (i : nat) (prices : list F)
    (total : F) (acc : dict F) : result (dict F) :=
  match names with
  | [] => Ok acc
  | outcome :: rest =>
      match nth_error prices i with
      | None => Raise IndexError
      | Some p =>
          let! a := fdiv p total in
          allocate rest (S i) prices total (dict_set acc outcome a)
      end
  end.

(** [ArbitrageScanner._analyze_market] *)
Definition _analyze_market (m : Market F)
    : result (option (ArbitrageOpportunity F)) :=
  if closed m || negb (active m) then Ok None
  else if (length (outcome_prices m) <? 2)%nat then Ok None
  else
    let total := pysum (outcome_prices m) in
    if fle (lit 1) total then Ok None
    else
      let! g := fdiv (fsub (lit 1) total) total in
      let gross := fmul g (lit 100) in
      let! payout_per_dollar := fdiv (lit 1) total in
      let fee_pct :=
        fmul (fmul (TRADING_FEE cfg) payout_per_dollar) (lit 100) in
      let net := fsub gross fee_pct in
      let! alloc := allocate (outcomes m) 0 (outcome_prices m) total [] in
      let ty :=
        if (length (outcomes m) =? 2)%nat then binary else multi_outcome in
      Ok (Some {| market := m; type := ty; total_cost := total;
                  gross_profit_pct := gross; net_profit_pct := net;
                  optimal_allocation := alloc |}).

(** The loop of [ArbitrageScanner.scan] over the fetched markets (the
    final sort by net profit is presentation and is left out). *)
Fixpoint scan_markets (markets : list (Market F))
    : result (list (ArbitrageOpportunity F)) :=
  match markets with
  | [] => Ok []
  | m :: rest =>
      let! o := _analyze_market m in
      let! opps := scan_markets rest in
      Ok match o with
         | Some opp => if is_profitable opp then opp :: opps else opps
         | None => opps
         end
  end.
End Scanner.

(** The dict [calculate_returns] builds. *)
Record Returns (F : Type) : Type := {
  investment : F;
  allocations : dict F;
  guaranteed_return : F;
  gross_profit : F;
  fee : F;
  net_profit : F;
  roi_pct : F
}.
Arguments investment {F} _.
Arguments allocations {F} _.
Arguments guaranteed_return {F} _.
Arguments gross_profit {F} _.
Arguments fee {F} _.
Arguments net_profit {F} _.
Arguments roi_pct {F} _.

Section Returns.
Context {F : Type} `{PyFloat F}.
Variable cfg : Config F.

Local Open Scope py_scope.

(** [ArbitrageOpportunity.calculate_returns] *)
Definition calculate_returns (opp : ArbitrageOpportunity F) (invest : F)
    : result (Returns F) :=
  let allocs :=
    fold_left (fun acc item => dict_set acc (fst item) (fmul invest (snd item)))
              (optimal_allocation opp) [] in
  let! guaranteed := fdiv invest (total_cost opp) in
  let gross := fsub guaranteed invest in
  let fee_amount := fmul guaranteed (TRADING_FEE cfg) in
  let net := fsub gross fee_amount in
  let! roi :=
    if flt (lit 0) invest
    then let! r := fdiv net invest in Ok (fmul r (lit 100))
    else Ok (lit 0) in
  Ok {| investment := invest; allocations := allocs;
        guaranteed_return := guaranteed; gross_profit := gross;
        fee := fee_amount; net_profit := net; roi_pct := roi |}.

(** [ArbitrageScanner.scan] on the markets the client fetched. *)
Definition scan (markets : list (Market F))
    : result (list (ArbitrageOpportunity F)) :=
  match markets with
  | [] => Ok []
  | _ =>
      let! opportunities := scan_markets cfg markets in
      Ok (sort_by_reverse net_profit_pct opportunities)
  end.
End Returns.

End ArbitrageScanner.

(** ** main.py *)

Module Main.
Import PolymarketClient ArbitrageScanner.

(** The counters of [NodoBot] that its scans update. *)
Record NodoBot (F : Type) : Type := {
  scan_count : nat;
  opportunities_found : nat;
  best_opportunity : option (ArbitrageOpportunity F)
}.
Arguments scan_count {F} _.
Arguments opportunities_found {F} _.
Arguments best_opportunity {F} _.

Section Bot.
Context {F : Type} `{PyFloat F}.
Variable cfg : Config F.

(** [NodoBot.scan_once] on the markets the scanner fetches: the new state
    of the bot and what the call returns or raises.  The two display calls
    print and are left out. *)
Definition scan_once (bot : NodoBot F) (markets : list (Market F))
    : NodoBot F * result (list (ArbitrageOpportunity F)) :=
  let counted :=
    {| scan_count := S (scan_count bot);
       opportunities_found := opportunities_found bot;
       best_opportunity := best_opportunity bot |} in
  match scan cfg markets with
  | Raise e => (counted, Raise e)
  | Ok [] => (counted, Ok [])
  | Ok (best :: rest) =>
      ({| scan_count := scan_count counted;
          opportunities_found :=
            opportunities_found counted + length (best :: rest);
          best_opportunity := Some best |},
       Ok (best :: rest))
  end.

(** The loop of [run_continuous] over the batches of markets fetched by
    its successive scans: an exception of a scan is logged and the loop goes
    on. *)
Definition run_scans (bot : NodoBot F) (batches : list (list (Market F)))
    : NodoBot F :=
  fold_left (fun b markets => fst (scan_once b markets)) batches bot.
End Bot.

End Main.

(** ** platforms/base.py *)

Module Base.

Inductive MarketCategory : Set :=
| POLITICS | CRYPTO | SPORTS | ECONOMICS | ENTERTAINMENT | SCIENCE | OTHER.

Record PlatformOutcome (F : Type) : Type := {
  name : string;
  price : F;
  token_id : option string
}.
Arguments name {F} _.
Arguments price {F} _.
Arguments token_id {F} _.

(** [PlatformMarket]; the fields no detector or matcher reads
    ([description], [slug], [url], the two dates and the [keywords] list)
    are left out. *)
Record PlatformMarket (F : Type) : Type := {
  platform : string;
  market_id : string;
  question : string;
  outcomes : list (PlatformOutcome F);
  category : MarketCategory;
  volume : F;
  liquidity : F;
  active : bool;
  resolved : bool
}.
Arguments platform {F} _.
Arguments market_id {F} _.
Arguments question {F} _.
Arguments outcomes {F} _.
Arguments category {F} _.
Arguments volume {F} _.
Arguments liquidity {F} _.
Arguments active {F} _.
Arguments resolved {F} _.

Section Prices.
Context {F : Type}.

(** [for outcome in self.outcomes:
       if outcome.name.lower() in names: return outcome.price] *)
Fixpoint find_outcome (names : list string) (os : list (PlatformOutcome F))
    : option F :=
  match os with
  | [] => None
  | o :: r =>
      if str_in (lower (name o)) names then Some (price o)
      else find_outcome names r
  end.

(** [PlatformMarket.best_yes_price] *)
Definition best_yes_price (m : PlatformMarket F) : option F :=
  match find_outcome ["yes"; "true"] (outcomes m) with
  | Some p => Some p
  | None =>
      match outcomes m with
      | o :: _ => Some (price o)
      | [] => None
      end
  end.

(** [PlatformMarket.best_no_price] *)
Definition best_no_price (m : PlatformMarket F) : option F :=
  match find_outcome ["no"; "false"] (outcomes m) with
  | Some p => Some p
  | None =>
      match outcomes m with
      | _ :: o :: _ => Some (price o)
      | _ => None
      end
  end.
End Prices.

Section Lookup.
Context {F : Type} `{PyFloat F}.

(** [PlatformMarket.get_outcome_price] *)
Definition get_outcome_price (m : PlatformMarket F) (outcome_name : string)
    : option F :=
  let fix go (os : list (PlatformOutcome F)) : option F :=
    match os with
    | [] => None
    | o :: r =>
        if String.eqb (lower (name o)) (lower outcome_name)
        then Some (price o) else go r
    end in
  go (outcomes m).
End Lookup.

End Base.

(** ** event_matcher.py *)

Module EventMatcher.
Import Base.

(** [MatchedEvent]; [event_id] (an MD5 digest) and [match_reason] (a
    display string) carry no information the detectors read and are
    left out. *)
Record MatchedEvent (F : Type) : Type := {
  name : string;
  category : MarketCategory;
  markets : dict (PlatformMarket F);
  confidence : F;
  keywords : gset string;
  needs_verification : bool
}.
Arguments name {F} _.
Arguments category {F} _.
Arguments markets {F} _.
Arguments confidence {F} _.
Arguments keywords {F} _.
Arguments needs_verification {F} _.

(** [MatchedEvent.num_platforms] *)
Definition num_platforms {F : Type} (e : MatchedEvent F) : nat :=
  length (markets e).

Section Quotes.
Context {F : Type} `{PyFloat F}.

(** [MatchedEvent.platforms] *)
Definition platforms (e : MatchedEvent F) : list string :=
  dict_keys (markets e).

(** [MatchedEvent.get_prices] *)
Definition get_prices (e : MatchedEvent F) (outcome : string) : dict F :=
  fold_left
    (fun prices item =>
       match get_outcome_price (snd item) outcome with
       | Some price => dict_set prices (fst item) price
       | None => prices
       end)
    (markets e) [].

(** [MatchedEvent.get_best_buy] *)
Definition get_best_buy (e : MatchedEvent F) (outcome : string)
    : string * F :=
  match get_prices e outcome with
  | [] => ("", lit 0)
  | x :: rest => min_by snd x rest
  end.

(** [MatchedEvent.get_best_sell] *)
Definition get_best_sell (e : MatchedEvent F) (outcome : string)
    : string * F :=
  match get_prices e outcome with
  | [] => ("", lit 0)
  | x :: rest => max_by snd x rest
  end.

(** [MatchedEvent.price_spread] *)
Definition price_spread (e : MatchedEvent F) (outcome : string) : F :=
  match map snd (get_prices e outcome) with
  | x :: (y :: _) as rest =>
      fsub (max_by (fun p => p) x rest) (min_by (fun p => p) x rest)
  | _ => lit 0
  end.
End Quotes.

Definition ENTITIES : gset string :=
  list_to_set
    [ "trump"; "biden"; "harris"; "vance"; "newsom"; "desantis"; "musk"; "elon";
      "starmer"; "keir"; "putin"; "zelensky"; "xi"; "macron"; "scholz"; "modi";
      "khamenei"; "netanyahu"; "trudeau"; "milei"; "altman"; "zuckerberg";
      "nato"; "fed"; "sec"; "congress"; "senate"; "supreme"; "court";
      "spacex"; "tesla"; "openai"; "twitter"; "meta"; "google";
      "ukraine"; "russia"; "china"; "iran"; "israel"; "gaza"; "greenland";
      "taiwan"; "uk"; "britain"; "us"; "usa"; "america";
      "recession"; "ceasefire"; "war"; "pandemic"; "bitcoin"; "btc"; "crypto";
      "election"; "president"; "impeach"; "veto" ].

Definition YEARS : gset string :=
  list_to_set ["2024"; "2025"; "2026"; "2027"; "2028"].

Definition ACTIONS : gset string :=
  list_to_set
    [ "win"; "lose"; "leave"; "remain"; "resign"; "ceasefire";
      "recession"; "cut"; "raise"; "reach"; "hit"; "join" ].

(** *** Tokens *)

(** [[a-z0-9]] *)
Definition is_lower_alnum (c : ascii) : bool :=
  in_range 97 122 c || in_range 48 57 c.

(** [\w] on ASCII text: letters, digits and the underscore. *)
Definition is_word_char (c : ascii) : bool :=
  is_lower_alnum c || in_range 65 90 c || (nat_of_ascii c =? 95)%nat.

(** The maximal runs of word characters: the places where
    [\b ... \b] can match a whole word. *)
Definition word_runs (s : string) : list string := runs is_word_char s [].

Definition all_chars (f : ascii -> bool) (w : string) : bool :=
  forallb f (list_ascii_of_string w).

(** [re.findall(r'\b[a-z0-9]+\b', text)]: a run matches when it has no
    character outside [a-z0-9]. *)
Definition findall_words (text : string) : list string :=
  List.filter (all_chars is_lower_alnum) (word_runs text).

(** [re.findall(r'\b(202[4-9])\b', text)] *)
Definition findall_years (text : string) : list string :=
  List.filter (fun w => str_in w ["2024"; "2025"; "2026"; "2027"; "2028"; "2029"])
         (word_runs text).

(** [EventMatcher._extract_keywords] *)
Definition _extract_keywords (text : string) : gset string :=
  let text_lower := lower text in
  let words : gset string := list_to_set (findall_words text_lower) in
  let entities := words ∩ ENTITIES in
  let years : gset string := list_to_set (findall_years text) in
  let actions := words ∩ ACTIONS in
  entities ∪ years ∪ actions.

(** [bool(s)] for a set *)
Definition nonempty (s : gset string) : bool := negb (size s =? 0)%nat.

(** [len(s)] as a number *)
Definition len {F : Type} `{PyFloat F} (s : gset string) : F :=
  lit (inject_Z (Z.of_nat (size s))).

Section Matcher.
Context {F : Type} `{PyFloat F}.
Variable similarity_threshold : F.

Local Open Scope py_scope.

(** [_calculate_similarity] once both keyword sets are known. *)
Definition similarity_of (kw1 kw2 : gset string) : result F :=
  if negb (nonempty kw1) || negb (nonempty kw2) then Ok (lit 0)
  else
    let common := kw1 ∩ kw2 in
    if negb (nonempty common) then Ok (lit 0)
    else
      let union := kw1 ∪ kw2 in
      let! jaccard := fdiv (len common) (len union) in
      let entities_common := common ∩ ENTITIES in
      let entity_bonus :=
        if nonempty entities_common then lit (2 # 10) else lit 0 in
      let years_common := common ∩ YEARS in
      let year_bonus :=
        if nonempty years_common then lit (15 # 100) else lit 0 in
      let score := fadd (fadd jaccard entity_bonus) year_bonus in
      Ok (pymin score (lit 1)).

(** [EventMatcher._calculate_similarity] (the score of the returned
    pair). *)
Definition _calculate_similarity (m1 m2 : PlatformMarket F)
    (kw1 : option (gset string)) : result F :=
  let kw1 :=
    match kw1 with
    | Some k => if nonempty k then k else _extract_keywords (question m1)
    | None => _extract_keywords (question m1)
    end in
  let kw2 := _extract_keywords (question m2) in
  similarity_of kw1 kw2.

(** [f"{m.platform}:{m.market_id}"] *)
Definition market_key (m : PlatformMarket F) : string :=
  String.append (platform m) (String.append ":" (market_id m)).

Definition is_used (used : gset string) (k : string) : bool :=
  bool_decide (k ∈ used).

(** The grouping loop: [by_platform[m.platform].append(m)]. *)
Definition group_by_platform (ms : list (PlatformMarket F))
    : dict (list (PlatformMarket F)) :=
  fold_left
    (fun d m =>
       match dict_get d (platform m) with
       | Some l => dict_set d (platform m) (l ++ [m])%list
       | None => dict_set d (platform m) [m]
       end)
    ms [].

(** The candidate loop for one other platform. *)
Fixpoint best_candidate (market : PlatformMarket F) (kws : gset string)
    (used : gset string) (cands : list (PlatformMarket F))
    (best_match : option (PlatformMarket F * F)) (best_score : F)
    : result (option (PlatformMarket F * F)) :=
  match cands with
  | [] => Ok best_match
  | candidate :: rest =>
      if is_used used (market_key candidate)
      then best_candidate market kws used rest best_match best_score
      else
        let! score := _calculate_similarity market candidate (Some kws) in
        if flt best_score score && fle similarity_threshold score
        then best_candidate market kws used rest (Some (candidate, score)) score
        else best_candidate market kws used rest best_match best_score
  end.

(** [for other in other_platforms: ...; if best_match: matches.append] *)
Fixpoint collect_matches (by_platform : dict (list (PlatformMarket F)))
    (market : PlatformMarket F) (kws : gset string) (used : gset string)
    (others : list string) : result (list (PlatformMarket F * F)) :=
  match others with
  | [] => Ok []
  | other :: rest =>
      let cands :=
        match dict_get by_platform other with
        | Some l => l
        | None => []
        end in
      let! best := best_candidate market kws used cands None (lit 0) in
      let! more := collect_matches by_platform market kws used rest in
      Ok match best with
         | Some b => b :: more
         | None => more
         end
  end.

(** [for matched_market, confidence, reason in matches: ...] *)
Fixpoint add_matches (matches : list (PlatformMarket F * F))
    (event : MatchedEvent F) (used : gset string)
    : MatchedEvent F * gset string :=
  match matches with
  | [] => (event, used)
  | (mm, conf) :: rest =>
      let mkey := market_key mm in
      if is_used used mkey then add_matches rest event used
      else
        let event' :=
          {| name := name event;
             category := category event;
             markets := dict_set (markets event) (platform mm) mm;
             confidence := pymax (confidence event) conf;
             keywords := keywords event;
             needs_verification := needs_verification event |} in
        add_matches rest event' ({[mkey]} ∪ used)
  end.

(** The main loop over the first platform's markets. *)
Fixpoint match_loop (by_platform : dict (list (PlatformMarket F)))
    (others : list string) (mains : list (PlatformMarket F))
    (used : gset string) (matched_events : list (MatchedEvent F))
    : result (list (MatchedEvent F)) :=
  match mains with
  | [] => Ok matched_events
  | market :: rest =>
      let mkey := market_key market in
      if is_used used mkey
      then match_loop by_platform others rest used matched_events
      else
        let kws := _extract_keywords (question market) in
        if negb (nonempty kws)
        then match_loop by_platform others rest used matched_events
        else
          let! matches := collect_matches by_platform market kws used others in
          match matches with
          | [] =>
              match_loop by_platform others rest ({[mkey]} ∪ used)
                         matched_events
          | _ =>
              let event0 :=
                {| name := String.substring 0 80 (question market);
                   category := Base.category market;
                   markets := dict_set [] (platform market) market;
                   confidence := lit 0;
                   keywords := kws;
                   needs_verification := true |} in
              let '(event, used') :=
                add_matches matches event0 ({[mkey]} ∪ used) in
              let matched_events' :=
                if (1 <? num_platforms event)%nat
                then (matched_events ++ [event])%list else matched_events in
              match_loop by_platform others rest ({[mkey]} ∪ used')
                         matched_events'
          end
  end.

(** [EventMatcher.match_markets] *)
Definition match_markets (ms : list (PlatformMarket F))
    : result (list (MatchedEvent F)) :=
  match ms with
  | [] => Ok []
  | _ =>
      let by_platform := group_by_platform ms in
      match by_platform with
      | [] => Ok []
      | (main_platform, mains) :: others =>
          match_loop by_platform (dict_keys others) mains ∅ []
      end
  end.
End Matcher.

End EventMatcher.

(** ** cross_platform_scanner.py *)

Module CrossPlatformScanner.
Import Base EventMatcher.

Record CrossPlatformArbitrage (F : Type) : Type := {
  event : MatchedEvent F;
  yes_platform : string;
  yes_price : F;
  no_platform : string;
  no_price : F;
  total_cost : F;
  gross_profit_pct : F;
  net_profit_pct : F;
  yes_platform_fee : F;
  no_platform_fee : F
}.
Arguments event {F} _.
Arguments yes_platform {F} _.
Arguments yes_price {F} _.
Arguments no_platform {F} _.
Arguments no_price {F} _.
Arguments total_cost {F} _.
Arguments gross_profit_pct {F} _.
Arguments net_profit_pct {F} _.
Arguments yes_platform_fee {F} _.
Arguments no_platform_fee {F} _.

(** [self.platforms], reduced to what the detector reads of each
    registered platform: its [trading_fee]. *)
Definition default_platforms {F : Type} `{PyFloat F} : dict F :=
  [ ("polymarket", lit (2 # 100));
    ("kalshi", lit (1 # 100));
    ("predictit", lit (10 # 100));
    ("azuro", lit (5 # 100)) ].

Section Scanner.
Context {F : Type} `{PyFloat F}.
Variable platforms : dict F.

Local Open Scope py_scope.

(** [price and price > 0] for a price that is not None *)
Definition usable (x : F) : bool := truthy x && flt (lit 0) x.

(** The collection loop, for one side:
    [for platform_name, market in event.markets.items():
       price = side(market)
       if price and price > 0: prices[platform_name] = price] *)
Definition collect_prices (side : PlatformMarket F -> option F)
    (items : dict (PlatformMarket F)) : dict F :=
  fold_left
    (fun acc item =>
       match side (snd item) with
       | Some x => if usable x then dict_set acc (fst item) x else acc
       | None => acc
       end)
    items [].

(** [min(d.items(), key=lambda x: x[1])]: the first item among those
    of least price. *)
Definition min_item (d : dict F) : option (string * F) :=
  match d with
  | [] => None
  | x :: r =>
      Some (fold_left (fun best y => if flt (snd y) (snd best) then y else best)
                      r x)
  end.

Definition yes_prices (ev : MatchedEvent F) : dict F :=
  collect_prices best_yes_price (markets ev).
Definition no_prices (ev : MatchedEvent F) : dict F :=
  collect_prices best_no_price (markets ev).

(** [platform.trading_fee if platform else 0.02] *)
Definition fee_of (name : string) : F :=
  match dict_get platforms name with
  | Some fee => fee
  | None => lit (2 # 100)
  end.

(** [CrossPlatformScanner._find_arbitrage].  The early return on
    [len(yes_prices) < 1 or len(no_prices) < 1] is the case where one of
    the two dicts is empty and [min_item] has nothing to select. *)
Definition _find_arbitrage (ev : MatchedEvent F)
    : result (list (CrossPlatformArbitrage F)) :=
  match min_item (yes_prices ev), min_item (no_prices ev) with
  | Some best_yes, Some best_no =>
      let total := fadd (snd best_yes) (snd best_no) in
      if fle (lit 1) total then Ok []
      else if String.eqb (fst best_yes) (fst best_no) then Ok []
      else
        let yes_fee := fee_of (fst best_yes) in
        let no_fee := fee_of (fst best_no) in
        let gross_profit := fsub (lit 1) total in
        let! g := fdiv gross_profit total in
        let gross_pct := fmul g (lit 100) in
        let! avg_fee := fdiv (fadd yes_fee no_fee) (lit 2) in
        let net_profit := fsub gross_profit avg_fee in
        let! n := fdiv net_profit total in
        let net_pct := fmul n (lit 100) in
        Ok [ {| event := ev;
                yes_platform := fst best_yes;
                yes_price := snd best_yes;
                no_platform := fst best_no;
                no_price := snd best_no;
                total_cost := total;
                gross_profit_pct := gross_pct;
                net_profit_pct := net_pct;
                yes_platform_fee := yes_fee;
                no_platform_fee := no_fee |} ]
  | _, _ => Ok []
  end.
End Scanner.

(** The dict [CrossPlatformArbitrage.calculate_returns] builds. *)
Record Returns (F : Type) : Type := {
  investment : F;
  units : F;
  yes_investment : F;
  no_investment : F;
  gross_return : F;
  fee : F;
  net_return : F;
  net_profit : F;
  roi_pct : F
}.
Arguments investment {F} _.
Arguments units {F} _.
Arguments yes_investment {F} _.
Arguments no_investment {F} _.
Arguments gross_return {F} _.
Arguments fee {F} _.
Arguments net_return {F} _.
Arguments net_profit {F} _.
Arguments roi_pct {F} _.

Section Scan.
Context {F : Type} `{PyFloat F}.
Variable cfg : Config F.
Variable platforms : dict F.

Local Open Scope py_scope.

(** [CrossPlatformArbitrage.is_profitable] *)
Definition is_profitable (arb : CrossPlatformArbitrage F) : bool :=
  flt (MIN_PROFIT_THRESHOLD cfg) (net_profit_pct arb).

(** [CrossPlatformArbitrage.guaranteed_return] *)
Definition guaranteed_return (arb : CrossPlatformArbitrage F) : F := lit 1.

(** [CrossPlatformArbitrage.calculate_returns]; the two platform names
    it copies into the dict are those of the opportunity. *)
Definition calculate_returns (arb : CrossPlatformArbitrage F) (invest : F)
    : result (Returns F) :=
  let! n := fdiv invest (total_cost arb) in
  let yes_inv := fmul n (yes_price arb) in
  let no_inv := fmul n (no_price arb) in
  let gross := fmul n (lit 1) in
  let! avg_fee :=
    fdiv (fadd (yes_platform_fee arb) (no_platform_fee arb)) (lit 2) in
  let fee_amount := fmul gross avg_fee in
  let net := fsub gross fee_amount in
  let profit := fsub net invest in
  let! roi :=
    if flt (lit 0) invest
    then let! r := fdiv profit invest in Ok (fmul r (lit 100))
    else Ok (lit 0) in
  Ok {| investment := invest; units := n;
        yes_investment := yes_inv; no_investment := no_inv;
        gross_return := gross; fee := fee_amount; net_return := net;
        net_profit := profit; roi_pct := roi |}.

(** [for event in multi_platform_events:
       opportunities.extend(self._find_arbitrage(event))] *)
Fixpoint find_all (events : list (MatchedEvent F))
    : result (list (CrossPlatformArbitrage F)) :=
  match events with
  | [] => Ok []
  | ev :: rest =>
      let! arbs := _find_arbitrage platforms ev in
      let! more := find_all rest in
      Ok (arbs ++ more)%list
  end.

(** [CrossPlatformScanner.scan] on the markets fetched from all
    platforms; its matcher is built with threshold 0.5. *)
Definition scan (all_markets : list (PlatformMarket F))
    : result (list (CrossPlatformArbitrage F)) :=
  if (length all_markets <? 2)%nat then Ok []
  else
    let! matched_events := match_markets (lit (1 # 2)) all_markets in
    let multi_platform_events :=
      List.filter (fun e => (1 <? num_platforms e)%nat) matched_events in
    let! opportunities := find_all multi_platform_events in
    Ok (List.filter is_profitable
          (sort_by_reverse net_profit_pct opportunities)).
End Scan.

End CrossPlatformScanner.

(** ** delta_scanner.py *)

Module DeltaScanner.

(** The dict [_parse_market] builds for one market, with its keys as
    fields. *)
Module Parsed.
Record ParsedMarket (F : Type) : Type := {
  id : string;
  question : string;
  yes_price : F;
  no_price : F;
  volume : F;
  url : string;
  threshold : option F;
  topic : string;
  direction : string
}.
Arguments id {F} _.
Arguments question {F} _.
Arguments yes_price {F} _.
Arguments no_price {F} _.
Arguments volume {F} _.
Arguments url {F} _.
Arguments threshold {F} _.
Arguments topic {F} _.
Arguments direction {F} _.
End Parsed.
Export Parsed.

(** [DeltaOpportunity]; the three message strings ([logic_error],
    [action], [explanation]) are formatted text for display and are left
    out. *)
Record DeltaOpportunity (F : Type) : Type := {
  event_a : ParsedMarket F;
  event_b : ParsedMarket F;
  topic : string;
  profit_potential : F;
  confidence : nat
}.
Arguments event_a {F} _.
Arguments event_b {F} _.
Arguments topic {F} _.
Arguments profit_potential {F} _.
Arguments confidence {F} _.

(** *** Topic extraction *)

Definition skip_words : list string :=
  [ "will"; "the"; "be"; "is"; "are"; "have"; "has"; "do"; "does";
    "can"; "could"; "would"; "should"; "what"; "when"; "where"; "who";
    "how"; "why"; "any"; "all"; "each"; "every"; "this"; "that" ].

(** Whitespace for [str.split()] on ASCII text. *)
Definition is_space (c : ascii) : bool :=
  in_range 9 13 c || in_range 28 32 c.

(** [question.split()] *)
Definition split (s : string) : list string :=
  runs (fun c => negb (is_space c)) s [].

(** The characters [w.strip(...)] removes: question mark, comma, full
    stop, both quotes, round and square brackets. *)
Definition strip_chars : list ascii :=
  [ "?"; ","; "."; ascii_of_nat 34; "'"; "("; ")"; "["; "]" ]%char.

Fixpoint lstrip (cs : list ascii) : list ascii :=
  match cs with
  | [] => []
  | c :: r => if existsb (Ascii.eqb c) strip_chars then lstrip r else cs
  end.

(** [w.strip(...)] with those characters *)
Definition strip (w : string) : string :=
  string_of_list_ascii
    (rev (lstrip (rev (lstrip (list_ascii_of_string w))))).

(** [clean and clean[0].isupper() and len(clean) > 2
      and clean.lower() not in skip_words] *)
Definition is_topic_word (clean : string) : bool :=
  match clean with
  | EmptyString => false
  | String c _ =>
      is_upper c && (2 <? String.length clean)%nat
      && negb (str_in (lower clean) skip_words)
  end.

(** The loop over [question.split()]. *)
Fixpoint first_topic_word (words : list string) : option string :=
  match words with
  | [] => None
  | w :: rest =>
      let clean := strip w in
      if is_topic_word clean then Some (String.substring 0 12 clean)
      else first_topic_word rest
  end.

(** [DeltaScanner._extract_topic] *)
Definition _extract_topic (question : string) : string :=
  let q_lower := lower question in
  if contains "bitcoin" q_lower || contains "btc" q_lower then "BTC"
  else if contains "ethereum" q_lower || contains "eth" q_lower then "ETH"
  else if contains "solana" q_lower || contains "sol " q_lower then "SOL"
  else if contains "xrp" q_lower || contains "ripple" q_lower then "XRP"
  else if contains "dogecoin" q_lower || contains "doge" q_lower then "DOGE"
  else if contains "trump" q_lower then "TRUMP"
  else if contains "biden" q_lower then "BIDEN"
  else if contains "harris" q_lower then "HARRIS"
  else if contains "musk" q_lower || contains "elon" q_lower then "MUSK"
  else if contains "fed" q_lower || contains "interest rate" q_lower
          || contains "federal reserve" q_lower then "FED_RATE"
  else if contains "inflation" q_lower || contains "cpi" q_lower then "INFLATION"
  else if contains "gdp" q_lower then "GDP"
  else if contains "tesla" q_lower || contains "tsla" q_lower then "TESLA"
  else if contains "sp500" q_lower || contains "s&p" q_lower
          || contains "spy" q_lower then "SP500"
  else if contains "nasdaq" q_lower || contains "qqq" q_lower then "NASDAQ"
  else if contains "nvidia" q_lower || contains "nvda" q_lower then "NVIDIA"
  else
    match first_topic_word (split question) with
    | Some w => w
    | None => "OTHER"
    end.

(** The keyword categories of [_extract_topic], in the order its
    branches test them. *)
Definition TOPIC_KEYWORDS : list (string * list string) :=
  [ ("BTC", ["bitcoin"; "btc"]);
    ("ETH", ["ethereum"; "eth"]);
    ("SOL", ["solana"; "sol "]);
    ("XRP", ["xrp"; "ripple"]);
    ("DOGE", ["dogecoin"; "doge"]);
    ("TRUMP", ["trump"]);
    ("BIDEN", ["biden"]);
    ("HARRIS", ["harris"]);
    ("MUSK", ["musk"; "elon"]);
    ("FED_RATE", ["fed"; "interest rate"; "federal reserve"]);
    ("INFLATION", ["inflation"; "cpi"]);
    ("GDP", ["gdp"]);
    ("TESLA", ["tesla"; "tsla"]);
    ("SP500", ["sp500"; "s&p"; "spy"]);
    ("NASDAQ", ["nasdaq"; "qqq"]);
    ("NVIDIA", ["nvidia"; "nvda"]) ].

(** The number of a category's keywords that occur in the text. *)
Definition hit_count (text : string) (kws : list string) : nat :=
  length (List.filter (fun kw => contains kw text) kws).

(** The specification's extractor, following its words: the category of
    highest hit count, ties going to the one declared first, and OTHER
    when nothing hits. *)
Fixpoint best_by_hits (text : string) (cats : list (string * list string))
    (best : string) (best_hits : nat) : string :=
  match cats with
  | [] => best
  | (tag, kws) :: rest =>
      if (best_hits <? hit_count text kws)%nat
      then best_by_hits text rest tag (hit_count text kws)
      else best_by_hits text rest best best_hits
  end.

Definition spec_extract_topic (question : string) : string :=
  best_by_hits (lower question) TOPIC_KEYWORDS "OTHER" 0.

(** *** Thresholds and directions *)

(** [\d] and [[\d,]] on ASCII text *)
Definition is_digit (c : ascii) : bool := in_range 48 57 c.
Definition is_amount_char (c : ascii) : bool :=
  is_digit c || Ascii.eqb c ","%char.

(** The longest prefix of characters satisfying [f], and what follows:
    a greedy [f*]. *)
Fixpoint span (f : ascii -> bool) (cs : list ascii)
    : list ascii * list ascii :=
  match cs with
  | [] => ([], [])
  | c :: r =>
      if f c then let '(a, b) := span f r in (c :: a, b) else ([], cs)
  end.

(** [\s*([\d,]+(?:\.\d+)?)] at the start of [cs]: group 1 and the text
    after the match. *)
Definition match_amount (cs : list ascii)
    : option (list ascii * list ascii) :=
  let '(_, r1) := span is_space cs in
  let '(whole, r2) := span is_amount_char r1 in
  match whole with
  | [] => None
  | _ =>
      match r2 with
      | "."%char :: r3 =>
          let '(frac, r4) := span is_digit r3 in
          match frac with
          | [] => Some (whole, r2)
          | _ => Some ((whole ++ "."%char :: frac)%list, r4)
          end
      | _ => Some (whole, r2)
      end
  end.

(** [\s*[kK]] (or [\s*[mM]]) at the start of [cs] *)
Definition match_suffix (letters : list ascii) (cs : list ascii) : bool :=
  match snd (span is_space cs) with
  | c :: _ => existsb (Ascii.eqb c) letters
  | [] => false
  end.

(** [re.search] for one of the three patterns: group 1 of the leftmost
    match.  Every pattern starts at a dollar sign, and once the sign is
    fixed the greedy reading is the only one that can reach the suffix
    letter, so each dollar sign is tried once. *)
Fixpoint search_amount (letters : option (list ascii)) (cs : list ascii)
    : option (list ascii) :=
  match cs with
  | [] => None
  | c :: r =>
      if Ascii.eqb c "$"%char
      then
        match match_amount r with
        | Some (g, rest) =>
            if match letters with
               | Some ls => match_suffix ls rest
               | None => true
               end
            then Some g else search_amount letters r
        | None => search_amount letters r
        end
      else search_amount letters r
  end.

Definition digits_value (ds : list ascii) : Z :=
  fold_left (fun acc c => (10 * acc + Z.of_nat (nat_of_ascii c - 48))%Z) ds 0%Z.

(** [float(s)] for the texts group 1 can hold once its commas are
    removed: digits, optionally followed by a point and digits.  [None]
    is ValueError (the empty text, or a point with no digit around). *)
Definition parse_float (cs : list ascii) : option Q :=
  let '(whole, r) := span is_digit cs in
  match r with
  | [] =>
      match whole with
      | [] => None
      | _ => Some (inject_Z (digits_value whole))
      end
  | "."%char :: frac =>
      if forallb is_digit frac && negb ((length whole + length frac =? 0)%nat)
      then Some (inject_Z (digits_value (whole ++ frac))
                 / inject_Z (10 ^ Z.of_nat (length frac)))%Q
      else None
  | _ => None
  end.

(** What [_extract_threshold] does: return a number, return None, or let
    the ValueError of [float] escape. *)
Inductive threshold_result (F : Type) : Type :=
| Found (t : F)
| Missing
| FloatError.
Arguments Found {F} _.
Arguments Missing {F}.
Arguments FloatError {F}.

Section Thresholds.
Context {F : Type} `{PyFloat F}.

(** One round of the loop over the three patterns; [None] stands for
    going on to the next pattern. *)
Definition try_pattern (i : nat) (letters : option (list ascii))
    (question : list ascii) : option (threshold_result F) :=
  match search_amount letters question with
  | None => None
  | Some g =>
      let num_str := List.filter (fun c => negb (Ascii.eqb c ","%char)) g in
      match parse_float num_str with
      | None => Some FloatError
      | Some n =>
          let num := lit n in
          if fle (lit 2020) num && fle num (lit 2030) then None
          else if flt num (lit 100) then None
          else
            Some (Found (match i with
                         | 0%nat => fmul num (lit 1000)
                         | 1%nat => fmul num (lit 1000000)
                         | _ => num
                         end))
      end
  end.

(** [DeltaScanner._extract_threshold].  In binary64 the number is the
    literal of the decimal read, which is the double [float] returns for
    a text without a fractional part, and for one with a fractional part
    of up to 15 digits in all. *)
Definition _extract_threshold (question : string) : threshold_result F :=
  let q := list_ascii_of_string question in
  match try_pattern 0 (Some ["k"; "K"]%char) q with
  | Some r => r
  | None =>
      match try_pattern 1 (Some ["m"; "M"]%char) q with
      | Some r => r
      | None =>
          match try_pattern 2 None q with
          | Some r => r
          | None => Missing
          end
      end
  end.
End Thresholds.

(** [DeltaScanner._extract_direction] *)
Definition _extract_direction (question : string) : string :=
  let q_lower := lower question in
  if contains "above" q_lower || contains "over" q_lower
     || contains "exceed" q_lower
  then "above"
  else if contains "below" q_lower || contains "under" q_lower
          || contains "drop" q_lower || contains "fall" q_lower
          || contains "dip" q_lower
  then "below"
  else if contains "reach" q_lower || contains "hit" q_lower then "reach"
  else "unknown".

(** *** Parsing *)

(** A market of the API response once its fields are decoded: the
    question, the two JSON lists, the volume as a number, and the slug (or
    the id when there is none). *)
Record DecodedMarket (F : Type) : Type := {
  raw_id : string;
  raw_question : string;
  raw_outcomes : list string;
  raw_prices : list F;
  raw_volume : F;
  raw_slug : string
}.
Arguments raw_id {F} _.
Arguments raw_question {F} _.
Arguments raw_outcomes {F} _.
Arguments raw_prices {F} _.
Arguments raw_volume {F} _.
Arguments raw_slug {F} _.

Section Parsing.
Context {F : Type} `{PyFloat F}.

(** [DeltaScanner._parse_market] from the decoded fields on.  The
    ValueError of [_extract_threshold] is caught by the bare [except] and
    gives None. *)
Definition _parse_market (market : DecodedMarket F)
    : option (ParsedMarket F) :=
  match raw_question market with
  | EmptyString => None
  | _ =>
      match raw_outcomes market, raw_prices market with
      | [_; _], [p_yes; p_no] =>
          if flt (raw_volume market) (lit 1000) then None
          else
            match _extract_threshold (raw_question market) with
            | FloatError => None
            | found =>
                Some {| id := raw_id market;
                        question := raw_question market;
                        yes_price := p_yes;
                        no_price := p_no;
                        volume := raw_volume market;
                        url := String.append "https://polymarket.com/event/"
                                             (raw_slug market);
                        threshold :=
                          match found with
                          | Found t => Some t
                          | _ => None
                          end;
                        Parsed.topic := _extract_topic (raw_question market);
                        direction :=
                          _extract_direction (raw_question market) |}
            end
      | _, _ => None
      end
  end.

(** [DeltaScanner._group_by_topic] *)
Definition _group_by_topic (markets : list (ParsedMarket F))
    : dict (list (ParsedMarket F)) :=
  fold_left
    (fun groups m =>
       match dict_get groups (Parsed.topic m) with
       | Some l => dict_set groups (Parsed.topic m) (l ++ [m])%list
       | None => dict_set groups (Parsed.topic m) [m]
       end)
    markets [].
End Parsing.

(** *** Inconsistencies *)

Section Scanner.
Context {F : Type} `{PyFloat F}.

Local Open Scope py_scope.

(** [m.get("threshold")] as a condition *)
Definition has_threshold (m : ParsedMarket F) : bool :=
  match threshold m with
  | Some t => truthy t
  | None => false
  end.

(** [m["threshold"]] for a market that passed [has_threshold] *)
Definition thr (m : ParsedMarket F) : F :=
  match threshold m with
  | Some t => t
  | None => lit 0
  end.

(** [list.sort(key=lambda x: x["threshold"])]: a stable sort, comparing
    keys with [<]. *)
Fixpoint insert_sorted (x : ParsedMarket F) (l : list (ParsedMarket F))
    : list (ParsedMarket F) :=
  match l with
  | [] => [x]
  | y :: r =>
      if flt (thr x) (thr y) then x :: y :: r else y :: insert_sorted x r
  end.

Definition sort_by_threshold (l : list (ParsedMarket F))
    : list (ParsedMarket F) :=
  fold_left (fun acc x => insert_sorted x acc) l [].

Variable topic_name : string.

(** The body of the first loop, for one adjacent pair. *)
Definition reach_pair (lower higher : ParsedMarket F)
    : result (list (DeltaOpportunity F)) :=
  let! ratio := fdiv (thr higher) (thr lower) in
  if flt ratio (lit (11 # 10)) then Ok []
  else if flt (yes_price lower) (yes_price higher)
          && flt (lit (1 # 1000)) (yes_price lower)
  then
    let diff := fsub (yes_price higher) (yes_price lower) in
    let! d := fdiv diff (pymax (yes_price lower) (lit (1 # 100))) in
    let profit := fmul d (lit 100) in
    Ok [ {| event_a := higher; event_b := lower; topic := topic_name;
            profit_potential := pymin profit (lit 500);
            confidence := 90 |} ]
  else if flt (fabs (fsub (yes_price higher) (yes_price lower))) (lit (2 # 100))
          && flt (lit (5 # 100)) (yes_price lower)
  then
    Ok [ {| event_a := higher; event_b := lower; topic := topic_name;
            profit_potential := lit 5;
            confidence := 60 |} ]
  else Ok [].

(** The body of the second loop, for one adjacent pair. *)
Definition dip_pair (lower higher : ParsedMarket F)
    : result (list (DeltaOpportunity F)) :=
  if flt (yes_price higher) (yes_price lower)
     && flt (lit (1 # 1000)) (yes_price higher)
  then
    let diff := fsub (yes_price lower) (yes_price higher) in
    let! d := fdiv diff (pymax (yes_price higher) (lit (1 # 100))) in
    let profit := fmul d (lit 100) in
    Ok [ {| event_a := lower; event_b := higher; topic := topic_name;
            profit_potential := pymin profit (lit 500);
            confidence := 85 |} ]
  else Ok [].

(** [for i in range(len(ms) - 1): lower = ms[i]; higher = ms[i + 1]; ...] *)
Fixpoint adjacent_loop
    (body : ParsedMarket F -> ParsedMarket F -> result (list (DeltaOpportunity F)))
    (ms : list (ParsedMarket F)) : result (list (DeltaOpportunity F)) :=
  match ms with
  | lower :: rest =>
      match rest with
      | higher :: _ =>
          let! here := body lower higher in
          let! more := adjacent_loop body rest in
          Ok (here ++ more)%list
      | [] => Ok []
      end
  | [] => Ok []
  end.

(** The body of the third loop, for one market. *)
Definition spread_one (m : ParsedMarket F)
    : result (list (DeltaOpportunity F)) :=
  let total := fadd (yes_price m) (no_price m) in
  if flt total (lit (95 # 100)) && flt (lit 5000) (volume m)
  then
    let! g := fdiv (fsub (lit 1) total) total in
    let profit := fmul g (lit 100) in
    Ok [ {| event_a := m; event_b := m; topic := topic_name;
            profit_potential := profit;
            confidence := 95 |} ]
  else Ok [].

Fixpoint spread_loop (ms : list (ParsedMarket F))
    : result (list (DeltaOpportunity F)) :=
  match ms with
  | [] => Ok []
  | m :: rest =>
      let! here := spread_one m in
      let! more := spread_loop rest in
      Ok (here ++ more)%list
  end.

(** [DeltaScanner._find_inconsistencies] *)
Definition _find_inconsistencies (markets : list (ParsedMarket F))
    : result (list (DeltaOpportunity F)) :=
  let reach_markets :=
    sort_by_threshold
      (List.filter (fun m => has_threshold m
                        && str_in (direction m) ["above"; "reach"])
              markets) in
  let! reach := adjacent_loop reach_pair reach_markets in
  let dip_markets :=
    sort_by_threshold
      (List.filter (fun m => has_threshold m
                        && String.eqb (direction m) "below")
              markets) in
  let! dip := adjacent_loop dip_pair dip_markets in
  let all_threshold := List.filter has_threshold markets in
  let! spread := spread_loop all_threshold in
  Ok (reach ++ dip ++ spread)%list.
End Scanner.

Section Scan.
Context {F : Type} `{PyFloat F}.

Local Open Scope py_scope.

(** [for topic, markets_in_group in groups.items():
       opportunities.extend(self._find_inconsistencies(topic, ...))] *)
Fixpoint scan_groups (groups : dict (list (ParsedMarket F)))
    : result (list (DeltaOpportunity F)) :=
  match groups with
  | [] => Ok []
  | (topic_name, markets_in_group) :: rest =>
      let! opps := _find_inconsistencies topic_name markets_in_group in
      let! more := scan_groups rest in
      Ok (opps ++ more)%list
  end.

(** The parsing loop of [scan]. *)
Fixpoint parse_all (markets : list (DecodedMarket F))
    : list (ParsedMarket F) :=
  match markets with
  | [] => []
  | m :: rest =>
      match _parse_market m with
      | Some parsed_market => parsed_market :: parse_all rest
      | None => parse_all rest
      end
  end.

(** [DeltaScanner.scan] on the decoded response. *)
Definition scan (markets : list (DecodedMarket F))
    : result (list (DeltaOpportunity F)) :=
  let parsed := parse_all markets in
  let groups := _group_by_topic parsed in
  let! opportunities := scan_groups groups in
  Ok (sort_by_reverse profit_potential opportunities).
End Scan.

(** The records of each rule, told apart by the confidence the rule
    fixes: 90 for a reach violation, 60 for a near-miss advisory. *)
Definition reach_violations {F : Type} (opps : list (DeltaOpportunity F))
    : list (DeltaOpportunity F) :=
  List.filter (fun o => (confidence o =? 90)%nat) opps.

Definition near_misses {F : Type} (opps : list (DeltaOpportunity F))
    : list (DeltaOpportunity F) :=
  List.filter (fun o => (confidence o =? 60)%nat) opps.

End DeltaScanner.

(** ** The specification's similarity score *)

(** Following the specification's words: the Jaccard index of the two
    keyword sets (0 when both are empty), plus 0.2 when a shared keyword is
    a named entity, plus 0.15 when a shared keyword is a year of 2024..2028,
    capped at 1. *)
Definition jaccard (kw1 kw2 : gset string) : Q :=
  (inject_Z (Z.of_nat (size (kw1 ∩ kw2)))
   / inject_Z (Z.of_nat (size (kw1 ∪ kw2))))%Q.

Definition spec_similarity (kw1 kw2 : gset string) : Q :=
  Qmin 1
    (jaccard kw1 kw2
     + (if decide (kw1 ∩ kw2 ∩ EventMatcher.ENTITIES = ∅) then 0 else 2 # 10)
     + (if decide (kw1 ∩ kw2 ∩ EventMatcher.YEARS = ∅) then 0 else 15 # 100))%Q.

(** [abs(x - y) < tol] *)
Definition fclose {F : Type} `{PyFloat F} (x y tol : F) : bool :=
  flt (fabs (fsub x y)) tol.

(** ** Notions used in the statements *)

(** Lists in ascending and in descending order of a key. *)
Definition ascending {A : Type} (key : A -> Q) : list A -> Prop :=
  StronglySorted (fun a b => (key a <= key b)%Q).

Definition descending {A : Type} (key : A -> Q) : list A -> Prop :=
  StronglySorted (fun a b => (key b <= key a)%Q).

(** The loop shared by [match_markets] and [_group_by_topic]: append each
    item to the list stored under its key. *)
Definition group_loop {A : Type} (key : A -> string) (ms : list A)
    (acc : dict (list A)) : dict (list A) :=
  fold_left
    (fun d m =>
       match dict_get d (key m) with
       | Some l => dict_set d (key m) (l ++ [m])%list
       | None => dict_set d (key m) [m]
       end)
    ms acc.

(** What [match_markets] establishes for an event it builds around the
    market [main] of the first platform. *)
Definition matched_from {F : Type} `{PyFloat F} (thr : F)
    (ms : list (Base.PlatformMarket F)) (main : Base.PlatformMarket F)
    (ev : EventMatcher.MatchedEvent F) : Prop :=
  hd_error (EventMatcher.markets ev) = Some (Base.platform main, main) /\
  EventMatcher.keywords ev = EventMatcher._extract_keywords (Base.question main) /\
  EventMatcher.nonempty (EventMatcher.keywords ev) = true /\
  EventMatcher.needs_verification ev = true /\
  NoDup (dict_keys (EventMatcher.markets ev)) /\
  (1 < EventMatcher.num_platforms ev)%nat /\
  forall p m, In (p, m) (EventMatcher.markets ev) ->
    Base.platform m = p /\ In m ms /\
    (m = main \/
     exists s,
       EventMatcher._calculate_similarity main m (Some (EventMatcher.keywords ev))
         = Ok s /\
       fle thr s = true).

(** No market of [e1] has the key of a market of [e2]. *)
Definition disjoint_events {F : Type} `{PyFloat F}
    (e1 e2 : EventMatcher.MatchedEvent F) : Prop :=
  forall p1 m1 p2 m2,
    In (p1, m1) (EventMatcher.markets e1) ->
    In (p2, m2) (EventMatcher.markets e2) ->
    EventMatcher.market_key m1 <> EventMatcher.market_key m2.

(** [clean] is the word [w] without its leading and its trailing
    punctuation (the characters of [strip_chars]): what the call
    [w.strip(...)] of [_extract_topic] returns. *)
Definition stripped_of (w clean : string) : Prop :=
  exists lead trail,
    list_ascii_of_string w
    = (lead ++ list_ascii_of_string clean ++ trail)%list /\
    List.Forall (fun c => In c DeltaScanner.strip_chars) lead /\
    List.Forall (fun c => In c DeltaScanner.strip_chars) trail /\
    (forall c r, list_ascii_of_string clean = c :: r ->
       ~ In c DeltaScanner.strip_chars) /\
    (forall c r, list_ascii_of_string clean = (r ++ [c])%list ->
       ~ In c DeltaScanner.strip_chars).

(** The words [_extract_topic] falls back on: the first character is a
    capital letter, there are more than two characters, and the lower-case
    form is not a skip word. *)
Definition capitalised_topic_word (clean : string) : Prop :=
  (exists c rest,
     clean = String c rest /\ (65 <= nat_of_ascii c <= 90)%nat) /\
  (2 < String.length clean)%nat /\
  ~ In (lower clean) DeltaScanner.skip_words.

(** The optional part [(?:\.\d+)?] of an amount: nothing, or a point and
    the digits [frac]. *)
Definition fraction_text (frac : list ascii) : list ascii :=
  match frac with
  | [] => []
  | _ => "."%char :: frac
  end.

(** The number an amount denotes: its digits, the commas of the whole
    part dropped, over the power of ten of the fractional digits. *)
Definition amount_value (whole frac : list ascii) : Q :=
  (inject_Z
     (DeltaScanner.digits_value
        (List.filter (fun c => negb (Ascii.eqb c ","%char)) whole ++ frac))
   / inject_Z (10 ^ Z.of_nat (length frac)))%Q.

(** [\s*[kK]]: optional whitespace, then one of the letters. *)
Definition followed_by (letters rest : list ascii) : Prop :=
  exists ws c after,
    rest = (ws ++ c :: after)%list /\
    List.Forall (fun c => DeltaScanner.is_space c = true) ws /\ In c letters.

(** One of the three patterns of [_extract_threshold] matches the text
    [cs] that follows a dollar sign: optional whitespace, then the amount,
    a non-empty run [whole] of digits and commas and the fractional digits
    [frac] if any, read to its full length ([rest], what follows, does not
    continue it), then the suffix letter when the pattern has one. *)
Definition amount_here (letters : option (list ascii))
    (cs whole frac rest : list ascii) : Prop :=
  (exists ws,
     cs = (ws ++ whole ++ fraction_text frac ++ rest)%list /\
     List.Forall (fun c => DeltaScanner.is_space c = true) ws) /\
  whole <> [] /\
  List.Forall (fun c => DeltaScanner.is_amount_char c = true) whole /\
  List.Forall (fun c => DeltaScanner.is_digit c = true) frac /\
  match frac with
  | [] =>
      forall c r, rest = c :: r ->
        DeltaScanner.is_amount_char c = false /\
        (c = "."%char ->
         forall d r', r = d :: r' -> DeltaScanner.is_digit d = false)
  | _ => forall c r, rest = c :: r -> DeltaScanner.is_digit c = false
  end /\
  match letters with
  | Some ls => followed_by ls rest
  | None => True
  end.

(** The amount [re.search] reads in the text [q] for such a pattern: the
    one at the first dollar sign where the pattern matches. *)
Definition reads_amount (letters : option (list ascii))
    (q whole frac rest : list ascii) : Prop :=
  exists before cs,
    q = (before ++ "$"%char :: cs)%list /\
    amount_here letters cs whole frac rest /\
    forall b1 b2 whole' frac' rest',
      before = (b1 ++ "$"%char :: b2)%list ->
      ~ amount_here letters (b2 ++ "$"%char :: cs) whole' frac' rest'.

(** * Example inputs *)

Definition binary_market {F : Type} `{PyFloat F} (p_yes p_no : Q)
    : PolymarketClient.Market F :=
  {| PolymarketClient.id := "1";
     PolymarketClient.question := "Will it happen?";
     PolymarketClient.slug := "will-it-happen";
     PolymarketClient.active := true;
     PolymarketClient.closed := false;
     PolymarketClient.outcomes := ["Yes"; "No"];
     PolymarketClient.outcome_prices := [lit p_yes; lit p_no];
     PolymarketClient.volume := lit 10000;
     PolymarketClient.liquidity := lit 0;
     PolymarketClient.end_date := None |}.

Definition three_way_market {F : Type} `{PyFloat F} (p1 p2 p3 : Q)
    : PolymarketClient.Market F :=
  {| PolymarketClient.id := "3";
     PolymarketClient.question := "Who will win?";
     PolymarketClient.slug := "who-will-win";
     PolymarketClient.active := true;
     PolymarketClient.closed := false;
     PolymarketClient.outcomes := ["Alice"; "Bob"; "Carol"];
     PolymarketClient.outcome_prices := [lit p1; lit p2; lit p3];
     PolymarketClient.volume := lit 10000;
     PolymarketClient.liquidity := lit 0;
     PolymarketClient.end_date := None |}.

Definition yes_no_market {F : Type} `{PyFloat F}
    (platform market_id : string) (p_yes p_no : F) : Base.PlatformMarket F :=
  {| Base.platform := platform;
     Base.market_id := market_id;
     Base.question := "Will it happen?";
     Base.outcomes :=
       [ {| Base.name := "Yes"; Base.price := p_yes; Base.token_id := None |};
         {| Base.name := "No"; Base.price := p_no; Base.token_id := None |} ];
     Base.category := Base.OTHER;
     Base.volume := lit 10000;
     Base.liquidity := lit 0;
     Base.active := true;
     Base.resolved := false |}.

Definition two_platform_event {F : Type} `{PyFloat F}
    (a_yes a_no b_yes b_no : F) : EventMatcher.MatchedEvent F :=
  {| EventMatcher.name := "Will it happen?";
     EventMatcher.category := Base.OTHER;
     EventMatcher.markets :=
       [ ("polymarket", yes_no_market "polymarket" "1" a_yes a_no);
         ("kalshi", yes_no_market "kalshi" "2" b_yes b_no) ];
     EventMatcher.confidence := lit 1;
     EventMatcher.keywords := ∅;
     EventMatcher.needs_verification := true |}.

Definition question_market {F : Type} `{PyFloat F}
    (platform market_id question : string) : Base.PlatformMarket F :=
  {| Base.platform := platform;
     Base.market_id := market_id;
     Base.question := question;
     Base.outcomes := [];
     Base.category := Base.OTHER;
     Base.volume := lit 0;
     Base.liquidity := lit 0;
     Base.active := true;
     Base.resolved := false |}.

Definition threshold_market {F : Type} `{PyFloat F}
    (threshold p_yes p_no volume : Q) (direction : string)
    : DeltaScanner.Parsed.ParsedMarket F :=
  {| DeltaScanner.Parsed.id := "1";
     DeltaScanner.Parsed.question := "Will BTC reach the threshold?";
     DeltaScanner.Parsed.yes_price := lit p_yes;
     DeltaScanner.Parsed.no_price := lit p_no;
     DeltaScanner.Parsed.volume := lit volume;
     DeltaScanner.Parsed.url := "https://polymarket.com/event/1";
     DeltaScanner.Parsed.threshold := Some (lit threshold);
     DeltaScanner.Parsed.topic := "BTC";
     DeltaScanner.Parsed.direction := direction |}.

(** 2^-1022, the smallest positive normal double (about 2.2e-308). *)
Definition tiny : float := 0x1p-1022%float.

Definition tiny_threshold_market : DeltaScanner.Parsed.ParsedMarket float :=
  {| DeltaScanner.Parsed.id := "1";
     DeltaScanner.Parsed.question := "Will BTC reach the threshold?";
     DeltaScanner.Parsed.yes_price := tiny;
     DeltaScanner.Parsed.no_price := tiny;
     DeltaScanner.Parsed.volume := 6000%float;
     DeltaScanner.Parsed.url := "https://polymarket.com/event/1";
     DeltaScanner.Parsed.threshold := Some 100000%float;
     DeltaScanner.Parsed.topic := "BTC";
     DeltaScanner.Parsed.direction := "reach" |}.

(** * Properties *)

(** ** Exact arithmetic *)

Local Open Scope Q_scope.

Lemma Q_fdiv_ok (x y : Q) : ~ y == 0 -> fdiv x y = Ok (x / y).
Proof.
intros Hy. unfold fdiv; simpl.
destruct (Qeq_bool y 0) eqn:E; [|reflexivity].
apply Qeq_bool_iff in E. contradiction.
Qed.

Lemma Q_fdiv_zero (x y : Q) : y == 0 -> fdiv x y = Raise ZeroDivisionError.
Proof.
intros Hy. unfold fdiv; simpl.
apply Qeq_bool_iff in Hy. now rewrite Hy.
Qed.

Lemma Q_fle_true (x y : Q) : fle x y = true <-> x <= y.
Proof. simpl. apply Qle_bool_iff. Qed.

Lemma Q_fle_false (x y : Q) : fle x y = false <-> y < x.
Proof.
simpl. split; intros Hxy.
- apply Qnot_le_lt. intros Hle. apply Qle_bool_iff in Hle. congruence.
- destruct (Qle_bool x y) eqn:E; [|reflexivity].
  apply Qle_bool_iff in E. exfalso. apply (Qlt_not_le _ _ Hxy E).
Qed.

Lemma Q_flt_true (x y : Q) : flt x y = true <-> x < y.
Proof.
simpl. rewrite negb_true_iff. apply (Q_fle_false y x).
Qed.

Lemma Q_flt_false (x y : Q) : flt x y = false <-> y <= x.
Proof.
simpl. rewrite negb_false_iff. apply Qle_bool_iff.
Qed.

(** Unfold the interface at the exact instance, and settle comparisons
    from the context. *)
Ltac qsimp := cbn [lit fquot fadd fsub fmul fabs Q_float] in *.

Ltac flt_decide tac :=
  repeat match goal with
  | |- context [@flt Q _ ?a ?b] =>
      first [ rewrite (proj2 (Q_flt_true a b)) by tac
            | rewrite (proj2 (Q_flt_false a b)) by tac ]
  end.

Lemma Q_pymin (x c : Q) : pymin x c == Qmin c x.
Proof.
unfold pymin. destruct (flt c x) eqn:E.
- apply Q_flt_true in E. symmetry. apply Q.min_l. now apply Qlt_le_weak.
- apply Q_flt_false in E. symmetry. now apply Q.min_r.
Qed.

Lemma Q_pymax (x c : Q) : pymax x c == Qmax x c.
Proof.
unfold pymax. destruct (flt x c) eqn:E.
- apply Q_flt_true in E. symmetry. apply Q.max_r. now apply Qlt_le_weak.
- apply Q_flt_false in E. symmetry. now apply Q.max_l.
Qed.

(** ** Intra-platform detector *)

Section ArbitrageScannerFacts.
Import PolymarketClient ArbitrageScanner.

Lemma Q_pysum_pair (p q : Q) : pysum [p; q] == p + q.
Proof. unfold pysum; simpl. ring. Qed.

(** What the scan loop does with a single market. *)
Lemma scan_markets_single {F : Type} `{PyFloat F} (cfg : Config F) (m : Market F)
    (o : option (ArbitrageOpportunity F)) :
  _analyze_market cfg m = Ok o ->
  scan_markets cfg [m]
  = Ok match o with
       | Some opp => if is_profitable cfg opp then [opp] else []
       | None => []
       end.
Proof. intros Ho. cbn [scan_markets]. now rewrite Ho. Qed.

(** The test on the total cost comes before every division. *)
Lemma analyze_market_rejects {F : Type} `{PyFloat F} (cfg : Config F) (m : Market F) :
  fle (lit 1) (pysum (outcome_prices m)) = true ->
  _analyze_market cfg m = Ok None.
Proof.
intros Hsum. unfold _analyze_market.
destruct (closed m || negb (active m)); [reflexivity|].
destruct (length (outcome_prices m) <? 2)%nat; [reflexivity|].
now rewrite Hsum.
Qed.

(** C3. A market whose outcome prices sum (as the detector sums them) to
    at least 1.0 yields no opportunity, from [_analyze_market] and from the
    scan loop; this holds for either arithmetic and for any number of
    outcomes. *)
Theorem analyze_market_no_false_positive
    {F : Type} `{PyFloat F} (cfg : Config F) (m : Market F) :
  fle (lit 1) (pysum (outcome_prices m)) = true ->
  _analyze_market cfg m = Ok None /\ scan_markets cfg [m] = Ok [].
Proof.
intros Hsum. apply (analyze_market_rejects cfg) in Hsum.
split; [exact Hsum|]. now rewrite (scan_markets_single cfg m None).
Qed.

Lemma analyze_market_no_false_positive_witness :
  _analyze_market config (binary_market (60 # 100) (40 # 100) : Market float)
    = Ok None /\
  scan_markets config [binary_market (60 # 100) (40 # 100) : Market float] = Ok [].
Proof.
apply analyze_market_no_false_positive. vm_compute. reflexivity.
Defined.

(** The binary case in exact arithmetic, with the sum written out: prices
    with [p_yes + p_no >= 1] yield no opportunity. *)
Lemma analyze_market_binary_rejects
    (cfg : Config Q) (m : Market Q) (p_yes p_no : Q) :
  outcome_prices m = [p_yes; p_no] ->
  1 <= p_yes + p_no ->
  _analyze_market cfg m = Ok None.
Proof.
intros Hp Hsum. apply analyze_market_rejects.
rewrite Hp. apply Q_fle_true. rewrite Q_pysum_pair. exact Hsum.
Qed.

(** C1, as stated, fails on two markets.  The one priced (0, 0) is active,
    open and binary, its prices sum to 0 < 1, and [_analyze_market] raises
    ZeroDivisionError on it, in exact arithmetic and in binary64.  The one
    priced (0.50, 0.49) does get an opportunity from [_analyze_market], but
    its net profit is negative and the scan loop drops it. *)
Lemma analyze_market_zero_prices_raises :
  active (binary_market 0 0 : Market Q) = true /\
  closed (binary_market 0 0 : Market Q) = false /\
  outcome_prices (binary_market 0 0 : Market Q) = [0; 0] /\
  0 + 0 < 1 /\
  _analyze_market config (binary_market 0 0 : Market Q) = Raise ZeroDivisionError /\
  _analyze_market config (binary_market 0 0 : Market float) = Raise ZeroDivisionError /\
  (50 # 100) + (49 # 100) < 1 /\
  scan_markets config [binary_market (50 # 100) (49 # 100) : Market Q] = Ok [] /\
  scan_markets config [binary_market (50 # 100) (49 # 100) : Market float] = Ok [].
Proof.
repeat split; vm_compute; reflexivity.
Qed.

(** The binary case in either arithmetic, on the sum the detector
    computes. *)
Lemma analyze_market_binary_returns {F : Type} `{PyFloat F}
    (cfg : Config F) (m : Market F) (n_yes n_no : string) (p_yes p_no : F) :
  active m = true ->
  closed m = false ->
  outcomes m = [n_yes; n_no] ->
  outcome_prices m = [p_yes; p_no] ->
  n_yes <> n_no ->
  fle (lit 1) (pysum [p_yes; p_no]) = false ->
  fis0 (pysum [p_yes; p_no]) = false ->
  exists opp,
    _analyze_market cfg m = Ok (Some opp) /\
    total_cost opp = pysum [p_yes; p_no] /\
    optimal_allocation opp
    = [ (n_yes, fquot p_yes (pysum [p_yes; p_no]));
        (n_no, fquot p_no (pysum [p_yes; p_no])) ] /\
    scan_markets cfg [m]
    = Ok (if flt (MIN_PROFIT_THRESHOLD cfg) (net_profit_pct opp)
          then [opp] else []).
Proof.
intros Hact Hcl Hnames Hprices Hne Hgate Hnz.
assert (Hneb : String.eqb n_yes n_no = false) by now apply String.eqb_neq.
assert (Han : exists opp,
          _analyze_market cfg m = Ok (Some opp) /\
          total_cost opp = pysum [p_yes; p_no] /\
          optimal_allocation opp
          = [ (n_yes, fquot p_yes (pysum [p_yes; p_no]));
              (n_no, fquot p_no (pysum [p_yes; p_no])) ]).
{ unfold _analyze_market.
  rewrite Hact, Hcl, Hprices, Hnames. cbn [orb negb length Nat.ltb Nat.leb].
  rewrite Hgate. unfold fdiv. rewrite Hnz. cbn [rbind allocate nth_error].
  unfold fdiv. rewrite Hnz. cbn [rbind allocate dict_set].
  rewrite Hneb. eexists. split; [reflexivity|]. split; reflexivity. }
destruct Han as (opp & Hopp & Htot & Halloc).
exists opp. split; [exact Hopp|]. split; [exact Htot|]. split; [exact Halloc|].
now rewrite (scan_markets_single cfg m (Some opp)).
Qed.

(** The binary case in exact arithmetic, with the sums written out. *)
Lemma Q_analyze_market_binary
    (cfg : Config Q) (m : Market Q) (n_yes n_no : string) (p_yes p_no : Q) :
  active m = true ->
  closed m = false ->
  outcomes m = [n_yes; n_no] ->
  outcome_prices m = [p_yes; p_no] ->
  n_yes <> n_no ->
  0 < p_yes + p_no ->
  p_yes + p_no < 1 ->
  exists opp a_yes a_no,
    _analyze_market cfg m = Ok (Some opp) /\
    total_cost opp == p_yes + p_no /\
    dict_get (optimal_allocation opp) n_yes = Some a_yes /\
    dict_get (optimal_allocation opp) n_no = Some a_no /\
    a_yes == p_yes / total_cost opp /\
    a_no == p_no / total_cost opp /\
    a_yes + a_no == 1 /\
    scan_markets cfg [m]
    = Ok (if flt (MIN_PROFIT_THRESHOLD cfg) (net_profit_pct opp)
          then [opp] else []).
Proof.
intros Hact Hcl Hnames Hprices Hne Hpos Hlt.
assert (Ht : pysum [p_yes; p_no] == p_yes + p_no) by apply Q_pysum_pair.
assert (Hnz : ~ pysum [p_yes; p_no] == 0).
{ rewrite Ht. intros E. rewrite E in Hpos. now apply Qlt_irrefl in Hpos. }
assert (Hgate : fle (lit 1) (pysum [p_yes; p_no]) = false).
{ apply Q_fle_false. qsimp. now rewrite Ht. }
assert (Hz : fis0 (pysum [p_yes; p_no]) = false).
{ cbn [fis0 Q_float]. destruct (Qeq_bool _ 0) eqn:E; [|reflexivity].
  apply Qeq_bool_iff in E. contradiction. }
destruct (analyze_market_binary_returns cfg m n_yes n_no p_yes p_no
            Hact Hcl Hnames Hprices Hne Hgate Hz)
  as (opp & Hopp & Htot & Halloc & Hscan).
assert (Hneb : String.eqb n_yes n_no = false) by now apply String.eqb_neq.
exists opp, (p_yes / pysum [p_yes; p_no]), (p_no / pysum [p_yes; p_no]).
split; [exact Hopp|]. rewrite Halloc, Htot. cbn [dict_get].
rewrite !String.eqb_refl, Hneb.
split; [exact Ht|]. split; [reflexivity|]. split; [reflexivity|].
split; [reflexivity|]. split; [reflexivity|]. split; [|exact Hscan].
transitivity ((p_yes + p_no) / pysum [p_yes; p_no]); [field; exact Hnz|].
rewrite <- Ht. field. exact Hnz.
Qed.

(** C1, amended.  For an active, open market with two distinctly named
    outcomes priced [p_yes] and [p_no]:

    - in either arithmetic, when the sum the detector computes
      ([sum(outcome_prices)], rounded in binary64) is not zero and not
      [>= 1.0], [_analyze_market] returns an opportunity whose total cost is
      that sum and whose allocation maps each outcome to the quotient of
      its price by the total cost, as the arithmetic computes it; the scan
      loop keeps the opportunity exactly when its net profit exceeds the
      configured threshold;
    - in exact arithmetic, when [0 < p_yes + p_no < 1], the total cost
      equals [p_yes + p_no] and the two entries sum to 1;
    - in binary64 these equalities hold up to rounding only, and the test
      is made on the rounded sum: at the prices 0.01 and 0.04 the entries
      are 0.19999999999999998 and 0.7999999999999999, whose sum
      0.9999999999999999 is within 1e-9 of 1.0 and not equal to it; at the
      prices 0.5 and 0.49999999999999994 the real sum is below 1, the
      rounded sum is 1.0, and no opportunity is returned. *)
Theorem analyze_market_binary_arbitrage :
  (forall (F : Type) (HF : PyFloat F) (cfg : Config F) (m : Market F)
          (n_yes n_no : string) (p_yes p_no : F),
     active m = true ->
     closed m = false ->
     outcomes m = [n_yes; n_no] ->
     outcome_prices m = [p_yes; p_no] ->
     n_yes <> n_no ->
     fle (lit 1) (pysum [p_yes; p_no]) = false ->
     fis0 (pysum [p_yes; p_no]) = false ->
     exists opp,
       _analyze_market cfg m = Ok (Some opp) /\
       total_cost opp = pysum [p_yes; p_no] /\
       optimal_allocation opp
       = [ (n_yes, fquot p_yes (total_cost opp));
           (n_no, fquot p_no (total_cost opp)) ] /\
       scan_markets cfg [m]
       = Ok (if flt (MIN_PROFIT_THRESHOLD cfg) (net_profit_pct opp)
             then [opp] else [])) /\
  (forall (cfg : Config Q) (m : Market Q) (n_yes n_no : string)
          (p_yes p_no : Q),
     active m = true ->
     closed m = false ->
     outcomes m = [n_yes; n_no] ->
     outcome_prices m = [p_yes; p_no] ->
     n_yes <> n_no ->
     0 < p_yes + p_no ->
     p_yes + p_no < 1 ->
     exists opp a_yes a_no,
       _analyze_market cfg m = Ok (Some opp) /\
       total_cost opp == p_yes + p_no /\
       dict_get (optimal_allocation opp) n_yes = Some a_yes /\
       dict_get (optimal_allocation opp) n_no = Some a_no /\
       a_yes == p_yes / total_cost opp /\
       a_no == p_no / total_cost opp /\
       a_yes + a_no == 1 /\
       scan_markets cfg [m]
       = Ok (if flt (MIN_PROFIT_THRESHOLD cfg) (net_profit_pct opp)
             then [opp] else [])) /\
  (exists (opp : ArbitrageOpportunity float) (a_yes a_no : float),
     _analyze_market config (binary_market (1 # 100) (4 # 100) : Market float)
       = Ok (Some opp) /\
     dict_get (optimal_allocation opp) "Yes" = Some a_yes /\
     dict_get (optimal_allocation opp) "No" = Some a_no /\
     a_yes = fquot (lit (1 # 100)) (total_cost opp) /\
     a_no = fquot (lit (4 # 100)) (total_cost opp) /\
     a_yes = 0x1.9999999999999p-3%float /\
     a_no = 0x1.9999999999999p-1%float /\
     fadd a_yes a_no = 0x1.fffffffffffffp-1%float /\
     PrimFloat.eqb (fadd a_yes a_no) 1 = false /\
     fclose (fadd a_yes a_no) (lit 1) (lit (1 # 1000000000)) = true) /\
  (1 # 2) + (9007199254740991 # 18014398509481984) < 1 /\
  (lit (9007199254740991 # 18014398509481984) : float)
  = 0x1.fffffffffffffp-2%float /\
  pysum [lit (1 # 2); lit (9007199254740991 # 18014398509481984)] = 1%float /\
  _analyze_market config
    (binary_market (1 # 2) (9007199254740991 # 18014398509481984)
     : Market float)
  = Ok None.
Proof.
split.
{ intros F HF cfg m n_yes n_no p_yes p_no Hact Hcl Hnames Hprices Hne Hgate Hz.
  destruct (analyze_market_binary_returns cfg m n_yes n_no p_yes p_no
              Hact Hcl Hnames Hprices Hne Hgate Hz)
    as (opp & Hopp & Htot & Halloc & Hscan).
  exists opp. rewrite Htot. now repeat (split; [assumption|]). }
split; [exact Q_analyze_market_binary|].
split.
{ eexists. eexists. eexists.
  split; [vm_compute; reflexivity|].
  cbn [total_cost optimal_allocation].
  repeat (split; [vm_compute; reflexivity|]). vm_compute. reflexivity. }
split; [reflexivity|].
repeat (split; [vm_compute; reflexivity|]). vm_compute. reflexivity.
Qed.

Lemma analyze_market_binary_arbitrage_witness :
  (exists opp a_yes a_no,
     _analyze_market config (binary_market (40 # 100) (55 # 100) : Market Q)
       = Ok (Some opp) /\
     total_cost opp == (40 # 100) + (55 # 100) /\
     dict_get (optimal_allocation opp) "Yes" = Some a_yes /\
     dict_get (optimal_allocation opp) "No" = Some a_no /\
     a_yes == (40 # 100) / total_cost opp /\
     a_no == (55 # 100) / total_cost opp /\
     a_yes + a_no == 1 /\
     scan_markets config [binary_market (40 # 100) (55 # 100) : Market Q]
     = Ok (if flt (MIN_PROFIT_THRESHOLD config) (net_profit_pct opp)
           then [opp] else [])) /\
  (exists opp : ArbitrageOpportunity float,
     _analyze_market config (binary_market (40 # 100) (55 # 100) : Market float)
       = Ok (Some opp) /\
     total_cost opp = pysum [lit (40 # 100); lit (55 # 100)] /\
     optimal_allocation opp
     = [ ("Yes", fquot (lit (40 # 100)) (total_cost opp));
         ("No", fquot (lit (55 # 100)) (total_cost opp)) ] /\
     scan_markets config [binary_market (40 # 100) (55 # 100) : Market float]
     = Ok (if flt (MIN_PROFIT_THRESHOLD config) (net_profit_pct opp)
           then [opp] else [])).
Proof.
destruct analyze_market_binary_arbitrage as (Hany & Hexact & _).
split.
- apply (Hexact config (binary_market (40 # 100) (55 # 100))
           "Yes" "No" (40 # 100) (55 # 100));
    try reflexivity.
  discriminate.
- apply (Hany float _ config (binary_market (40 # 100) (55 # 100))
           "Yes" "No" (lit (40 # 100)) (lit (55 # 100)));
    try reflexivity.
  discriminate.
Defined.

(** C2. The market Yes = 0.40, No = 0.55 with the 2% fee: the detector
    returns total_cost = 0.95, gross_profit_pct = 100/19 (5.26...),
    net_profit_pct = 60/19 (3.15...), the fee percentage subtracted being
    0.02 * (1/total_cost) * 100 = 40/19 (2.105...), and the scan loop keeps
    the opportunity.  The same holds in binary64 within the stated
    tolerances. *)
Theorem analyze_market_end_to_end :
  (exists opp,
     _analyze_market config (binary_market (40 # 100) (55 # 100) : Market Q)
       = Ok (Some opp) /\
     scan_markets config [binary_market (40 # 100) (55 # 100) : Market Q]
       = Ok [opp] /\
     total_cost opp == 95 # 100 /\
     gross_profit_pct opp == 100 # 19 /\
     net_profit_pct opp == 60 # 19 /\
     gross_profit_pct opp - net_profit_pct opp
       == TRADING_FEE config * (1 / total_cost opp) * 100 /\
     Qabs (gross_profit_pct opp - (526 # 100)) < 1 # 100 /\
     Qabs (net_profit_pct opp - (316 # 100)) < 1 # 100 /\
     Qabs (gross_profit_pct opp - net_profit_pct opp - (2105 # 1000)) < 1 # 1000) /\
  (exists opp,
     _analyze_market config (binary_market (40 # 100) (55 # 100) : Market float)
       = Ok (Some opp) /\
     scan_markets config [binary_market (40 # 100) (55 # 100) : Market float]
       = Ok [opp] /\
     fclose (total_cost opp) (lit (95 # 100)) (lit (1 # 1000000000)) = true /\
     fclose (gross_profit_pct opp) (lit (526 # 100)) (lit (1 # 100)) = true /\
     fclose (net_profit_pct opp) (lit (316 # 100)) (lit (1 # 100)) = true /\
     fclose (fsub (gross_profit_pct opp) (net_profit_pct opp))
            (fmul (fmul (TRADING_FEE config) (fquot (lit 1) (total_cost opp)))
                  (lit 100))
            (lit (1 # 1000000000)) = true /\
     fclose (fsub (gross_profit_pct opp) (net_profit_pct opp))
            (lit (2105 # 1000)) (lit (1 # 1000)) = true).
Proof.
split.
- eexists. split; [vm_compute; reflexivity|].
  cbn [total_cost gross_profit_pct net_profit_pct].
  repeat split; vm_compute; reflexivity.
- eexists. split; [vm_compute; reflexivity|].
  cbn [total_cost gross_profit_pct net_profit_pct].
  repeat split; vm_compute; reflexivity.
Qed.
End ArbitrageScannerFacts.

(** ** Cross-platform detector *)

Section CrossPlatformFacts.
Import Base EventMatcher CrossPlatformScanner.

Lemma dict_set_In {V : Type} (d : dict V) (k0 : string) (v0 : V) (k : string) (v : V) :
  In (k, v) (dict_set d k0 v0) -> (k0 = k /\ v = v0) \/ In (k, v) d.
Proof.
induction d as [|[k' v'] r IH]; simpl.
- intros [E|[]]. inversion E. now left.
- destruct (String.eqb k' k0) eqn:E; simpl.
  + apply String.eqb_eq in E. subst k'.
    intros [E'|Hin]; [inversion E'; now left | right; now right].
  + intros [E'|Hin]; [right; now left|].
    destruct (IH Hin) as [Hl|Hr]; [now left | right; now right].
Qed.

(** Every collected quote is a usable quote of a market of the event. *)
Lemma collect_prices_In {F : Type} `{PyFloat F}
    (side : PlatformMarket F -> option F) (items : dict (PlatformMarket F))
    (k : string) (v : F) :
  In (k, v) (collect_prices side items) ->
  exists m, In (k, m) items /\ side m = Some v /\ usable v = true.
Proof.
unfold collect_prices.
assert (Hgen : forall acc,
  In (k, v) (fold_left
    (fun acc item =>
       match side (snd item) with
       | Some x => if usable x then dict_set acc (fst item) x else acc
       | None => acc
       end) items acc) ->
  In (k, v) acc \/
  exists m, In (k, m) items /\ side m = Some v /\ usable v = true).
{ induction items as [|[k0 m0] r IH]; simpl; intros acc Hin; [now left|].
  destruct (IH _ Hin) as [Hacc|[m [Hm Hs]]].
  - destruct (side m0) as [x|] eqn:Es; simpl in Hacc.
    + destruct (usable x) eqn:Eu; [|now left].
      destruct (dict_set_In _ _ _ _ _ Hacc) as [[-> ->]|Hold]; [|now left].
      right. exists m0. repeat split; [now left|exact Es|exact Eu].
    + now left.
  - right. exists m. split; [now right|exact Hs]. }
intros Hin. destruct (Hgen [] Hin) as [[]|Hex]. exact Hex.
Qed.

Lemma min_item_In {F : Type} `{PyFloat F} (d : dict F) (x : string * F) :
  min_item d = Some x -> In x d.
Proof.
destruct d as [|x0 r]; unfold min_item; [discriminate|].
intros E. injection E as <-.
assert (Hgen : forall best,
  fold_left (fun best y => if flt (snd y) (snd best) then y else best) r best = best
  \/ In (fold_left (fun best y => if flt (snd y) (snd best) then y else best) r best) r).
{ induction r as [|y r IH]; simpl; intros best; [now left|].
  destruct (IH (if flt (snd y) (snd best) then y else best)) as [E|Hin].
  - rewrite E. destruct (flt (snd y) (snd best)); [right; now left|now left].
  - right. now right. }
destruct (Hgen x0) as [E|Hin]; [left; now rewrite E|now right].
Qed.




Lemma Q_usable_pos (v : Q) : usable v = true -> 0 < v.
Proof.
unfold usable. intros Hu. apply andb_true_iff in Hu as [_ Hpos].
now apply Q_flt_true in Hpos.
Qed.


End CrossPlatformFacts.

(** ** Event matcher *)

Section EventMatcherFacts.
Import Base EventMatcher.

Lemma nonempty_false (s : gset string) : nonempty s = false <-> s = ∅.
Proof.
unfold nonempty. rewrite negb_false_iff, Nat.eqb_eq.
split; [intros Hs; apply leibniz_equiv; now apply size_empty_inv
       |intros ->; apply size_empty].
Qed.

Lemma nonempty_true (s : gset string) : nonempty s = true <-> s <> ∅.
Proof.
rewrite <- nonempty_false. destruct (nonempty s); split; congruence.
Qed.

(** Keyword sets with nothing in common score 0, in either arithmetic. *)
Lemma similarity_of_disjoint {F : Type} `{PyFloat F} (kw1 kw2 : gset string) :
  kw1 ∩ kw2 = ∅ -> similarity_of kw1 kw2 = Ok (lit 0).
Proof.
intros Hd. unfold similarity_of.
destruct (negb (nonempty kw1) || negb (nonempty kw2)); [reflexivity|].
apply nonempty_false in Hd. now rewrite Hd.
Qed.

Lemma Q_len_nonzero (s : gset string) : s <> ∅ -> ~ len s == 0.
Proof.
intros Hs. unfold len; simpl. intros E.
apply Hs, leibniz_equiv, size_empty_inv.
unfold Qeq in E; simpl in E. lia.
Qed.


(** The score the matcher computes is the specification's. *)
Lemma similarity_of_spec (kw1 kw2 : gset string) :
  exists s, similarity_of kw1 kw2 = Ok s /\ s == spec_similarity kw1 kw2.
Proof.
unfold spec_similarity, jaccard.
destruct (decide (kw1 ∩ kw2 = ∅)) as [Hd|Hc].
- exists (lit 0). split; [now apply similarity_of_disjoint|]. simpl lit.
  rewrite !decide_True by (rewrite Hd; set_solver).
  rewrite Hd, size_empty. symmetry.
  rewrite Q.min_r; unfold Qdiv; [simpl; ring|].
  simpl. rewrite !Qmult_0_l. discriminate.
- assert (H1 : kw1 <> ∅) by (intros E; apply Hc; rewrite E; apply intersection_empty_l_L).
  assert (H2 : kw2 <> ∅) by (intros E; apply Hc; rewrite E; apply intersection_empty_r_L).
  assert (Hu : kw1 ∪ kw2 <> ∅).
  { intros E. apply H1. apply empty_union_L in E. tauto. }
  unfold similarity_of.
  rewrite (proj2 (nonempty_true kw1) H1), (proj2 (nonempty_true kw2) H2).
  rewrite (proj2 (nonempty_true _) Hc). cbn [negb orb].
  rewrite Q_fdiv_ok by now apply Q_len_nonzero. cbn [rbind].
  eexists. split; [reflexivity|].
  rewrite Q_pymin. unfold len. simpl lit. simpl fadd.
  destruct (decide (kw1 ∩ kw2 ∩ ENTITIES = ∅)) as [He|He];
    [rewrite (proj2 (nonempty_false _) He)|rewrite (proj2 (nonempty_true _) He)];
    (destruct (decide (kw1 ∩ kw2 ∩ YEARS = ∅)) as [Hy|Hy];
     [rewrite (proj2 (nonempty_false _) Hy)|rewrite (proj2 (nonempty_true _) Hy)]);
    reflexivity.
Qed.

Lemma is_used_empty (k : string) : is_used ∅ k = false.
Proof.
unfold is_used. apply bool_decide_eq_false. apply not_elem_of_empty.
Qed.

Lemma calculate_similarity_given {F : Type} `{PyFloat F}
    (m1 m2 : PlatformMarket F) (kws : gset string) :
  nonempty kws = true ->
  _calculate_similarity m1 m2 (Some kws)
  = similarity_of kws (_extract_keywords (question m2)).
Proof. intros Hk. unfold _calculate_similarity. now rewrite Hk. Qed.

(** Two markets whose keyword sets are disjoint are never grouped,
    whatever the threshold (the initial best score 0 is not below the
    score 0). *)
Lemma match_markets_disjoint_pair {F : Type} `{PyFloat F}
    (thr : F) (m1 m2 : PlatformMarket F) :
  flt (lit 0) (lit 0) = false ->
  _extract_keywords (question m1) ∩ _extract_keywords (question m2) = ∅ ->
  match_markets thr [m1; m2] = Ok [].
Proof.
intros Hirr Hd. unfold match_markets, group_by_platform.
cbn [fold_left dict_get dict_set].
destruct (String.eqb (platform m1) (platform m2)) eqn:Ep.
- cbn [dict_keys map match_loop app]. rewrite is_used_empty.
  destruct (nonempty (_extract_keywords (question m1))); cbn [negb].
  + cbn [collect_matches rbind].
    destruct (is_used _ (market_key m2)); [reflexivity|].
    destruct (nonempty (_extract_keywords (question m2))); reflexivity.
  + rewrite is_used_empty.
    destruct (nonempty (_extract_keywords (question m2))); reflexivity.
- cbn [dict_set dict_keys map fst match_loop]. rewrite is_used_empty.
  destruct (nonempty (_extract_keywords (question m1))) eqn:Ek; cbn [negb];
    [|reflexivity].
  cbn [collect_matches dict_get]. rewrite Ep, String.eqb_refl.
  cbn [best_candidate]. rewrite is_used_empty.
  rewrite calculate_similarity_given by exact Ek.
  rewrite similarity_of_disjoint by exact Hd.
  cbn [rbind]. rewrite Hirr. reflexivity.
Qed.

(** In the candidate loop, a candidate is only ever selected with a
    positive score. *)
Lemma best_candidate_positive (thr : Q) (market : PlatformMarket Q)
    (kws used : gset string) (cands : list (PlatformMarket Q))
    (bm : option (PlatformMarket Q * Q)) (bs : Q) (c : PlatformMarket Q) (s : Q) :
  0 <= bs ->
  best_candidate thr market kws used cands bm bs = Ok (Some (c, s)) ->
  bm = Some (c, s) \/
  (In c cands /\ _calculate_similarity market c (Some kws) = Ok s /\ 0 < s).
Proof.
revert bm bs. induction cands as [|cand rest IH]; intros bm bs Hbs Hres.
- left. simpl in Hres. congruence.
- cbn [best_candidate] in Hres.
  destruct (is_used used (market_key cand)).
  { destruct (IH _ _ Hbs Hres) as [Hl|(Hin & Hr)]; [now left|right].
    split; [now right|exact Hr]. }
  destruct (_calculate_similarity market cand (Some kws)) as [score|e] eqn:Es;
    cbn [rbind] in Hres; [|discriminate].
  destruct (flt bs score && fle thr score) eqn:Ec.
  + apply andb_true_iff in Ec as [Elt _]. apply Q_flt_true in Elt.
    assert (Hpos : 0 < score) by (eapply Qle_lt_trans; eassumption).
    destruct (IH _ _ (Qlt_le_weak _ _ Hpos) Hres) as [Hl|(Hin & Hr)].
    * inversion Hl; subst. right. split; [now left|]. split; [exact Es|exact Hpos].
    * right. split; [now right|exact Hr].
  + destruct (IH _ _ Hbs Hres) as [Hl|(Hin & Hr)]; [now left|right].
    split; [now right|exact Hr].
Qed.

Lemma similarity_positive_shares (kw1 kw2 : gset string) (s : Q) :
  similarity_of kw1 kw2 = Ok s -> 0 < s -> kw1 ∩ kw2 <> ∅.
Proof.
intros Hs Hpos Hd.
rewrite (similarity_of_disjoint (F := Q)) in Hs by exact Hd.
inversion Hs; subst. simpl in Hpos. now apply Qlt_irrefl in Hpos.
Qed.

(** C9. The score the matcher computes is the Jaccard index of the two
    keyword sets, plus 0.2 when a shared keyword is a named entity, plus 0.15
    when a shared keyword is a year of 2024..2028, capped at 1 (the Jaccard
    index being read as 0 when both sets are empty).  Markets with keyword
    sets [{trump, 2024, election}] and [{trump, 2024, win}] score 0.85 and are
    matched at every threshold up to 0.85, so at the default 0.45 and at the
    cross-platform scanner's 0.5, in exact arithmetic and in binary64.
    Markets that share no keyword score 0, are never matched
    whatever the threshold and the question texts, and the candidate loop
    never selects a candidate that shares no keyword with the primary
    market. *)
Theorem matcher_similarity_and_matching :
  (forall kw1 kw2 : gset string,
     exists s, similarity_of kw1 kw2 = Ok s /\ s == spec_similarity kw1 kw2) /\
  (forall m1 m2 : PlatformMarket Q,
     exists s,
       _calculate_similarity m1 m2 None = Ok s /\
       s == spec_similarity (_extract_keywords (question m1))
                            (_extract_keywords (question m2))) /\
  _extract_keywords "Trump 2024 election" = {[ "trump"; "2024"; "election" ]} /\
  _extract_keywords "Trump win 2024" = {[ "trump"; "2024"; "win" ]} /\
  (exists s : Q,
     _calculate_similarity (question_market "polymarket" "1" "Trump 2024 election")
                           (question_market "kalshi" "2" "Trump win 2024") None
       = Ok s /\
     s == 85 # 100) /\
  (exists s : float,
     _calculate_similarity (question_market "polymarket" "1" "Trump 2024 election")
                           (question_market "kalshi" "2" "Trump win 2024") None
       = Ok s /\
     fclose s (lit (85 # 100)) (lit (1 # 1000000000)) = true) /\
  (forall thr : Q, thr <= 85 # 100 ->
     exists ev,
       match_markets thr
         [ question_market "polymarket" "1" "Trump 2024 election";
           question_market "kalshi" "2" "Trump win 2024" ] = Ok [ev] /\
       dict_keys (markets ev) = ["polymarket"; "kalshi"] /\
       confidence ev == 85 # 100) /\
  (exists ev : MatchedEvent float,
     match_markets (lit (45 # 100))
       [ question_market "polymarket" "1" "Trump 2024 election";
         question_market "kalshi" "2" "Trump win 2024" ] = Ok [ev] /\
     match_markets (lit (50 # 100))
       [ question_market "polymarket" "1" "Trump 2024 election";
         question_market "kalshi" "2" "Trump win 2024" ] = Ok [ev] /\
     dict_keys (markets ev) = ["polymarket"; "kalshi"]) /\
  (forall (thr : Q) (m1 m2 : PlatformMarket Q),
     _extract_keywords (question m1) ∩ _extract_keywords (question m2) = ∅ ->
     _calculate_similarity m1 m2 None = Ok 0 /\
     match_markets thr [m1; m2] = Ok []) /\
  (forall (thr : float) (m1 m2 : PlatformMarket float),
     _extract_keywords (question m1) ∩ _extract_keywords (question m2) = ∅ ->
     _calculate_similarity m1 m2 None = Ok 0%float /\
     match_markets thr [m1; m2] = Ok []) /\
  (forall (thr : Q) (market : PlatformMarket Q) (kws used : gset string)
          (cands : list (PlatformMarket Q)) (c : PlatformMarket Q) (s : Q),
     nonempty kws = true ->
     best_candidate thr market kws used cands None 0 = Ok (Some (c, s)) ->
     In c cands /\ kws ∩ _extract_keywords (question c) <> ∅).
Proof.
split; [exact similarity_of_spec|].
split; [intros m1 m2; apply similarity_of_spec|].
split; [vm_compute; reflexivity|].
split; [vm_compute; reflexivity|].
split; [eexists; split; vm_compute; reflexivity|].
split; [eexists; split; vm_compute; reflexivity|].
split.
{ intros thr Hthr.
  assert (Hgate : fle thr (85 # 100) = true) by now apply Q_fle_true.
  unfold match_markets, group_by_platform.
  cbn [fold_left dict_get dict_set question_market platform String.eqb Ascii.eqb
       Bool.eqb].
  cbn [dict_keys map fst match_loop]. rewrite is_used_empty.
  change (nonempty (_extract_keywords
            (question (question_market "polymarket" "1" "Trump 2024 election"))))
    with (nonempty (_extract_keywords "Trump 2024 election")).
  replace (nonempty (_extract_keywords "Trump 2024 election")) with true
    by (vm_compute; reflexivity).
  cbn [negb collect_matches dict_get String.eqb Ascii.eqb Bool.eqb best_candidate].
  rewrite is_used_empty.
  replace (_calculate_similarity _ _ _) with (Ok (3400 # 4000) : result Q)
    by (vm_compute; reflexivity).
  cbn [rbind].
  replace (flt (lit 0) (3400 # 4000)) with true by (vm_compute; reflexivity).
  assert (Hgate' : fle thr (3400 # 4000) = true).
  { apply Q_fle_true. apply Q_fle_true in Hgate.
    eapply Qle_trans; [exact Hgate|discriminate]. }
  rewrite Hgate'. cbn [andb rbind add_matches].
  replace (is_used _ _) with false by (vm_compute; reflexivity).
  cbn [num_platforms markets length dict_set platform String.eqb Ascii.eqb Bool.eqb
       Nat.ltb Nat.leb app].
  eexists. split; [reflexivity|]. split; [reflexivity|].
  vm_compute. reflexivity. }
split.
{ eexists. split; [vm_compute; reflexivity|].
  split; [vm_compute; reflexivity|reflexivity]. }
split.
{ intros thr m1 m2 Hd. split.
  - exact (similarity_of_disjoint (F := Q) _ _ Hd).
  - now apply match_markets_disjoint_pair. }
split.
{ intros thr m1 m2 Hd. split.
  - exact (similarity_of_disjoint (F := float) _ _ Hd).
  - now apply match_markets_disjoint_pair. }
intros thr market kws used cands c s Hk Hres.
destruct (best_candidate_positive _ _ _ _ _ _ _ _ _ (Qle_refl 0) Hres)
  as [Hl|(Hin & Hs & Hpos)]; [discriminate|].
split; [exact Hin|].
rewrite calculate_similarity_given in Hs by exact Hk.
eapply similarity_positive_shares; eassumption.
Qed.

Lemma matcher_similarity_and_matching_witness :
  _calculate_similarity (F := Q)
    (question_market "polymarket" "1" "Trump 2024 election")
    (question_market "kalshi" "2" "Will Bitcoin hit 100k?") None = Ok 0 /\
  match_markets (45 # 100)
    [ question_market "polymarket" "1" "Trump 2024 election";
      question_market "kalshi" "2" "Will Bitcoin hit 100k?" ] = Ok [].
Proof.
apply (proj1 (proj2 (proj2 (proj2 (proj2 (proj2 (proj2 (proj2 (proj2
         matcher_similarity_and_matching))))))))).
vm_compute. reflexivity.
Defined.
End EventMatcherFacts.

(** ** Delta detector *)

Section DeltaScannerFacts.
Import DeltaScanner.

(** C8 (failing inputs).  An active binary market priced (0, 0) makes the
    intra-platform detector, and with it the scan loop, raise
    ZeroDivisionError; a threshold market with yes_price = no_price = 0 and
    volume 6000 makes the delta detector raise it in the in-market rule.
    Both happen in binary64 and in exact arithmetic.  In binary64, moreover,
    a threshold market with both prices at 2^-1022 gets an in-market record
    whose profit is +inf. *)
Theorem detectors_raise_on_zero_prices :
  ArbitrageScanner._analyze_market config
    (binary_market 0 0 : PolymarketClient.Market float) = Raise ZeroDivisionError /\
  ArbitrageScanner.scan_markets config
    [binary_market 0 0 : PolymarketClient.Market float] = Raise ZeroDivisionError /\
  _find_inconsistencies "BTC"
    [threshold_market 100000 0 0 6000 "reach" : ParsedMarket float]
    = Raise ZeroDivisionError /\
  ArbitrageScanner._analyze_market config
    (binary_market 0 0 : PolymarketClient.Market Q) = Raise ZeroDivisionError /\
  _find_inconsistencies "BTC"
    [threshold_market 100000 0 0 6000 "reach" : ParsedMarket Q]
    = Raise ZeroDivisionError /\
  (exists opp,
     _find_inconsistencies "BTC" [tiny_threshold_market] = Ok [opp] /\
     PrimFloat.is_infinity (profit_potential opp) = true).
Proof.
repeat split; try (vm_compute; reflexivity).
eexists. split; vm_compute; reflexivity.
Qed.

Lemma Q_pymax_nonzero (x : Q) : ~ pymax x (1 # 100) == 0.
Proof.
unfold pymax. destruct (flt x (1 # 100)) eqn:E.
- intros E0. lra.
- apply Q_flt_false in E. intros E0. lra.
Qed.

(** What one adjacent reach pair contributes, once its lower threshold
    is non-zero. *)
Lemma reach_pair_eval (topic_name : string) (lower higher : ParsedMarket Q) :
  ~ thr lower == 0 ->
  reach_pair topic_name lower higher =
  Ok (if flt (thr higher / thr lower) (11 # 10) then []
      else if flt (yes_price lower) (yes_price higher)
              && flt (1 # 1000) (yes_price lower)
      then [ {| event_a := higher; event_b := lower; topic := topic_name;
                profit_potential :=
                  pymin ((yes_price higher - yes_price lower)
                         / pymax (yes_price lower) (1 # 100) * 100) 500;
                confidence := 90 |} ]
      else if flt (Qabs (yes_price higher - yes_price lower)) (2 # 100)
              && flt (5 # 100) (yes_price lower)
      then [ {| event_a := higher; event_b := lower; topic := topic_name;
                profit_potential := 5; confidence := 60 |} ]
      else []).
Proof.
intros Hnz. unfold reach_pair.
rewrite Q_fdiv_ok by exact Hnz. cbn [rbind]. qsimp.
destruct (flt (thr higher / thr lower) (11 # 10)); [reflexivity|].
destruct (flt (yes_price lower) (yes_price higher)
          && flt (1 # 1000) (yes_price lower)).
- rewrite Q_fdiv_ok by apply Q_pymax_nonzero. reflexivity.
- destruct (flt (Qabs (yes_price higher - yes_price lower)) (2 # 100)
            && flt (5 # 100) (yes_price lower)); reflexivity.
Qed.

Lemma reach_pair_skip (topic_name : string) (lower higher : ParsedMarket Q) :
  ~ thr lower == 0 ->
  thr higher / thr lower < 11 # 10 ->
  reach_pair topic_name lower higher = Ok [].
Proof.
intros Hnz Hr. rewrite reach_pair_eval by exact Hnz.
now flt_decide assumption.
Qed.

Lemma reach_pair_violation (topic_name : string) (lower higher : ParsedMarket Q) :
  ~ thr lower == 0 ->
  11 # 10 <= thr higher / thr lower ->
  yes_price lower < yes_price higher ->
  1 # 1000 < yes_price lower ->
  exists p,
    reach_pair topic_name lower higher
    = Ok [ {| event_a := higher; event_b := lower; topic := topic_name;
              profit_potential := p; confidence := 90 |} ] /\
    p == Qmin 500 ((yes_price higher - yes_price lower)
                   / Qmax (yes_price lower) (1 # 100) * 100).
Proof.
intros Hnz Hr Hv1 Hv2. rewrite reach_pair_eval by exact Hnz.
flt_decide assumption.
cbn [andb]. eexists. split; [reflexivity|].
rewrite Q_pymin. now rewrite Q_pymax.
Qed.

Lemma reach_pair_near_miss (topic_name : string) (lower higher : ParsedMarket Q) :
  ~ thr lower == 0 ->
  11 # 10 <= thr higher / thr lower ->
  ~ (yes_price lower < yes_price higher /\ 1 # 1000 < yes_price lower) ->
  Qabs (yes_price higher - yes_price lower) < 2 # 100 ->
  5 # 100 < yes_price lower ->
  reach_pair topic_name lower higher
  = Ok [ {| event_a := higher; event_b := lower; topic := topic_name;
            profit_potential := 5; confidence := 60 |} ].
Proof.
intros Hnz Hr Hnv Hn1 Hn2. rewrite reach_pair_eval by exact Hnz.
rewrite (proj2 (Q_flt_false _ _) Hr).
destruct (flt (yes_price lower) (yes_price higher)
          && flt (1 # 1000) (yes_price lower)) eqn:Ev.
- exfalso. apply Hnv. apply andb_true_iff in Ev as [E1 E2].
  split; now apply Q_flt_true.
- now flt_decide assumption.
Qed.

Lemma reach_pair_quiet (topic_name : string) (lower higher : ParsedMarket Q) :
  ~ thr lower == 0 ->
  ~ (yes_price lower < yes_price higher /\ 1 # 1000 < yes_price lower) ->
  ~ (Qabs (yes_price higher - yes_price lower) < 2 # 100
     /\ 5 # 100 < yes_price lower) ->
  reach_pair topic_name lower higher = Ok [].
Proof.
intros Hnz Hnv Hnn. rewrite reach_pair_eval by exact Hnz.
destruct (flt (thr higher / thr lower) (11 # 10)); [reflexivity|].
destruct (flt (yes_price lower) (yes_price higher)
          && flt (1 # 1000) (yes_price lower)) eqn:Ev.
- exfalso. apply Hnv. apply andb_true_iff in Ev as [E1 E2].
  split; now apply Q_flt_true.
- destruct (flt (Qabs (yes_price higher - yes_price lower)) (2 # 100)
            && flt (5 # 100) (yes_price lower)) eqn:En; [|reflexivity].
  exfalso. apply Hnn. apply andb_true_iff in En as [E1 E2].
  split; now apply Q_flt_true.
Qed.

(** One adjacent pair never yields more than one record. *)
Lemma reach_pair_at_most_one {F : Type} `{PyFloat F}
    (topic_name : string) (lower higher : ParsedMarket F)
    (opps : list (DeltaOpportunity F)) :
  reach_pair topic_name lower higher = Ok opps -> (length opps <= 1)%nat.
Proof.
unfold reach_pair.
destruct (fdiv (thr higher) (thr lower)) as [ratio|]; cbn [rbind]; [|discriminate].
destruct (flt ratio _); [intros E; inversion E; simpl; lia|].
destruct (_ && _).
- destruct (fdiv _ _); cbn [rbind]; [|discriminate].
  intros E; inversion E; simpl; lia.
- destruct (_ && _); intros E; inversion E; simpl; lia.
Qed.

Lemma reach_loop_at_most_one_per_pair {F : Type} `{PyFloat F}
    (topic_name : string) (ms : list (ParsedMarket F))
    (opps : list (DeltaOpportunity F)) :
  adjacent_loop (reach_pair topic_name) ms = Ok opps ->
  (length opps <= pred (length ms))%nat.
Proof.
revert opps. induction ms as [|lower rest IH]; intros opps.
- simpl. intros E; inversion E; simpl; lia.
- cbn [adjacent_loop]. destruct rest as [|higher rest'].
  + intros E; inversion E; simpl; lia.
  + destruct (reach_pair topic_name lower higher) as [here|] eqn:Eh;
      cbn [rbind]; [|discriminate].
    destruct (adjacent_loop (reach_pair topic_name) (higher :: rest')) as [more|] eqn:Em;
      cbn [rbind]; [|discriminate].
    intros E; inversion E; subst.
    apply reach_pair_at_most_one in Eh. specialize (IH _ eq_refl).
    rewrite length_app. simpl in *. lia.
Qed.

(** The detector's output is the records of the reach loop, then those of
    the dip loop, then those of the in-market loop, each loop run on its own
    selection of the group. *)
Lemma find_inconsistencies_three_loops {F : Type} `{PyFloat F}
    (topic_name : string) (ms : list (ParsedMarket F))
    (opps : list (DeltaOpportunity F)) :
  _find_inconsistencies topic_name ms = Ok opps ->
  exists reach dip spread,
    adjacent_loop (reach_pair topic_name)
      (sort_by_threshold
         (List.filter (fun m => has_threshold m
                                && str_in (direction m) ["above"; "reach"]) ms))
      = Ok reach /\
    adjacent_loop (dip_pair topic_name)
      (sort_by_threshold
         (List.filter (fun m => has_threshold m
                                && String.eqb (direction m) "below") ms))
      = Ok dip /\
    spread_loop topic_name (List.filter has_threshold ms) = Ok spread /\
    opps = (reach ++ dip ++ spread)%list.
Proof.
unfold _find_inconsistencies.
destruct (adjacent_loop (reach_pair topic_name) _) as [reach|]; cbn [rbind];
  [|discriminate].
destruct (adjacent_loop (dip_pair topic_name) _) as [dip|]; cbn [rbind];
  [|discriminate].
destruct (spread_loop topic_name _) as [spread|]; cbn [rbind]; [|discriminate].
intros E. inversion E. exists reach, dip, spread. repeat split.
Qed.

(** C6, as stated, fails: the pair with thresholds 100000 and 150000 and YES
    prices 0.10 and 0.11 satisfies the rule-1 condition and the near-miss
    condition, and the detector emits the confidence-90 violation alone, in
    exact arithmetic and in binary64. *)
Lemma reach_pair_both_conditions_one_record :
  11 # 10 <= 150000 / 100000 /\
  (10 # 100) < (11 # 100) /\
  1 # 1000 < 10 # 100 /\
  Qabs ((11 # 100) - (10 # 100)) < 2 # 100 /\
  5 # 100 < 10 # 100 /\
  (exists opp : DeltaOpportunity Q,
     _find_inconsistencies "BTC"
       [ threshold_market 100000 (10 # 100) (90 # 100) 2000 "reach";
         threshold_market 150000 (11 # 100) (89 # 100) 2000 "reach" ] = Ok [opp] /\
     confidence opp = 90%nat /\
     near_misses [opp] = []) /\
  (exists opp : DeltaOpportunity float,
     _find_inconsistencies "BTC"
       [ threshold_market 100000 (10 # 100) (90 # 100) 2000 "reach";
         threshold_market 150000 (11 # 100) (89 # 100) 2000 "reach" ] = Ok [opp] /\
     confidence opp = 90%nat /\
     near_misses [opp] = []).
Proof.
repeat split; try (vm_compute; reflexivity || discriminate);
  eexists; (split; [vm_compute; reflexivity|split; reflexivity]).
Qed.

(** The records of one adjacent pair are among those of the loop. *)
Lemma adjacent_loop_pair {F : Type} `{PyFloat F}
    (body : ParsedMarket F -> ParsedMarket F -> result (list (DeltaOpportunity F)))
    (l1 l2 : list (ParsedMarket F)) (lower higher : ParsedMarket F)
    (opps : list (DeltaOpportunity F)) :
  adjacent_loop body (l1 ++ lower :: higher :: l2) = Ok opps ->
  exists here,
    body lower higher = Ok here /\ forall o, In o here -> In o opps.
Proof.
revert opps. induction l1 as [|x l1 IH]; intros opps.
- cbn [app].
  change (adjacent_loop body (lower :: higher :: l2))
    with (rbind (body lower higher)
            (fun here => rbind (adjacent_loop body (higher :: l2))
                           (fun more => Ok (here ++ more)%list))).
  destruct (body lower higher) as [here|e]; cbn [rbind]; [|discriminate].
  destruct (adjacent_loop body (higher :: l2)) as [more|e]; cbn [rbind];
    [|discriminate].
  intros [= <-]. exists here. split; [reflexivity|].
  intros o Ho. apply in_app_iff. now left.
- cbn [app].
  destruct (l1 ++ lower :: higher :: l2)%list as [|y rest] eqn:El.
  { now destruct l1. }
  change (adjacent_loop body (x :: y :: rest))
    with (rbind (body x y)
            (fun here => rbind (adjacent_loop body (y :: rest))
                           (fun more => Ok (here ++ more)%list))).
  destruct (body x y) as [first|e]; cbn [rbind]; [|discriminate].
  destruct (adjacent_loop body (y :: rest)) as [more|e]; cbn [rbind];
    [|discriminate].
  intros [= <-]. destruct (IH more eq_refl) as (here & Hh & Hin).
  exists here. split; [exact Hh|].
  intros o Ho. apply in_app_iff. right. now apply Hin.
Qed.

Lemma spread_loop_member {F : Type} `{PyFloat F} (topic_name : string)
    (ms : list (ParsedMarket F)) (m : ParsedMarket F)
    (opps : list (DeltaOpportunity F)) :
  spread_loop topic_name ms = Ok opps -> In m ms ->
  exists here,
    spread_one topic_name m = Ok here /\ forall o, In o here -> In o opps.
Proof.
revert opps. induction ms as [|x ms IH]; intros opps; [intros _ []|].
cbn [spread_loop].
destruct (spread_one topic_name x) as [first|e] eqn:Ex; cbn [rbind];
  [|discriminate].
destruct (spread_loop topic_name ms) as [more|e]; cbn [rbind]; [|discriminate].
intros [= <-] [<-|Hm].
- exists first. split; [exact Ex|]. intros o Ho. apply in_app_iff. now left.
- destruct (IH more eq_refl Hm) as (here & Hh & Hin).
  exists here. split; [exact Hh|].
  intros o Ho. apply in_app_iff. right. now apply Hin.
Qed.

(** What the body of the reach loop returns, in either arithmetic, when
    it returns. *)
Lemma reach_pair_returns {F : Type} `{PyFloat F} (topic_name : string)
    (lower higher : ParsedMarket F) (here : list (DeltaOpportunity F)) :
  reach_pair topic_name lower higher = Ok here ->
  flt (fquot (thr higher) (thr lower)) (lit (11 # 10)) = false ->
  (flt (yes_price lower) (yes_price higher)
   && flt (lit (1 # 1000)) (yes_price lower) = true ->
   here = [ {| event_a := higher; event_b := lower; topic := topic_name;
               profit_potential :=
                 pymin (fmul (fquot (fsub (yes_price higher) (yes_price lower))
                                    (pymax (yes_price lower) (lit (1 # 100))))
                             (lit 100))
                       (lit 500);
               confidence := 90 |} ]) /\
  (flt (yes_price lower) (yes_price higher)
   && flt (lit (1 # 1000)) (yes_price lower) = false ->
   flt (fabs (fsub (yes_price higher) (yes_price lower))) (lit (2 # 100))
   && flt (lit (5 # 100)) (yes_price lower) = true ->
   here = [ {| event_a := higher; event_b := lower; topic := topic_name;
               profit_potential := lit 5; confidence := 60 |} ]).
Proof.
unfold reach_pair, fdiv.
destruct (fis0 (thr lower)); cbn [rbind]; [discriminate|].
intros Hhere Hratio. rewrite Hratio in Hhere.
split.
- intros Hv. rewrite Hv in Hhere.
  destruct (fis0 (pymax (yes_price lower) (lit (1 # 100)))); cbn [rbind] in Hhere;
    [discriminate|].
  now injection Hhere as <-.
- intros Hv Hn. rewrite Hv, Hn in Hhere. now injection Hhere as <-.
Qed.

Lemma dip_pair_returns {F : Type} `{PyFloat F} (topic_name : string)
    (lower higher : ParsedMarket F) (here : list (DeltaOpportunity F)) :
  dip_pair topic_name lower higher = Ok here ->
  flt (yes_price higher) (yes_price lower)
  && flt (lit (1 # 1000)) (yes_price higher) = true ->
  here = [ {| event_a := lower; event_b := higher; topic := topic_name;
              profit_potential :=
                pymin (fmul (fquot (fsub (yes_price lower) (yes_price higher))
                                   (pymax (yes_price higher) (lit (1 # 100))))
                            (lit 100))
                      (lit 500);
              confidence := 85 |} ].
Proof.
unfold dip_pair, fdiv. intros Hhere Hv. rewrite Hv in Hhere.
destruct (fis0 (pymax (yes_price higher) (lit (1 # 100)))); cbn [rbind] in Hhere;
  [discriminate|].
now injection Hhere as <-.
Qed.

Lemma spread_one_returns {F : Type} `{PyFloat F} (topic_name : string)
    (m : ParsedMarket F) (here : list (DeltaOpportunity F)) :
  spread_one topic_name m = Ok here ->
  flt (fadd (yes_price m) (no_price m)) (lit (95 # 100))
  && flt (lit 5000) (volume m) = true ->
  here = [ {| event_a := m; event_b := m; topic := topic_name;
              profit_potential :=
                fmul (fquot (fsub (lit 1) (fadd (yes_price m) (no_price m)))
                            (fadd (yes_price m) (no_price m)))
                     (lit 100);
              confidence := 95 |} ].
Proof.
unfold spread_one, fdiv. intros Hhere Hv. rewrite Hv in Hhere.
destruct (fis0 (fadd (yes_price m) (no_price m))); cbn [rbind] in Hhere;
  [discriminate|].
now injection Hhere as <-.
Qed.

(** Every rule is emitted when triggered, rule 2 when rule 1 is not, in
    either arithmetic. *)
Lemma find_inconsistencies_complete {F : Type} `{PyFloat F}
    (topic_name : string) (ms : list (ParsedMarket F))
    (opps : list (DeltaOpportunity F)) :
  _find_inconsistencies topic_name ms = Ok opps ->
  (forall l1 lower higher l2,
     sort_by_threshold
       (List.filter (fun m => has_threshold m
                              && str_in (direction m) ["above"; "reach"]) ms)
     = (l1 ++ lower :: higher :: l2)%list ->
     flt (fquot (thr higher) (thr lower)) (lit (11 # 10)) = false ->
     (flt (yes_price lower) (yes_price higher)
      && flt (lit (1 # 1000)) (yes_price lower) = true ->
      exists o,
        In o opps /\ reach_pair topic_name lower higher = Ok [o] /\
        o = {| event_a := higher; event_b := lower; topic := topic_name;
               profit_potential :=
                 pymin (fmul (fquot (fsub (yes_price higher) (yes_price lower))
                                    (pymax (yes_price lower) (lit (1 # 100))))
                             (lit 100))
                       (lit 500);
               confidence := 90 |}) /\
     (flt (yes_price lower) (yes_price higher)
      && flt (lit (1 # 1000)) (yes_price lower) = false ->
      flt (fabs (fsub (yes_price higher) (yes_price lower))) (lit (2 # 100))
      && flt (lit (5 # 100)) (yes_price lower) = true ->
      exists o,
        In o opps /\ reach_pair topic_name lower higher = Ok [o] /\
        o = {| event_a := higher; event_b := lower; topic := topic_name;
               profit_potential := lit 5; confidence := 60 |})) /\
  (forall l1 lower higher l2,
     sort_by_threshold
       (List.filter (fun m => has_threshold m
                              && String.eqb (direction m) "below") ms)
     = (l1 ++ lower :: higher :: l2)%list ->
     flt (yes_price higher) (yes_price lower)
     && flt (lit (1 # 1000)) (yes_price higher) = true ->
     exists o,
       In o opps /\
       o = {| event_a := lower; event_b := higher; topic := topic_name;
              profit_potential :=
                pymin (fmul (fquot (fsub (yes_price lower) (yes_price higher))
                                   (pymax (yes_price higher) (lit (1 # 100))))
                            (lit 100))
                      (lit 500);
              confidence := 85 |}) /\
  (forall m,
     In m ms -> has_threshold m = true ->
     flt (fadd (yes_price m) (no_price m)) (lit (95 # 100))
     && flt (lit 5000) (volume m) = true ->
     exists o,
       In o opps /\
       o = {| event_a := m; event_b := m; topic := topic_name;
              profit_potential :=
                fmul (fquot (fsub (lit 1) (fadd (yes_price m) (no_price m)))
                            (fadd (yes_price m) (no_price m)))
                     (lit 100);
              confidence := 95 |}).
Proof.
intros Hopps.
apply find_inconsistencies_three_loops in Hopps
  as (reach & dip & spread & Hreach & Hdip & Hspread & ->).
split; [|split].
- intros l1 lower higher l2 Hl Hratio. rewrite Hl in Hreach.
  apply adjacent_loop_pair in Hreach as (here & Hhere & Hin).
  destruct (reach_pair_returns _ _ _ _ Hhere Hratio) as [Hviol Hnear].
  split.
  + intros Hv. specialize (Hviol Hv). subst here.
    eexists. split; [|split; [exact Hhere|reflexivity]].
    apply in_app_iff. left. apply Hin. now left.
  + intros Hv Hn. specialize (Hnear Hv Hn). subst here.
    eexists. split; [|split; [exact Hhere|reflexivity]].
    apply in_app_iff. left. apply Hin. now left.
- intros l1 lower higher l2 Hl Hv. rewrite Hl in Hdip.
  apply adjacent_loop_pair in Hdip as (here & Hhere & Hin).
  apply (dip_pair_returns _ _ _ _ Hhere) in Hv. subst here.
  eexists. split; [|reflexivity].
  apply in_app_iff. right. apply in_app_iff. left. apply Hin. now left.
- intros m Hm Ht Hv.
  assert (Hf : In m (List.filter has_threshold ms)) by (apply filter_In; now split).
  destruct (spread_loop_member _ _ _ _ Hspread Hf) as (here & Hhere & Hin).
  apply (spread_one_returns _ _ _ Hhere) in Hv. subst here.
  eexists. split; [|reflexivity].
  apply in_app_iff. right. apply in_app_iff. right. apply Hin. now left.
Qed.

Lemma Q_dip_pair_violation (topic_name : string) (lower higher : ParsedMarket Q) :
  yes_price higher < yes_price lower ->
  1 # 1000 < yes_price higher ->
  exists p,
    dip_pair topic_name lower higher
    = Ok [ {| event_a := lower; event_b := higher; topic := topic_name;
              profit_potential := p; confidence := 85 |} ] /\
    p == Qmin 500 ((yes_price lower - yes_price higher)
                   / Qmax (yes_price higher) (1 # 100) * 100).
Proof.
intros Hv1 Hv2. unfold dip_pair. qsimp. flt_decide assumption. cbn [andb].
rewrite (Q_fdiv_ok _ _ (Q_pymax_nonzero (yes_price higher))). cbn [rbind].
eexists. split; [reflexivity|]. rewrite Q_pymin. now rewrite Q_pymax.
Qed.

Lemma Q_spread_one_gap (topic_name : string) (m : ParsedMarket Q) :
  yes_price m + no_price m < 95 # 100 ->
  5000 < volume m ->
  ~ yes_price m + no_price m == 0 ->
  spread_one topic_name m
  = Ok [ {| event_a := m; event_b := m; topic := topic_name;
            profit_potential :=
              (1 - (yes_price m + no_price m)) / (yes_price m + no_price m) * 100;
            confidence := 95 |} ].
Proof.
intros Hv1 Hv2 Hnz. unfold spread_one. qsimp. flt_decide assumption. cbn [andb].
now rewrite (Q_fdiv_ok _ _ Hnz).
Qed.

(** C6, amended.  Rules 1, 3 and 4 are each emitted whenever they are
    triggered, and rule 2 whenever it is triggered and rule 1 is not.
    Whenever the detector returns, in either arithmetic and with every
    condition evaluated as that arithmetic evaluates it:

    - for every adjacent pair of the sorted reach markets whose threshold
      ratio is not below 1.1, the output has the confidence-90 violation
      when higher YES > lower YES and lower YES > 0.001 (also when the
      near-miss condition holds too: the pair then yields the violation
      alone, rule 2 being the [elif] branch of rule 1), and it has the
      confidence-60 advisory with the flat profit 5 when that condition
      fails and [abs(higher YES - lower YES) < 0.02] and lower YES > 0.05;
    - for every adjacent pair of the sorted dip markets with lower YES >
      higher YES and higher YES > 0.001, the output has the confidence-85
      record;
    - for every threshold market with YES + NO < 0.95 and volume > 5000,
      the output has the confidence-95 record.

    In exact arithmetic the conditions are the inequalities between the
    real numbers, and the records carry the profits written out below; the
    reach loop yields at most one record per adjacent pair.  In binary64
    the conditions are those on the rounded values: for YES prices 0.12
    and 0.10 the difference computed is 0.01999999999999999, below 0.02,
    and the advisory is emitted, which exact arithmetic does not do. *)
Theorem delta_rules_emitted_when_triggered :
  (forall (F : Type) (HF : PyFloat F) (topic_name : string)
          (ms : list (ParsedMarket F)) (opps : list (DeltaOpportunity F)),
     _find_inconsistencies topic_name ms = Ok opps ->
     (forall l1 lower higher l2,
        sort_by_threshold
          (List.filter (fun m => has_threshold m
                                 && str_in (direction m) ["above"; "reach"]) ms)
        = (l1 ++ lower :: higher :: l2)%list ->
        flt (fquot (thr higher) (thr lower)) (lit (11 # 10)) = false ->
        (flt (yes_price lower) (yes_price higher)
         && flt (lit (1 # 1000)) (yes_price lower) = true ->
         exists o,
           In o opps /\ reach_pair topic_name lower higher = Ok [o] /\
           o = {| event_a := higher; event_b := lower; topic := topic_name;
                  profit_potential :=
                    pymin (fmul (fquot (fsub (yes_price higher) (yes_price lower))
                                       (pymax (yes_price lower) (lit (1 # 100))))
                                (lit 100))
                          (lit 500);
                  confidence := 90 |}) /\
        (flt (yes_price lower) (yes_price higher)
         && flt (lit (1 # 1000)) (yes_price lower) = false ->
         flt (fabs (fsub (yes_price higher) (yes_price lower))) (lit (2 # 100))
         && flt (lit (5 # 100)) (yes_price lower) = true ->
         exists o,
           In o opps /\ reach_pair topic_name lower higher = Ok [o] /\
           o = {| event_a := higher; event_b := lower; topic := topic_name;
                  profit_potential := lit 5; confidence := 60 |})) /\
     (forall l1 lower higher l2,
        sort_by_threshold
          (List.filter (fun m => has_threshold m
                                 && String.eqb (direction m) "below") ms)
        = (l1 ++ lower :: higher :: l2)%list ->
        flt (yes_price higher) (yes_price lower)
        && flt (lit (1 # 1000)) (yes_price higher) = true ->
        exists o,
          In o opps /\
          o = {| event_a := lower; event_b := higher; topic := topic_name;
                 profit_potential :=
                   pymin (fmul (fquot (fsub (yes_price lower) (yes_price higher))
                                      (pymax (yes_price higher) (lit (1 # 100))))
                               (lit 100))
                         (lit 500);
                 confidence := 85 |}) /\
     (forall m,
        In m ms -> has_threshold m = true ->
        flt (fadd (yes_price m) (no_price m)) (lit (95 # 100))
        && flt (lit 5000) (volume m) = true ->
        exists o,
          In o opps /\
          o = {| event_a := m; event_b := m; topic := topic_name;
                 profit_potential :=
                   fmul (fquot (fsub (lit 1) (fadd (yes_price m) (no_price m)))
                               (fadd (yes_price m) (no_price m)))
                        (lit 100);
                 confidence := 95 |})) /\
  (forall (topic_name : string) (lower higher : ParsedMarket Q),
     ~ thr lower == 0 ->
     (thr higher / thr lower < 11 # 10 ->
        reach_pair topic_name lower higher = Ok []) /\
     (11 # 10 <= thr higher / thr lower ->
        yes_price lower < yes_price higher /\ 1 # 1000 < yes_price lower ->
        exists p,
          reach_pair topic_name lower higher
          = Ok [ {| event_a := higher; event_b := lower; topic := topic_name;
                    profit_potential := p; confidence := 90 |} ] /\
          p == Qmin 500 ((yes_price higher - yes_price lower)
                         / Qmax (yes_price lower) (1 # 100) * 100)) /\
     (11 # 10 <= thr higher / thr lower ->
        ~ (yes_price lower < yes_price higher /\ 1 # 1000 < yes_price lower) ->
        Qabs (yes_price higher - yes_price lower) < 2 # 100
        /\ 5 # 100 < yes_price lower ->
        reach_pair topic_name lower higher
        = Ok [ {| event_a := higher; event_b := lower; topic := topic_name;
                  profit_potential := 5; confidence := 60 |} ]) /\
     (~ (yes_price lower < yes_price higher /\ 1 # 1000 < yes_price lower) ->
      ~ (Qabs (yes_price higher - yes_price lower) < 2 # 100
         /\ 5 # 100 < yes_price lower) ->
        reach_pair topic_name lower higher = Ok [])) /\
  (forall (topic_name : string) (lower higher : ParsedMarket Q),
     yes_price higher < yes_price lower ->
     1 # 1000 < yes_price higher ->
     exists p,
       dip_pair topic_name lower higher
       = Ok [ {| event_a := lower; event_b := higher; topic := topic_name;
                 profit_potential := p; confidence := 85 |} ] /\
       p == Qmin 500 ((yes_price lower - yes_price higher)
                      / Qmax (yes_price higher) (1 # 100) * 100)) /\
  (forall (topic_name : string) (m : ParsedMarket Q),
     yes_price m + no_price m < 95 # 100 ->
     5000 < volume m ->
     ~ yes_price m + no_price m == 0 ->
     spread_one topic_name m
     = Ok [ {| event_a := m; event_b := m; topic := topic_name;
               profit_potential :=
                 (1 - (yes_price m + no_price m))
                 / (yes_price m + no_price m) * 100;
               confidence := 95 |} ]) /\
  (forall (F : Type) (HF : PyFloat F) (topic_name : string)
          (ms : list (ParsedMarket F)) (opps : list (DeltaOpportunity F)),
     adjacent_loop (reach_pair topic_name) ms = Ok opps ->
     (length opps <= pred (length ms))%nat) /\
  _find_inconsistencies "BTC"
    [ threshold_market 100000 (12 # 100) (88 # 100) 2000 "reach";
      threshold_market 150000 (10 # 100) (90 # 100) 2000 "reach"
      : ParsedMarket Q ] = Ok [] /\
  _find_inconsistencies "BTC"
    [ threshold_market 100000 (12 # 100) (88 # 100) 2000 "reach";
      threshold_market 150000 (10 # 100) (90 # 100) 2000 "reach"
      : ParsedMarket float ]
  = Ok [ {| event_a := threshold_market 150000 (10 # 100) (90 # 100) 2000 "reach";
            event_b := threshold_market 100000 (12 # 100) (88 # 100) 2000 "reach";
            topic := "BTC"; profit_potential := lit 5; confidence := 60 |} ].
Proof.
split; [intros F HF; apply find_inconsistencies_complete|].
split.
{ intros topic_name lower higher Hnz.
  split; [now apply reach_pair_skip|].
  split; [intros Hr [Hv1 Hv2]; now apply reach_pair_violation|].
  split; [intros Hr Hnv [Hn1 Hn2]; now apply reach_pair_near_miss|].
  now apply reach_pair_quiet. }
split; [apply Q_dip_pair_violation|].
split; [apply Q_spread_one_gap|].
split; [intros F HF; apply reach_loop_at_most_one_per_pair|].
split; vm_compute; reflexivity.
Qed.

Lemma delta_rules_emitted_when_triggered_witness :
  exists opps : list (DeltaOpportunity float),
    _find_inconsistencies "BTC"
      [ threshold_market 100000 (10 # 100) (80 # 100) 9000 "reach";
        threshold_market 150000 (11 # 100) (89 # 100) 2000 "reach";
        threshold_market 50000 (30 # 100) (70 # 100) 2000 "below";
        threshold_market 70000 (20 # 100) (80 # 100) 2000 "below" ] = Ok opps /\
    (exists o, In o opps /\ confidence o = 90%nat /\
       event_a o = threshold_market 150000 (11 # 100) (89 # 100) 2000 "reach") /\
    (exists o, In o opps /\ confidence o = 85%nat /\
       event_a o = threshold_market 50000 (30 # 100) (70 # 100) 2000 "below") /\
    (exists o, In o opps /\ confidence o = 95%nat /\
       event_a o = threshold_market 100000 (10 # 100) (80 # 100) 9000 "reach").
Proof.
assert (E : { opps : list (DeltaOpportunity float) |
  _find_inconsistencies "BTC"
    [ threshold_market 100000 (10 # 100) (80 # 100) 9000 "reach";
      threshold_market 150000 (11 # 100) (89 # 100) 2000 "reach";
      threshold_market 50000 (30 # 100) (70 # 100) 2000 "below";
      threshold_market 70000 (20 # 100) (80 # 100) 2000 "below" ] = Ok opps })
  by (eexists; vm_compute; reflexivity).
destruct E as [opps E]. exists opps. split; [exact E|].
destruct delta_rules_emitted_when_triggered as [Hany _].
destruct (Hany float _ _ _ _ E) as (Hreach & Hdip & Hspread).
split; [|split].
- destruct (Hreach []
              (threshold_market 100000 (10 # 100) (80 # 100) 9000 "reach")
              (threshold_market 150000 (11 # 100) (89 # 100) 2000 "reach")
              [] eq_refl eq_refl) as [Hviolation _].
  destruct (Hviolation eq_refl) as (o & Hin & _ & ->).
  eexists. split; [exact Hin|]. split; reflexivity.
- destruct (Hdip []
              (threshold_market 50000 (30 # 100) (70 # 100) 2000 "below")
              (threshold_market 70000 (20 # 100) (80 # 100) 2000 "below")
              [] eq_refl eq_refl) as (o & Hin & ->).
  eexists. split; [exact Hin|]. split; reflexivity.
- destruct (Hspread
              (threshold_market 100000 (10 # 100) (80 # 100) 9000 "reach")
              (or_introl eq_refl) eq_refl eq_refl) as (o & Hin & ->).
  eexists. split; [exact Hin|]. split; reflexivity.
Defined.

(** *** Three reach markets *)

Lemma perm3_cases {A : Type} (l : list A) (a b c : A) :
  Permutation l [a; b; c] ->
  l = [a; b; c] \/ l = [a; c; b] \/ l = [b; a; c] \/
  l = [b; c; a] \/ l = [c; a; b] \/ l = [c; b; a].
Proof.
intros Hp.
assert (Hlen := Permutation_length Hp).
destruct l as [|x [|y [|z [|w l]]]]; try discriminate Hlen.
assert (Hx : In x [a; b; c]) by (eapply Permutation_in; [exact Hp|now left]).
destruct Hx as [E|[E|[E|[]]]]; subst x.
- apply Permutation_cons_inv in Hp. symmetry in Hp.
  apply Permutation_length_2_inv in Hp as [E|E]; inversion E; tauto.
- assert (Hp' : Permutation (b :: [y; z]) (b :: [a; c])).
  { etransitivity; [exact Hp|apply perm_swap]. }
  apply Permutation_cons_inv in Hp'. symmetry in Hp'.
  apply Permutation_length_2_inv in Hp' as [E|E]; inversion E; tauto.
- assert (Hp' : Permutation (c :: [y; z]) (c :: [a; b])).
  { etransitivity; [exact Hp|].
    etransitivity; [apply perm_skip, perm_swap|apply perm_swap]. }
  apply Permutation_cons_inv in Hp'. symmetry in Hp'.
  apply Permutation_length_2_inv in Hp' as [E|E]; inversion E; tauto.
Qed.

(** Sorting any arrangement of three markets with increasing thresholds
    gives them in threshold order. *)
Lemma sort_by_threshold_three (m1 m2 m3 : ParsedMarket Q)
    (ms : list (ParsedMarket Q)) :
  thr m1 < thr m2 -> thr m2 < thr m3 ->
  Permutation ms [m1; m2; m3] ->
  sort_by_threshold ms = [m1; m2; m3].
Proof.
intros H12 H23 Hp.
assert (H13 : thr m1 < thr m3) by (eapply Qlt_trans; eassumption).
assert (H21 : thr m1 <= thr m2) by now apply Qlt_le_weak.
assert (H32 : thr m2 <= thr m3) by now apply Qlt_le_weak.
assert (H31 : thr m1 <= thr m3) by now apply Qlt_le_weak.
apply perm3_cases in Hp.
destruct Hp as [->|[->|[->|[->|[->| ->]]]]];
  unfold sort_by_threshold;
  repeat (cbn [fold_left insert_sorted]; flt_decide assumption);
  reflexivity.
Qed.

Lemma filter_all {A : Type} (f : A -> bool) (l : list A) :
  Forall (fun x => f x = true) l -> List.filter f l = l.
Proof.
induction 1 as [|x l Hx _ IH]; simpl; [reflexivity|]. now rewrite Hx, IH.
Qed.

Lemma filter_none {A : Type} (f : A -> bool) (l : list A) :
  Forall (fun x => f x = false) l -> List.filter f l = [].
Proof.
induction 1 as [|x l Hx _ IH]; simpl; [reflexivity|]. now rewrite Hx.
Qed.

(** The in-market rule neither raises nor emits a confidence-90 record
    on markets whose two prices have a positive sum. *)
Lemma spread_loop_total (topic_name : string) (ms : list (ParsedMarket Q)) :
  Forall (fun m => 0 < yes_price m + no_price m) ms ->
  exists sp,
    spread_loop topic_name ms = Ok sp /\ reach_violations sp = [].
Proof.
induction 1 as [|m ms Hm _ (sp & Hsp & Hrv)].
- exists []. split; reflexivity.
- cbn [spread_loop]. unfold spread_one. qsimp.
  destruct (flt (yes_price m + no_price m) (95 # 100) && flt 5000 (volume m)).
  + rewrite Q_fdiv_ok by (intros E; rewrite E in Hm; now apply Qlt_irrefl in Hm).
    cbn [rbind]. rewrite Hsp. cbn [rbind].
    eexists. split; [reflexivity|]. exact Hrv.
  + cbn [rbind]. rewrite Hsp. cbn [rbind].
    eexists. split; [reflexivity|]. exact Hrv.
Qed.

Lemma reach_direction_not_below (d : string) :
  str_in d ["above"; "reach"] = true -> String.eqb d "below" = false.
Proof.
unfold str_in. cbn [existsb]. rewrite orb_false_r.
intros Hd. apply orb_true_iff in Hd as [E|E];
  apply String.eqb_eq in E; subst d; reflexivity.
Qed.

Lemma Q_has_threshold (m : ParsedMarket Q) (T : Q) :
  threshold m = Some T -> ~ T == 0 -> has_threshold m = true /\ thr m = T.
Proof.
intros Ht Hnz. unfold has_threshold, thr, truthy. rewrite Ht. split; [|reflexivity].
apply negb_true_iff. cbn [fis0 Q_float].
destruct (Qeq_bool T 0) eqn:E; [|reflexivity].
apply Qeq_bool_iff in E. contradiction.
Qed.

(** A ratio of at least 1.1 between increasing thresholds forces the
    lower one to be positive. *)
Lemma ratio_positive (T1 T2 : Q) : T1 < T2 -> 11 # 10 <= T2 / T1 -> 0 < T1.
Proof.
intros Hlt Hr.
destruct (Qlt_le_dec 0 T1) as [Hpos|Hle]; [exact Hpos|exfalso].
destruct (Qeq_dec T1 0) as [E0|Hnz].
- assert (Hz : T2 / T1 == 0).
  { unfold Qdiv. rewrite E0. unfold Qinv; simpl. ring. }
  rewrite Hz in Hr. vm_compute in Hr. now apply Hr.
- assert (Hneg : T1 < 0) by (apply Qle_lt_or_eq in Hle as [H|H]; [exact H|contradiction]).
  assert (E : T2 == (T2 / T1) * T1) by (field; exact Hnz).
  set (r := T2 / T1) in *. nra.
Qed.

(** The detector on any arrangement of three reach markets with
    increasing thresholds and non-negative NO prices, given what the two
    adjacent pairs contribute. *)
Lemma find_inconsistencies_three_reach
    (topic_name : string) (m1 m2 m3 : ParsedMarket Q) (T1 T2 T3 : Q)
    (ms : list (ParsedMarket Q)) (r12 r23 : list (DeltaOpportunity Q)) :
  threshold m1 = Some T1 -> threshold m2 = Some T2 -> threshold m3 = Some T3 ->
  0 < T1 -> T1 < T2 -> T2 < T3 ->
  str_in (direction m1) ["above"; "reach"] = true ->
  str_in (direction m2) ["above"; "reach"] = true ->
  str_in (direction m3) ["above"; "reach"] = true ->
  0 < yes_price m1 + no_price m1 ->
  0 < yes_price m2 + no_price m2 ->
  0 < yes_price m3 + no_price m3 ->
  Permutation ms [m1; m2; m3] ->
  reach_pair topic_name m1 m2 = Ok r12 ->
  reach_pair topic_name m2 m3 = Ok r23 ->
  exists opps,
    _find_inconsistencies topic_name ms = Ok opps /\
    reach_violations opps = reach_violations (r12 ++ r23).
Proof.
intros Ht1 Ht2 Ht3 Hpos H12 H23 Hd1 Hd2 Hd3 Hs1 Hs2 Hs3 Hp Hr12 Hr23.
assert (Hpos2 : 0 < T2) by lra.
assert (Hpos3 : 0 < T3) by lra.
destruct (Q_has_threshold m1 T1 Ht1) as [Hh1 Hthr1]; [lra|].
destruct (Q_has_threshold m2 T2 Ht2) as [Hh2 Hthr2]; [lra|].
destruct (Q_has_threshold m3 T3 Ht3) as [Hh3 Hthr3]; [lra|].
assert (Hall : forall P : ParsedMarket Q -> Prop,
          P m1 -> P m2 -> P m3 -> Forall P ms).
{ intros P P1 P2 P3. apply List.Forall_forall. intros m Hm.
  apply (Permutation_in _ Hp) in Hm.
  destruct Hm as [E|[E|[E|[]]]]; rewrite <- E; assumption. }
unfold _find_inconsistencies.
rewrite (filter_all _ ms)
  by (apply Hall; [now rewrite Hh1, Hd1|now rewrite Hh2, Hd2|now rewrite Hh3, Hd3]).
rewrite (filter_none _ ms)
  by (apply Hall; apply andb_false_iff; right; now apply reach_direction_not_below).
rewrite (filter_all has_threshold ms) by (apply Hall; assumption).
rewrite (sort_by_threshold_three m1 m2 m3 ms)
  by (rewrite ?Hthr1, ?Hthr2, ?Hthr3; assumption).
cbn [adjacent_loop]. rewrite Hr12, Hr23. cbn [rbind sort_by_threshold fold_left].
destruct (spread_loop_total topic_name ms) as (sp & Hsp & Hrv);
  [apply Hall; assumption|].
rewrite Hsp. cbn [rbind].
eexists. split; [reflexivity|].
unfold reach_violations in *.
rewrite !List.filter_app, Hrv. cbn [List.filter]. now rewrite !app_nil_r.
Qed.

(** C5. Three reach-direction markets with thresholds T1 < T2 < T3, each
    adjacent ratio at least 1.1, and non-negative NO prices, handed over in
    any order: with YES prices 0.5, 0.3, 0.1 the detector emits no reach
    violation; with YES prices 0.1, 0.3, 0.5 it emits exactly two, one for
    the pair (T1, T2) and one for the pair (T2, T3). *)
Theorem reach_monotonicity
    (topic_name : string) (m1 m2 m3 : ParsedMarket Q) (T1 T2 T3 : Q)
    (ms : list (ParsedMarket Q)) :
  threshold m1 = Some T1 -> threshold m2 = Some T2 -> threshold m3 = Some T3 ->
  T1 < T2 -> T2 < T3 ->
  11 # 10 <= T2 / T1 -> 11 # 10 <= T3 / T2 ->
  str_in (direction m1) ["above"; "reach"] = true ->
  str_in (direction m2) ["above"; "reach"] = true ->
  str_in (direction m3) ["above"; "reach"] = true ->
  0 <= no_price m1 -> 0 <= no_price m2 -> 0 <= no_price m3 ->
  Permutation ms [m1; m2; m3] ->
  (yes_price m1 == 5 # 10 -> yes_price m2 == 3 # 10 -> yes_price m3 == 1 # 10 ->
     exists opps,
       _find_inconsistencies topic_name ms = Ok opps /\
       reach_violations opps = []) /\
  (yes_price m1 == 1 # 10 -> yes_price m2 == 3 # 10 -> yes_price m3 == 5 # 10 ->
     exists opps p12 p23,
       _find_inconsistencies topic_name ms = Ok opps /\
       reach_violations opps =
         [ {| event_a := m2; event_b := m1; topic := topic_name;
              profit_potential := p12; confidence := 90 |};
           {| event_a := m3; event_b := m2; topic := topic_name;
              profit_potential := p23; confidence := 90 |} ]).
Proof.
intros Ht1 Ht2 Ht3 H12 H23 Hr12 Hr23 Hd1 Hd2 Hd3 Hn1 Hn2 Hn3 Hp.
assert (Hpos : 0 < T1) by (eapply ratio_positive; eassumption).
assert (Hpos2 : 0 < T2) by lra.
destruct (Q_has_threshold m1 T1 Ht1) as [_ Hthr1]; [lra|].
destruct (Q_has_threshold m2 T2 Ht2) as [_ Hthr2]; [lra|].
destruct (Q_has_threshold m3 T3 Ht3) as [_ Hthr3]; [lra|].
assert (Hnz1 : ~ thr m1 == 0) by (rewrite Hthr1; lra).
assert (Hnz2 : ~ thr m2 == 0) by (rewrite Hthr2; lra).
split; intros Hy1 Hy2 Hy3.
- destruct (find_inconsistencies_three_reach topic_name m1 m2 m3 T1 T2 T3 ms [] [])
    as (opps & Hopps & Hrv); try assumption; try lra.
  + apply reach_pair_quiet; [exact Hnz1| |]; rewrite Hy1, Hy2; intros [A B];
      vm_compute in A; discriminate.
  + apply reach_pair_quiet; [exact Hnz2| |]; rewrite Hy2, Hy3; intros [A B];
      vm_compute in A; discriminate.
  + exists opps. split; [exact Hopps|exact Hrv].
- destruct (reach_pair_violation topic_name m1 m2) as (p12 & Hp12 & _);
    [exact Hnz1|now rewrite Hthr1, Hthr2|lra|lra|].
  destruct (reach_pair_violation topic_name m2 m3) as (p23 & Hp23 & _);
    [exact Hnz2|now rewrite Hthr2, Hthr3|lra|lra|].
  assert (Hs1 : 0 < yes_price m1 + no_price m1) by lra.
  assert (Hs2 : 0 < yes_price m2 + no_price m2) by lra.
  assert (Hs3 : 0 < yes_price m3 + no_price m3) by lra.
  destruct (find_inconsistencies_three_reach topic_name m1 m2 m3 T1 T2 T3 ms _ _
              Ht1 Ht2 Ht3 Hpos H12 H23 Hd1 Hd2 Hd3 Hs1 Hs2 Hs3 Hp Hp12 Hp23)
    as (opps & Hopps & Hrv).
  exists opps, p12, p23. split; [exact Hopps|exact Hrv].
Qed.

Lemma reach_monotonicity_witness :
  (exists opps : list (DeltaOpportunity Q),
     _find_inconsistencies "BTC"
       [ threshold_market 120000 (3 # 10) (7 # 10) 9000 "above";
         threshold_market 150000 (1 # 10) (9 # 10) 9000 "reach";
         threshold_market 100000 (5 # 10) (5 # 10) 9000 "reach" ] = Ok opps /\
     reach_violations opps = []) /\
  (exists (opps : list (DeltaOpportunity Q)) (p12 p23 : Q),
     _find_inconsistencies "BTC"
       [ threshold_market 120000 (3 # 10) (7 # 10) 9000 "above";
         threshold_market 150000 (5 # 10) (5 # 10) 9000 "reach";
         threshold_market 100000 (1 # 10) (9 # 10) 9000 "reach" ] = Ok opps /\
     reach_violations opps =
       [ {| event_a := threshold_market 120000 (3 # 10) (7 # 10) 9000 "above";
            event_b := threshold_market 100000 (1 # 10) (9 # 10) 9000 "reach";
            topic := "BTC"; profit_potential := p12; confidence := 90 |};
         {| event_a := threshold_market 150000 (5 # 10) (5 # 10) 9000 "reach";
            event_b := threshold_market 120000 (3 # 10) (7 # 10) 9000 "above";
            topic := "BTC"; profit_potential := p23; confidence := 90 |} ]).
Proof.
split.
- destruct (reach_monotonicity "BTC"
              (threshold_market 100000 (5 # 10) (5 # 10) 9000 "reach")
              (threshold_market 120000 (3 # 10) (7 # 10) 9000 "above")
              (threshold_market 150000 (1 # 10) (9 # 10) 9000 "reach")
              100000 120000 150000
              [ threshold_market 120000 (3 # 10) (7 # 10) 9000 "above";
                threshold_market 150000 (1 # 10) (9 # 10) 9000 "reach";
                threshold_market 100000 (5 # 10) (5 # 10) 9000 "reach" ])
    as [Hconsistent _];
    try reflexivity; try (vm_compute; discriminate).
  + apply Permutation_sym.
    apply (Permutation_cons_app
             [ threshold_market 120000 (3 # 10) (7 # 10) 9000 "above";
               threshold_market 150000 (1 # 10) (9 # 10) 9000 "reach" ] []).
    reflexivity.
  + apply Hconsistent; reflexivity.
- destruct (reach_monotonicity "BTC"
              (threshold_market 100000 (1 # 10) (9 # 10) 9000 "reach")
              (threshold_market 120000 (3 # 10) (7 # 10) 9000 "above")
              (threshold_market 150000 (5 # 10) (5 # 10) 9000 "reach")
              100000 120000 150000
              [ threshold_market 120000 (3 # 10) (7 # 10) 9000 "above";
                threshold_market 150000 (5 # 10) (5 # 10) 9000 "reach";
                threshold_market 100000 (1 # 10) (9 # 10) 9000 "reach" ])
    as [_ Hbackwards];
    try reflexivity; try (vm_compute; discriminate).
  + apply Permutation_sym.
    apply (Permutation_cons_app
             [ threshold_market 120000 (3 # 10) (7 # 10) 9000 "above";
               threshold_market 150000 (5 # 10) (5 # 10) 9000 "reach" ] []).
    reflexivity.
  + apply Hbackwards; reflexivity.
Defined.

(** The same two scenarios in binary64, for the thresholds 100000,
    120000 and 150000. *)
Lemma reach_monotonicity_binary64 :
  (exists opps : list (DeltaOpportunity float),
     _find_inconsistencies "BTC"
       [ threshold_market 120000 (3 # 10) (7 # 10) 9000 "above";
         threshold_market 150000 (1 # 10) (9 # 10) 9000 "reach";
         threshold_market 100000 (5 # 10) (5 # 10) 9000 "reach" ] = Ok opps /\
     length (reach_violations opps) = 0%nat) /\
  (exists opps : list (DeltaOpportunity float),
     _find_inconsistencies "BTC"
       [ threshold_market 120000 (3 # 10) (7 # 10) 9000 "above";
         threshold_market 150000 (5 # 10) (5 # 10) 9000 "reach";
         threshold_market 100000 (1 # 10) (9 # 10) 9000 "reach" ] = Ok opps /\
     length (reach_violations opps) = 2%nat).
Proof.
split; eexists; (split; [vm_compute; reflexivity|reflexivity]).
Qed.

(** *** Topic extraction *)

Lemma hit_count_positive (text : string) (kws : list string) :
  (0 <? hit_count text kws)%nat = existsb (fun kw => contains kw text) kws.
Proof.
unfold hit_count. induction kws as [|kw kws IH]; [reflexivity|].
cbn [List.filter existsb]. destruct (contains kw text); [reflexivity|exact IH].
Qed.

(** C7, as stated, fails twice.  A question with two MUSK keywords and one
    BTC keyword is tagged BTC, the category tested first, where the highest
    hit count names MUSK; and a question with no category keyword at all
    is tagged with its first capitalised word, not OTHER. *)
Lemma extract_topic_ignores_hit_counts :
  hit_count (lower "Will Elon Musk buy bitcoin?") ["bitcoin"; "btc"] = 1%nat /\
  hit_count (lower "Will Elon Musk buy bitcoin?") ["musk"; "elon"] = 2%nat /\
  spec_extract_topic "Will Elon Musk buy bitcoin?" = "MUSK" /\
  _extract_topic "Will Elon Musk buy bitcoin?" = "BTC" /\
  forallb (fun c => (hit_count (lower "Will Apple release a car?") (snd c) =? 0)%nat)
          TOPIC_KEYWORDS = true /\
  spec_extract_topic "Will Apple release a car?" = "OTHER" /\
  _extract_topic "Will Apple release a car?" = "Apple".
Proof.
repeat split; vm_compute; reflexivity.
Qed.

Lemma strip_char_In (c : ascii) :
  existsb (Ascii.eqb c) strip_chars = true <-> In c strip_chars.
Proof.
rewrite existsb_exists. split.
- intros (x & Hx & E). apply Ascii.eqb_eq in E. now subst x.
- intros Hc. exists c. split; [exact Hc|apply Ascii.eqb_refl].
Qed.

Lemma lstrip_spec (cs : list ascii) :
  exists lead,
    cs = (lead ++ lstrip cs)%list /\
    List.Forall (fun c => In c strip_chars) lead /\
    forall c r, lstrip cs = c :: r -> ~ In c strip_chars.
Proof.
induction cs as [|c cs (lead & E & Hlead & Hhead)]; cbn [lstrip].
- exists []. split; [reflexivity|]. split; [constructor|discriminate].
- destruct (existsb (Ascii.eqb c) strip_chars) eqn:Ec.
  + exists (c :: lead). split; [cbn [app]; now rewrite <- E|].
    split; [|exact Hhead]. constructor; [now apply strip_char_In|exact Hlead].
  + exists []. split; [reflexivity|]. split; [constructor|].
    intros c' r [= <- _] Hin. apply strip_char_In in Hin.
    rewrite Hin in Ec. discriminate.
Qed.

Lemma lstrip_app (lead rest : list ascii) :
  List.Forall (fun c => In c strip_chars) lead ->
  (forall c r, rest = c :: r -> ~ In c strip_chars) ->
  lstrip (lead ++ rest) = rest.
Proof.
intros Hlead Hrest. induction Hlead as [|c l Hc Hl IH]; cbn [app].
- destruct rest as [|c r]; [reflexivity|]. cbn [lstrip].
  destruct (existsb (Ascii.eqb c) strip_chars) eqn:Ec; [|reflexivity].
  apply strip_char_In in Ec. now destruct (Hrest c r eq_refl).
- cbn [lstrip]. now rewrite (proj2 (strip_char_In c) Hc).
Qed.

(** [strip] removes the leading and the trailing punctuation, and
    nothing else. *)
Lemma strip_stripped (w : string) : stripped_of w (strip w).
Proof.
unfold stripped_of, strip. rewrite list_ascii_of_string_of_list_ascii.
destruct (lstrip_spec (list_ascii_of_string w)) as (lead & E1 & Hlead & Hhead).
set (a := lstrip (list_ascii_of_string w)) in *.
destruct (lstrip_spec (rev a)) as (tr & E2 & Htr & Hlast).
set (b := lstrip (rev a)) in *.
assert (Ea : a = (rev b ++ rev tr)%list).
{ rewrite <- (rev_involutive a), E2. apply rev_app_distr. }
exists lead, (rev tr). split; [now rewrite E1 at 1; rewrite Ea|].
split; [exact Hlead|]. split; [now apply Forall_rev|]. split.
- intros c r Hc. apply (Hhead c (r ++ rev tr)%list). now rewrite Ea, Hc.
- intros c r Hc. apply (Hlast c (rev r)).
  rewrite <- (rev_involutive b), Hc, rev_app_distr. reflexivity.
Qed.

Lemma lstrip_all (l : list ascii) :
  List.Forall (fun c => In c strip_chars) l -> lstrip l = [].
Proof.
intros Hl. rewrite <- (app_nil_r l). apply (lstrip_app l [] Hl). discriminate.
Qed.

(** ... and it is the only text that is [w] without them. *)
Lemma stripped_unique (w clean : string) :
  stripped_of w clean -> clean = strip w.
Proof.
intros (lead & trail & E & Hlead & Htrail & Hhead & Hlast).
unfold strip. rewrite E.
rewrite <- (string_of_list_ascii_of_string clean) at 1. f_equal.
destruct (list_ascii_of_string clean) as [|c0 cl'] eqn:Ecl.
- cbn [app]. rewrite (lstrip_all (lead ++ trail)).
  + reflexivity.
  + apply Forall_app. now split.
- rewrite (lstrip_app lead _ Hlead)
    by (intros c r [= <- _]; now apply (Hhead c0 cl')).
  rewrite rev_app_distr.
  rewrite (lstrip_app (rev trail) _ (Forall_rev Htrail)).
  + now rewrite rev_involutive.
  + intros c r Hc. apply (Hlast c (rev r)).
    rewrite <- (rev_involutive (c0 :: cl')), Hc. reflexivity.
Qed.

Lemma is_topic_word_spec (clean : string) :
  is_topic_word clean = true <-> capitalised_topic_word clean.
Proof.
unfold is_topic_word, capitalised_topic_word.
destruct clean as [|c rest].
{ split; [discriminate|]. now intros ((c & rest & E & _) & _). }
rewrite !andb_true_iff, negb_true_iff. unfold is_upper, str_in.
rewrite andb_true_iff, !Nat.leb_le, Nat.ltb_lt.
split.
- intros [[Hup Hlen] Hskip]. split; [now exists c, rest|]. split; [exact Hlen|].
  intros Hin. apply Bool.not_true_iff_false in Hskip. apply Hskip.
  apply existsb_exists. eexists. split; [exact Hin|apply String.eqb_refl].
- intros [(c' & rest' & [= <- <-] & Hup) [Hlen Hskip]].
  split; [split; [exact Hup|exact Hlen]|].
  apply Bool.not_true_iff_false. intros Hex.
  apply existsb_exists in Hex as (x & Hx & Ex).
  apply String.eqb_eq in Ex. apply Hskip. now rewrite Ex.
Qed.

Lemma first_topic_word_spec (words : list string) :
  match first_topic_word words with
  | Some tag =>
      exists before w after,
        words = (before ++ w :: after)%list /\
        is_topic_word (strip w) = true /\
        (forall v, In v before -> is_topic_word (strip v) = false) /\
        tag = String.substring 0 12 (strip w)
  | None => forall v, In v words -> is_topic_word (strip v) = false
  end.
Proof.
induction words as [|w words IH]; cbn [first_topic_word].
- intros v [].
- destruct (is_topic_word (strip w)) eqn:Ew.
  + exists [], w, words. split; [reflexivity|]. split; [exact Ew|].
    split; [intros v []|reflexivity].
  + destruct (first_topic_word words) as [tag|].
    * destruct IH as (before & w' & after & -> & Hw' & Hbefore & ->).
      exists (w :: before), w', after. split; [reflexivity|].
      split; [exact Hw'|]. split; [|reflexivity].
      intros v [<-|Hv]; [exact Ew|now apply Hbefore].
    * intros v [<-|Hv]; [exact Ew|now apply IH].
Qed.

(** The branches of [_extract_topic], as a search through the categories
    in their order. *)
Lemma extract_topic_by_category (question : string) :
  _extract_topic question =
  match find (fun c => (0 <? hit_count (lower question) (snd c))%nat)
             TOPIC_KEYWORDS with
  | Some c => fst c
  | None =>
      match first_topic_word (split question) with
      | Some w => w
      | None => "OTHER"
      end
  end.
Proof.
unfold _extract_topic, TOPIC_KEYWORDS. cbn [find snd fst].
rewrite !hit_count_positive. cbn [existsb].
generalize (lower question) as q. intros q.
repeat match goal with
       | |- context [contains ?k q] =>
           destruct (contains k q); cbn [orb]; try reflexivity
       end.
Qed.

(** C7, amended.  For every ASCII question text: the extractor returns
    the tag of the first category, in declaration order, one of whose
    keywords occurs in the lower-cased question, whatever the hit counts of
    the later categories.  When no category keyword occurs, it returns the
    first of the whitespace-separated words of the question that, once its
    leading and trailing punctuation is stripped, starts with a capital
    letter, has more than two characters and is not a skip word in lower
    case; what is returned is the stripped word, cut to its first 12
    characters.  It returns OTHER only when no word of the question is of
    that kind. *)
Theorem extract_topic_first_category (question : string) :
  ascii_text question = true ->
  (forall c,
     find (fun c => (0 <? hit_count (lower question) (snd c))%nat)
          TOPIC_KEYWORDS = Some c ->
     _extract_topic question = fst c) /\
  (find (fun c => (0 <? hit_count (lower question) (snd c))%nat)
        TOPIC_KEYWORDS = None ->
   (exists before w after clean,
      split question = (before ++ w :: after)%list /\
      stripped_of w clean /\
      capitalised_topic_word clean /\
      (forall v clean_v,
         In v before -> stripped_of v clean_v ->
         ~ capitalised_topic_word clean_v) /\
      _extract_topic question = String.substring 0 12 clean) \/
   ((forall v clean_v,
       In v (split question) -> stripped_of v clean_v ->
       ~ capitalised_topic_word clean_v) /\
    _extract_topic question = "OTHER")).
Proof.
intros _. rewrite (extract_topic_by_category question).
split; [now intros c ->|]. intros ->.
assert (Hnot : forall v clean_v,
  is_topic_word (strip v) = false -> stripped_of v clean_v ->
  ~ capitalised_topic_word clean_v).
{ intros v clean_v Hv Hs Hc. apply stripped_unique in Hs. subst clean_v.
  apply is_topic_word_spec in Hc. rewrite Hc in Hv. discriminate. }
pose proof (first_topic_word_spec (split question)) as Hw.
destruct (first_topic_word (split question)) as [tag|].
- left. destruct Hw as (before & w & after & E & Hw & Hbefore & ->).
  exists before, w, after, (strip w). split; [exact E|].
  split; [apply strip_stripped|]. split; [now apply is_topic_word_spec|].
  split; [|reflexivity].
  intros v clean_v Hv. apply Hnot. now apply Hbefore.
- right. split; [|reflexivity].
  intros v clean_v Hv. apply Hnot. now apply Hw.
Qed.

Lemma extract_topic_first_category_witness :
  ascii_text "Will Elon Musk buy bitcoin?" = true /\
  _extract_topic "Will Elon Musk buy bitcoin?" = "BTC" /\
  ascii_text "Will Apple release a car?" = true /\
  ((exists before w after clean,
      split "Will Apple release a car?" = (before ++ w :: after)%list /\
      stripped_of w clean /\
      capitalised_topic_word clean /\
      (forall v clean_v,
         In v before -> stripped_of v clean_v ->
         ~ capitalised_topic_word clean_v) /\
      _extract_topic "Will Apple release a car?"
      = String.substring 0 12 clean) \/
   ((forall v clean_v,
       In v (split "Will Apple release a car?") -> stripped_of v clean_v ->
       ~ capitalised_topic_word clean_v) /\
    _extract_topic "Will Apple release a car?" = "OTHER")).
Proof.
split; [reflexivity|]. split.
- exact (proj1 (extract_topic_first_category "Will Elon Musk buy bitcoin?"
                  eq_refl) ("BTC", ["bitcoin"; "btc"]) eq_refl).
- split; [reflexivity|].
  exact (proj2 (extract_topic_first_category "Will Apple release a car?"
                  eq_refl) eq_refl).
Defined.

End DeltaScannerFacts.

(** * Properties of the surrounding code *)

(** ** Sorting *)

Section SortingFacts.
Context {A : Type}.
Variable key : A -> Q.

Lemma insert_by_perm (x : A) (l : list A) :
  Permutation (insert_by key x l) (x :: l).
Proof.
induction l as [|y r IH]; cbn [insert_by]; [reflexivity|].
destruct (flt (key x) (key y)); [reflexivity|].
rewrite IH. apply perm_swap.
Qed.

Lemma insert_by_ascending (x : A) (l : list A) :
  ascending key l -> ascending key (insert_by key x l).
Proof.
unfold ascending. induction 1 as [|y r Hr IH Hy]; cbn [insert_by].
- repeat constructor.
- destruct (flt (key x) (key y)) eqn:E.
  + apply Q_flt_true in E. constructor; [now constructor|].
    constructor; [lra|].
    eapply List.Forall_impl; [|exact Hy]. cbn. intros z Hz. lra.
  + apply Q_flt_false in E. constructor; [exact IH|].
    apply (Permutation_Forall (Permutation_sym (insert_by_perm x r))).
    constructor; assumption.
Qed.

Lemma insert_by_last (x : A) (l : list A) :
  List.Forall (fun y => key y <= key x) l ->
  insert_by key x l = (l ++ [x])%list.
Proof.
induction 1 as [|y r Hy Hr IH]; cbn [insert_by]; [reflexivity|].
rewrite (proj2 (Q_flt_false (key x) (key y)) Hy). now rewrite IH.
Qed.

Lemma sort_loop_perm (l acc : list A) :
  Permutation (fold_left (fun a x => insert_by key x a) l acc) (acc ++ l)%list.
Proof.
revert acc. induction l as [|x l IH]; intros acc; cbn [fold_left].
- now rewrite app_nil_r.
- rewrite IH, insert_by_perm. cbn [app]. apply Permutation_middle.
Qed.

Lemma sort_loop_ascending (l acc : list A) :
  ascending key acc ->
  ascending key (fold_left (fun a x => insert_by key x a) l acc).
Proof.
revert acc. induction l as [|x l IH]; intros acc Hacc; cbn [fold_left].
- exact Hacc.
- apply IH. now apply insert_by_ascending.
Qed.

Lemma sort_loop_sorted_input (l acc : list A) :
  ascending key (acc ++ l) ->
  fold_left (fun a x => insert_by key x a) l acc = (acc ++ l)%list.
Proof.
revert acc. induction l as [|x l IH]; intros acc Hs; cbn [fold_left].
- now rewrite app_nil_r.
- assert (Hs' : ascending key ((acc ++ [x]) ++ l)) by now rewrite <- app_assoc.
  rewrite insert_by_last.
  + rewrite (IH _ Hs'). now rewrite <- app_assoc.
  + apply List.Forall_forall. intros y Hy.
    apply (StronglySorted_app_1_elem_of _ _ _ y x Hs).
    * now apply list_elem_of_In.
    * left.
Qed.

Lemma sort_by_perm (l : list A) : Permutation (sort_by key l) l.
Proof. apply (sort_loop_perm l []). Qed.

Lemma sort_by_ascending (l : list A) : ascending key (sort_by key l).
Proof. apply sort_loop_ascending. constructor. Qed.

Lemma sort_by_sorted_input (l : list A) : ascending key l -> sort_by key l = l.
Proof. intros Hl. apply (sort_loop_sorted_input l []). exact Hl. Qed.

Lemma descending_rev (l : list A) : ascending key l -> descending key (rev l).
Proof.
unfold ascending, descending.
induction 1 as [|x l Hl IH Hx]; cbn [rev]; [constructor|].
apply StronglySorted_app_2; [|exact IH|repeat constructor].
intros a b Ha Hb. apply list_elem_of_singleton in Hb. subst b.
rewrite List.Forall_forall in Hx. apply Hx.
apply list_elem_of_In in Ha. now apply in_rev.
Qed.

Lemma ascending_rev (l : list A) : descending key l -> ascending key (rev l).
Proof.
unfold ascending, descending.
induction 1 as [|x l Hl IH Hx]; cbn [rev]; [constructor|].
apply StronglySorted_app_2; [|exact IH|repeat constructor].
intros a b Ha Hb. apply list_elem_of_singleton in Hb. subst b.
rewrite List.Forall_forall in Hx. apply Hx.
apply list_elem_of_In in Ha. now apply in_rev.
Qed.

Lemma sort_by_reverse_perm (l : list A) :
  Permutation (sort_by_reverse key l) l.
Proof.
unfold sort_by_reverse.
now rewrite <- Permutation_rev, sort_by_perm, <- Permutation_rev.
Qed.

Lemma sort_by_reverse_descending (l : list A) :
  descending key (sort_by_reverse key l).
Proof. apply descending_rev, sort_by_ascending. Qed.

Lemma sort_by_reverse_sorted_input (l : list A) :
  descending key l -> sort_by_reverse key l = l.
Proof.
intros Hl. unfold sort_by_reverse.
rewrite sort_by_sorted_input by now apply ascending_rev.
apply rev_involutive.
Qed.

End SortingFacts.
(** ** Dicts *)

Section DictFacts.
Context {V : Type}.

Lemma dict_set_fresh (d : dict V) (k : string) (v : V) :
  ~ In k (dict_keys d) -> dict_set d k v = (d ++ [(k, v)])%list.
Proof.
induction d as [|[k' v'] r IH]; cbn; [reflexivity|].
intros Hk. destruct (String.eqb k' k) eqn:E.
- apply String.eqb_eq in E. tauto.
- rewrite IH; [reflexivity|tauto].
Qed.

Lemma dict_keys_set (d : dict V) (k : string) (v : V) :
  dict_keys (dict_set d k v)
  = if in_dec string_dec k (dict_keys d) then dict_keys d
    else (dict_keys d ++ [k])%list.
Proof.
induction d as [|[k' v'] r IH]; cbn [dict_set dict_keys map fst].
- now destruct (in_dec string_dec k []).
- destruct (String.eqb k' k) eqn:E.
  + apply String.eqb_eq in E. subst k'.
    destruct (in_dec string_dec k (k :: map fst r)) as [|n]; [reflexivity|].
    exfalso. apply n. now left.
  + apply String.eqb_neq in E. cbn [map fst].
    fold (dict_keys (dict_set r k v)). rewrite IH. fold (dict_keys r).
    destruct (in_dec string_dec k (dict_keys r)) as [i|n];
    destruct (in_dec string_dec k (k' :: dict_keys r)) as [i'|n'];
    try reflexivity.
    * exfalso. apply n'. now right.
    * destruct i' as [->|i']; [congruence|contradiction].
Qed.

Lemma dict_set_NoDup (d : dict V) (k : string) (v : V) :
  NoDup (dict_keys d) -> NoDup (dict_keys (dict_set d k v)).
Proof.
intros Hd. rewrite dict_keys_set.
destruct (in_dec string_dec k (dict_keys d)) as [i|n]; [exact Hd|].
apply NoDup_app. split; [exact Hd|split].
- intros x Hx Hx'. apply list_elem_of_singleton in Hx'. subst x.
  apply n. now apply list_elem_of_In.
- apply NoDup_singleton.
Qed.

Lemma dict_set_keys_incl (d : dict V) (k k0 : string) (v : V) :
  In k (dict_keys (dict_set d k0 v)) <-> k = k0 \/ In k (dict_keys d).
Proof.
rewrite dict_keys_set.
destruct (in_dec string_dec k0 (dict_keys d)) as [i|n].
- split; [tauto|]. intros [->|Hk]; assumption.
- rewrite in_app_iff. cbn. split; [intros [Hk|[->|[]]]|intros [->|Hk]]; tauto.
Qed.

Lemma dict_get_set_eq (d : dict V) (k : string) (v : V) :
  dict_get (dict_set d k v) k = Some v.
Proof.
induction d as [|[k' v'] r IH]; cbn.
- now rewrite String.eqb_refl.
- destruct (String.eqb k' k) eqn:E; cbn; now rewrite E.
Qed.

Lemma dict_get_set_neq (d : dict V) (k k0 : string) (v : V) :
  k0 <> k -> dict_get (dict_set d k0 v) k = dict_get d k.
Proof.
intros Hk. induction d as [|[k' v'] r IH]; cbn.
- apply String.eqb_neq in Hk. now rewrite Hk.
- destruct (String.eqb k' k0) eqn:E; cbn.
  + apply String.eqb_eq in E. subst k'.
    apply String.eqb_neq in Hk. now rewrite Hk.
  + now rewrite IH.
Qed.


Lemma dict_get_In (d : dict V) (k : string) (v : V) :
  dict_get d k = Some v -> In (k, v) d.
Proof.
induction d as [|[k' v'] r IH]; cbn; [discriminate|].
destruct (String.eqb k' k) eqn:E.
- apply String.eqb_eq in E. subst k'. intros [= ->]. now left.
- intros Hg. right. now apply IH.
Qed.

Lemma dict_get_None (d : dict V) (k : string) :
  dict_get d k = None <-> ~ In k (dict_keys d).
Proof.
induction d as [|[k' v'] r IH]; cbn; [tauto|].
destruct (String.eqb k' k) eqn:E.
- apply String.eqb_eq in E. split; [discriminate|tauto].
- apply String.eqb_neq in E. rewrite IH. tauto.
Qed.

Lemma dict_In_get (d : dict V) (k : string) (v : V) :
  NoDup (dict_keys d) -> In (k, v) d -> dict_get d k = Some v.
Proof.
induction d as [|[k' v'] r IH]; cbn; [tauto|].
intros Hd [E|Hin].
- inversion E; subst. now rewrite String.eqb_refl.
- apply NoDup_cons in Hd. destruct Hd as [Hk' Hr].
  destruct (String.eqb k' k) eqn:E; [|now apply IH].
  apply String.eqb_eq in E. subst k'. exfalso. apply Hk'.
  apply list_elem_of_In. apply (in_map fst) in Hin. exact Hin.
Qed.

End DictFacts.

(** A loop that stores one value under each key of a dict rebuilds the
    dict with the values changed. *)
Lemma dict_rebuild {V W : Type} (f : V -> W) (l : dict V) (acc : dict W) :
  NoDup (dict_keys acc ++ dict_keys l) ->
  fold_left (fun a item => dict_set a (fst item) (f (snd item))) l acc
  = (acc ++ map (fun kv => (fst kv, f (snd kv))) l)%list.
Proof.
revert acc. induction l as [|[k v] l IH]; intros acc Hnd; cbn [fold_left map].
- now rewrite app_nil_r.
- cbn [fst snd]. rewrite dict_set_fresh.
  + rewrite IH.
    * now rewrite <- app_assoc.
    * unfold dict_keys. rewrite map_app. cbn [map fst].
      rewrite <- app_assoc. exact Hnd.
  + intros Hk. cbn [dict_keys map fst] in Hnd.
    apply NoDup_app in Hnd. destruct Hnd as (_ & Hdis & _).
    apply (Hdis k); [now apply list_elem_of_In|left].
Qed.

Lemma map_snd_combine {A B : Type} (l1 : list A) (l2 : list B) :
  length l1 = length l2 -> map snd (combine l1 l2) = l2.
Proof.
revert l2. induction l1 as [|a l1 IH]; intros [|b l2] Hlen;
  try discriminate; [reflexivity|].
cbn. f_equal. apply IH. now injection Hlen.
Qed.

(** ** Sums *)

Lemma Q_sum_from (l : list Q) (a : Q) : fold_left Qplus l a == a + pysum l.
Proof.
unfold pysum. cbn [fadd lit Q_float].
revert a. induction l as [|x l IH]; intros a; cbn [fold_left].
- ring.
- rewrite IH, (IH (0 + x)). ring.
Qed.

Lemma Q_pysum_cons (x : Q) (l : list Q) : pysum (x :: l) == x + pysum l.
Proof.
unfold pysum at 1. cbn [fold_left fadd lit Q_float].
rewrite Q_sum_from. ring.
Qed.

Lemma Q_pysum_scale (c : Q) (l : list Q) :
  pysum (map (fun x => c * x) l) == c * pysum l.
Proof.
induction l as [|x l IH]; cbn [map].
- unfold pysum; cbn. ring.
- rewrite !Q_pysum_cons, IH. ring.
Qed.

Lemma Q_pysum_div (t : Q) (l : list Q) :
  pysum (map (fun x => x / t) l) == pysum l / t.
Proof.
induction l as [|x l IH]; cbn [map].
- unfold pysum; cbn. unfold Qdiv. ring.
- rewrite !Q_pysum_cons, IH. unfold Qdiv. ring.
Qed.

Lemma Q_pysum_nonneg (l : list Q) :
  List.Forall (fun x => 0 <= x) l -> 0 <= pysum l.
Proof.
induction 1 as [|x l Hx Hl IH].
- unfold pysum; cbn. lra.
- rewrite Q_pysum_cons. lra.
Qed.

(** ** Intra-platform detector: allocation, errors, returns, scan *)

Section ReturnsFacts.
Import PolymarketClient ArbitrageScanner.

Lemma allocate_fresh (names : list string) (pre ps : list Q) (total : Q)
    (acc : dict Q) :
  ~ total == 0 ->
  length names = length ps ->
  NoDup (dict_keys acc ++ names) ->
  allocate names (length pre) (pre ++ ps) total acc
  = Ok (acc ++ combine names (map (fun p => p / total) ps))%list.
Proof.
intros Ht. revert pre ps acc.
induction names as [|n names IH]; intros pre ps acc Hlen Hnd.
- cbn. now rewrite app_nil_r.
- destruct ps as [|p ps]; [discriminate|].
  cbn [allocate]. rewrite nth_error_app2 by apply Nat.le_refl.
  rewrite Nat.sub_diag. cbn [nth_error].
  rewrite (Q_fdiv_ok p total Ht). cbn [rbind].
  rewrite dict_set_fresh.
  + replace (pre ++ p :: ps)%list with ((pre ++ [p]) ++ ps)%list
      by now rewrite <- app_assoc.
    replace (S (length pre)) with (length (pre ++ [p])%list)
      by (rewrite length_app; cbn; lia).
    rewrite IH.
    * cbn [combine map]. now rewrite <- app_assoc.
    * cbn in Hlen. lia.
    * unfold dict_keys. rewrite map_app. cbn [map fst].
      rewrite <- app_assoc. exact Hnd.
  + intros Hin. apply NoDup_app in Hnd. destruct Hnd as (_ & Hdis & _).
    apply (Hdis n); [now apply list_elem_of_In|left].
Qed.

Lemma allocate_keys_NoDup {F : Type} `{PyFloat F} (names : list string)
    (i : nat) (prices : list F) (total : F) (acc d : dict F) :
  NoDup (dict_keys acc) ->
  allocate names i prices total acc = Ok d ->
  NoDup (dict_keys d).
Proof.
revert i acc. induction names as [|n names IH]; intros i acc Hacc; cbn [allocate].
- now intros [= <-].
- destruct (nth_error prices i) as [p|]; [|discriminate].
  destruct (fdiv p total) as [a|e]; cbn [rbind]; [|discriminate].
  apply IH. now apply dict_set_NoDup.
Qed.



(** What [_analyze_market] does once the market passed its three tests
    and the total is not zero. *)
Lemma analyze_market_live (cfg : Config Q) (m : Market Q) :
  closed m = false -> active m = true ->
  (2 <= length (outcome_prices m))%nat ->
  pysum (outcome_prices m) < 1 ->
  ~ pysum (outcome_prices m) == 0 ->
  _analyze_market cfg m =
  rbind (allocate (outcomes m) 0 (outcome_prices m) (pysum (outcome_prices m)) [])
    (fun alloc =>
       Ok (Some {| market := m;
                   type := if (length (outcomes m) =? 2)%nat
                           then binary else multi_outcome;
                   total_cost := pysum (outcome_prices m);
                   gross_profit_pct :=
                     (1 - pysum (outcome_prices m)) / pysum (outcome_prices m)
                     * 100;
                   net_profit_pct :=
                     (1 - pysum (outcome_prices m)) / pysum (outcome_prices m)
                     * 100
                     - TRADING_FEE cfg * (1 / pysum (outcome_prices m)) * 100;
                   optimal_allocation := alloc |})).
Proof.
intros Hc Ha Hlen Hlt Hnz. unfold _analyze_market.
rewrite Hc, Ha. cbn [orb negb].
destruct (Nat.ltb_spec (length (outcome_prices m)) 2) as [Hl|_]; [lia|].
qsimp. rewrite (proj2 (Q_fle_false 1 (pysum (outcome_prices m))) Hlt).
rewrite !Q_fdiv_ok by exact Hnz. reflexivity.
Qed.

(** What an opportunity returned by [_analyze_market] carries. *)
Lemma analyze_market_inv (cfg : Config Q) (m : Market Q)
    (opp : ArbitrageOpportunity Q) :
  _analyze_market cfg m = Ok (Some opp) ->
  closed m = false /\ active m = true /\
  (2 <= length (outcome_prices m))%nat /\
  pysum (outcome_prices m) < 1 /\
  ~ pysum (outcome_prices m) == 0 /\
  market opp = m /\
  total_cost opp = pysum (outcome_prices m) /\
  gross_profit_pct opp
    = (1 - pysum (outcome_prices m)) / pysum (outcome_prices m) * 100 /\
  net_profit_pct opp
    = (1 - pysum (outcome_prices m)) / pysum (outcome_prices m) * 100
      - TRADING_FEE cfg * (1 / pysum (outcome_prices m)) * 100 /\
  NoDup (dict_keys (optimal_allocation opp)).
Proof.
intros Hopp.
assert (Hc : closed m = false /\ active m = true).
{ unfold _analyze_market in Hopp.
  destruct (closed m), (active m); try discriminate. now split. }
destruct Hc as [Hc Ha].
assert (Hlen : (2 <= length (outcome_prices m))%nat).
{ unfold _analyze_market in Hopp. rewrite Hc, Ha in Hopp. cbn [orb negb] in Hopp.
  destruct (Nat.ltb_spec (length (outcome_prices m)) 2); [discriminate|lia]. }
assert (Hlt : pysum (outcome_prices m) < 1).
{ unfold _analyze_market in Hopp. rewrite Hc, Ha in Hopp. cbn [orb negb] in Hopp.
  destruct (length (outcome_prices m) <? 2)%nat; [discriminate|].
  destruct (fle (lit 1) (pysum (outcome_prices m))) eqn:E; [discriminate|].
  now apply Q_fle_false in E. }
assert (Hnz : ~ pysum (outcome_prices m) == 0).
{ intros Hz. unfold _analyze_market in Hopp.
  rewrite Hc, Ha in Hopp. cbn [orb negb] in Hopp.
  destruct (length (outcome_prices m) <? 2)%nat; [discriminate|].
  destruct (fle (lit 1) (pysum (outcome_prices m))); [discriminate|].
  rewrite (Q_fdiv_zero _ _ Hz) in Hopp. discriminate. }
rewrite (analyze_market_live cfg m Hc Ha Hlen Hlt Hnz) in Hopp.
destruct (allocate (outcomes m) 0 (outcome_prices m) (pysum (outcome_prices m)) [])
  as [alloc|e] eqn:Ealloc; cbn [rbind] in Hopp; [|discriminate].
injection Hopp as <-. cbn.
repeat split; try assumption; try reflexivity.
apply (allocate_keys_NoDup _ _ _ _ [] _ (NoDup_nil_2 (A:=string)) Ealloc).
Qed.

(** X1. For an active, open market with any number (at least two) of
    distinctly named outcomes, one price each, whose prices sum to a
    non-zero total below 1, [_analyze_market] returns an opportunity whose
    allocation gives every outcome its price divided by the total, in the
    order of the outcomes; the allocations sum to 1, and the type is
    binary exactly when there are two outcomes. *)
Theorem analyze_market_allocation_sums_to_one (cfg : Config Q) (m : Market Q) :
  closed m = false -> active m = true ->
  NoDup (outcomes m) ->
  length (outcomes m) = length (outcome_prices m) ->
  (2 <= length (outcome_prices m))%nat ->
  pysum (outcome_prices m) < 1 ->
  ~ pysum (outcome_prices m) == 0 ->
  exists opp,
    _analyze_market cfg m = Ok (Some opp) /\
    optimal_allocation opp
      = combine (outcomes m)
                (map (fun p => p / pysum (outcome_prices m)) (outcome_prices m)) /\
    pysum (map snd (optimal_allocation opp)) == 1 /\
    (type opp = binary <-> length (outcomes m) = 2%nat).
Proof.
intros Hc Ha Hnd Hlen H2 Hlt Hnz.
rewrite (analyze_market_live cfg m Hc Ha H2 Hlt Hnz).
pose proof (allocate_fresh (outcomes m) [] (outcome_prices m) _ [] Hnz Hlen Hnd)
  as Halloc.
cbn [length app dict_keys map] in Halloc. rewrite Halloc. cbn [rbind]. eexists. split; [reflexivity|]. cbn [optimal_allocation type app].
split; [reflexivity|]. split.
- rewrite map_snd_combine by (rewrite length_map; exact Hlen).
  rewrite Q_pysum_div. now field.
- destruct (Nat.eqb_spec (length (outcomes m)) 2) as [E|E]; split;
    intros; try assumption; try reflexivity; try discriminate; contradiction.
Qed.

Lemma analyze_market_allocation_sums_to_one_witness :
  exists opp,
    _analyze_market config (three_way_market (30 # 100) (30 # 100) (30 # 100)
                              : Market Q) = Ok (Some opp) /\
    optimal_allocation opp
      = combine ["Alice"; "Bob"; "Carol"]
                (map (fun p => p / pysum [30 # 100; 30 # 100; 30 # 100])
                     [30 # 100; 30 # 100; 30 # 100]) /\
    pysum (map snd (optimal_allocation opp)) == 1 /\
    (type opp = binary <-> 3%nat = 2%nat).
Proof.
assert (Hnames : NoDup ["Alice"; "Bob"; "Carol"]).
{ repeat constructor; rewrite !list_elem_of_In; cbn; intuition discriminate. }
assert (Hlt : pysum [30 # 100; 30 # 100; 30 # 100] < 1)
  by (vm_compute; reflexivity).
assert (Hnz : ~ pysum [30 # 100; 30 # 100; 30 # 100] == 0)
  by (vm_compute; discriminate).
exact (analyze_market_allocation_sums_to_one config
         (three_way_market (30 # 100) (30 # 100) (30 # 100))
         eq_refl eq_refl Hnames eq_refl (le_S _ _ (le_n 2)) Hlt Hnz).
Defined.



(** X3. For an opportunity returned by [_analyze_market] and any
    investment, [calculate_returns] returns: the guaranteed return times
    the total cost is the investment, the allocations are the allocation
    shares scaled by the investment, the net profit is the investment times
    the net profit percentage, and the ROI it reports is the opportunity's
    net profit percentage for a positive investment and 0 otherwise. *)
Theorem calculate_returns_matches_opportunity (cfg : Config Q) (m : Market Q)
    (opp : ArbitrageOpportunity Q) (invest : Q) :
  _analyze_market cfg m = Ok (Some opp) ->
  exists r,
    calculate_returns cfg opp invest = Ok r /\
    guaranteed_return r * total_cost opp == invest /\
    allocations r
      = map (fun kv => (fst kv, invest * snd kv)) (optimal_allocation opp) /\
    pysum (map snd (allocations r))
      == invest * pysum (map snd (optimal_allocation opp)) /\
    net_profit r * 100 == invest * net_profit_pct opp /\
    (0 < invest -> roi_pct r == net_profit_pct opp) /\
    (invest <= 0 -> roi_pct r == 0).
Proof.
intros Hopp. apply analyze_market_inv in Hopp.
destruct Hopp as (_ & _ & _ & _ & Hnz & _ & Ht & Hg & Hn & Hnd).
assert (Hsum : pysum (map snd (map (fun kv : string * Q => (fst kv, invest * snd kv))
                                   (optimal_allocation opp)))
               == invest * pysum (map snd (optimal_allocation opp))).
{ rewrite map_map. cbn [snd].
  rewrite <- (map_map snd (fun x => invest * x)). apply Q_pysum_scale. }
unfold calculate_returns. rewrite Ht, (Q_fdiv_ok invest _ Hnz). cbn [rbind].
rewrite (dict_rebuild (fun ratio => fmul invest ratio) (optimal_allocation opp) [])
  by exact Hnd.
cbn [app]. qsimp.
destruct (flt 0 invest) eqn:Epos.
- apply Q_flt_true in Epos.
  rewrite Q_fdiv_ok by lra. cbn [rbind].
  eexists. split; [reflexivity|].
  cbn [guaranteed_return allocations net_profit roi_pct].
  rewrite Hn.
  split; [now field|]. split; [reflexivity|]. split; [exact Hsum|].
  split; [now field|]. split.
  + intros _. field. split; [exact Hnz|lra].
  + intros Hle. lra.
- apply Q_flt_false in Epos. cbn [rbind].
  eexists. split; [reflexivity|].
  cbn [guaranteed_return allocations net_profit roi_pct].
  rewrite Hn.
  split; [now field|]. split; [reflexivity|]. split; [exact Hsum|].
  split; [now field|]. split.
  + intros Hpos. lra.
  + intros _. reflexivity.
Qed.

Lemma calculate_returns_matches_opportunity_witness :
  exists opp r,
    _analyze_market config (binary_market (40 # 100) (55 # 100) : Market Q)
      = Ok (Some opp) /\
    calculate_returns config opp 100 = Ok r /\
    guaranteed_return r * total_cost opp == 100 /\
    roi_pct r == net_profit_pct opp.
Proof.
assert (E : { opp : ArbitrageOpportunity Q |
              _analyze_market config (binary_market (40 # 100) (55 # 100))
              = Ok (Some opp) })
  by (eexists; vm_compute; reflexivity).
destruct E as [opp E].
destruct (calculate_returns_matches_opportunity config _ opp 100 E)
  as (r & H1 & H2 & _ & _ & _ & H6 & _).
exists opp, r. repeat split; try assumption. apply H6. reflexivity.
Defined.

(** X4. The two views of one market agree.  When [_analyze_market]
    returns an opportunity, the market's own [arbitrage_opportunity] is the
    opportunity's gross profit percentage; and with a non-negative fee and
    non-negative prices, an opportunity that is profitable after fees is on
    a market for which [has_arbitrage] holds. *)
Theorem market_arbitrage_agrees_with_scanner (cfg : Config Q) (m : Market Q)
    (opp : ArbitrageOpportunity Q) :
  _analyze_market cfg m = Ok (Some opp) ->
  total_price m = total_cost opp /\
  arbitrage_opportunity m = Ok (gross_profit_pct opp) /\
  (0 <= TRADING_FEE cfg ->
   List.Forall (fun p => 0 <= p) (outcome_prices m) ->
   is_profitable cfg opp = true ->
   has_arbitrage cfg m = Ok true).
Proof.
intros Hopp. apply analyze_market_inv in Hopp.
destruct Hopp as (_ & _ & _ & Hlt & Hnz & _ & Ht & Hg & Hn & _).
assert (Harb : arbitrage_opportunity m = Ok (gross_profit_pct opp)).
{ unfold arbitrage_opportunity, total_price. qsimp.
  rewrite (proj2 (Q_flt_true _ 1) Hlt), (Q_fdiv_ok _ _ Hnz). cbn [rbind].
  now rewrite Hg. }
split; [now rewrite Ht|]. split; [exact Harb|].
intros Hfee Hpos Hprof. unfold has_arbitrage. rewrite Harb. cbn [rbind].
f_equal. unfold is_profitable in Hprof.
apply Q_flt_true in Hprof. apply Q_flt_true.
apply Q_pysum_nonneg in Hpos.
assert (Htpos : 0 < pysum (outcome_prices m)).
{ apply Qle_lteq in Hpos. destruct Hpos as [Hpos|Hz]; [exact Hpos|].
  exfalso. apply Hnz. now symmetry. }
rewrite Hn in Hprof. rewrite Hg.
assert (Hfee_pct : 0 <= TRADING_FEE cfg * (1 / pysum (outcome_prices m)) * 100).
{ apply Qmult_le_0_compat; [|lra].
  apply Qmult_le_0_compat; [exact Hfee|].
  apply Qlt_le_weak. apply Qlt_shift_div_l; [exact Htpos|lra]. }
lra.
Qed.

Lemma market_arbitrage_agrees_with_scanner_witness :
  exists opp,
    _analyze_market config (binary_market (40 # 100) (55 # 100) : Market Q)
      = Ok (Some opp) /\
    arbitrage_opportunity (binary_market (40 # 100) (55 # 100) : Market Q)
      = Ok (gross_profit_pct opp) /\
    has_arbitrage config (binary_market (40 # 100) (55 # 100) : Market Q)
      = Ok true.
Proof.
assert (E : { opp : ArbitrageOpportunity Q |
              _analyze_market config (binary_market (40 # 100) (55 # 100))
              = Ok (Some opp) })
  by (eexists; vm_compute; reflexivity).
destruct E as [opp E].
destruct (market_arbitrage_agrees_with_scanner config _ opp E) as (_ & H1 & H2).
exists opp. split; [exact E|]. split; [exact H1|].
apply H2.
- vm_compute. discriminate.
- repeat constructor; vm_compute; discriminate.
- injection E as <-. vm_compute. reflexivity.
Defined.

(** The converse fails: at Yes = 0.50, No = 0.49 the market has
    arbitrage by its own account, and the opportunity is not profitable
    after fees. *)
Lemma has_arbitrage_is_not_profitability :
  exists opp,
    _analyze_market config (binary_market (50 # 100) (49 # 100) : Market Q)
      = Ok (Some opp) /\
    has_arbitrage config (binary_market (50 # 100) (49 # 100) : Market Q)
      = Ok true /\
    is_profitable config opp = false.
Proof. eexists. repeat split; vm_compute; reflexivity. Qed.

(** X5. The accessors of a market raise on a zero total.  In exact
    arithmetic [arbitrage_opportunity] and [has_arbitrage] raise
    ZeroDivisionError exactly when the prices sum to zero; at a total of 1
    or more the opportunity is 0, and strictly between 0 and 1 it is
    positive. *)
Theorem market_arbitrage_edge_cases (cfg : Config Q) (m : Market Q) :
  (arbitrage_opportunity m = Raise ZeroDivisionError <-> total_price m == 0) /\
  (has_arbitrage cfg m = Raise ZeroDivisionError <-> total_price m == 0) /\
  (1 <= total_price m -> arbitrage_opportunity m = Ok 0) /\
  (0 < total_price m -> total_price m < 1 ->
   exists a, arbitrage_opportunity m = Ok a /\ 0 < a).
Proof.
unfold has_arbitrage, arbitrage_opportunity. qsimp.
destruct (Qlt_le_dec (total_price m) 1) as [Hlt|Hge].
- rewrite (proj2 (Q_flt_true _ 1) Hlt).
  destruct (Qeq_dec (total_price m) 0) as [Hz|Hnz].
  + rewrite (Q_fdiv_zero _ _ Hz). cbn [rbind].
    repeat split; intros; try assumption; try reflexivity; lra.
  + rewrite (Q_fdiv_ok _ _ Hnz). cbn [rbind].
    repeat split; intros Hx; try discriminate; try contradiction; try lra.
    intros _. eexists. split; [reflexivity|].
    apply Qmult_lt_0_compat; [|lra].
    apply Qlt_shift_div_l; [exact Hx|lra].
- rewrite (proj2 (Q_flt_false _ 1) Hge). cbn [rbind].
  repeat split; intros Hx; try discriminate; try reflexivity; lra.
Qed.

Lemma scan_markets_In {F : Type} `{PyFloat F} (cfg : Config F)
    (markets : list (Market F)) (kept : list (ArbitrageOpportunity F)) :
  scan_markets cfg markets = Ok kept ->
  forall opp, In opp kept ->
    is_profitable cfg opp = true /\
    exists m, In m markets /\ _analyze_market cfg m = Ok (Some opp).
Proof.
revert kept. induction markets as [|m markets IH]; intros kept; cbn [scan_markets].
- intros [= <-] opp [].
- destruct (_analyze_market cfg m) as [o|e] eqn:Em; cbn [rbind]; [|discriminate].
  destruct (scan_markets cfg markets) as [opps|e]; cbn [rbind]; [|discriminate].
  intros [= <-] opp Hin.
  assert (Hrest : In opp opps ->
    is_profitable cfg opp = true /\
    exists m0, In m0 (m :: markets) /\ _analyze_market cfg m0 = Ok (Some opp)).
  { intros Hin'. destruct (IH opps eq_refl opp Hin') as (Hp & m0 & Hm0 & Ho).
    split; [exact Hp|]. exists m0. split; [now right|exact Ho]. }
  destruct o as [o|]; [|now apply Hrest].
  destruct (is_profitable cfg o) eqn:Ep; [|now apply Hrest].
  destruct Hin as [<-|Hin]; [|now apply Hrest].
  split; [exact Ep|]. exists m. split; [now left|exact Em].
Qed.

(** X6. What [scan] returns: the opportunities kept by the loop, in
    descending order of net profit percentage; each is profitable after
    fees and is what [_analyze_market] returned for one of the markets; and
    an already ordered result is left as it is. *)
Theorem scan_sorted_profitable (cfg : Config Q) (markets : list (Market Q))
    (opps : list (ArbitrageOpportunity Q)) :
  scan cfg markets = Ok opps ->
  descending net_profit_pct opps /\
  (exists kept,
     scan_markets cfg markets = Ok kept /\ Permutation opps kept /\
     (descending net_profit_pct kept -> opps = kept)) /\
  (forall opp, In opp opps ->
     is_profitable cfg opp = true /\
     exists m, In m markets /\ _analyze_market cfg m = Ok (Some opp)).
Proof.
intros Hscan.
assert (Hk : exists kept, scan_markets cfg markets = Ok kept /\
                          opps = sort_by_reverse net_profit_pct kept).
{ unfold scan in Hscan. destruct markets as [|m markets].
  - injection Hscan as <-. exists []. split; reflexivity.
  - destruct (scan_markets cfg (m :: markets)) as [kept|e];
      cbn [rbind] in Hscan; [|discriminate].
    injection Hscan as <-. now exists kept. }
destruct Hk as (kept & Hkept & ->).
split; [apply sort_by_reverse_descending|]. split.
- exists kept. split; [exact Hkept|]. split.
  + apply sort_by_reverse_perm.
  + apply sort_by_reverse_sorted_input.
- intros opp Hin. apply (scan_markets_In cfg markets kept Hkept).
  apply (Permutation_in _ (sort_by_reverse_perm net_profit_pct kept) Hin).
Qed.

Lemma scan_sorted_profitable_witness :
  exists opps,
    scan config [ binary_market (50 # 100) (49 # 100);
                  binary_market (40 # 100) (55 # 100);
                  binary_market (45 # 100) (45 # 100) : Market Q ] = Ok opps /\
    length opps = 2%nat /\
    descending net_profit_pct opps.
Proof.
assert (E : { opps : list (ArbitrageOpportunity Q) |
              scan config [ binary_market (50 # 100) (49 # 100);
                            binary_market (40 # 100) (55 # 100);
                            binary_market (45 # 100) (45 # 100) ] = Ok opps })
  by (eexists; vm_compute; reflexivity).
destruct E as [opps E].
exists opps. split; [exact E|]. split.
- injection E as <-. reflexivity.
- apply (scan_sorted_profitable config _ opps E).
Defined.

(** X7. One failing market fails the whole scan.  For either
    arithmetic, [scan] raises an exception exactly when [_analyze_market]
    raises it on some market and returns on all the markets before it:
    nothing found on the other markets is reported. *)
Theorem scan_raises_with_first_failing_market
    {F : Type} `{PyFloat F} (cfg : Config F) (markets : list (Market F))
    (e : exn) :
  scan cfg markets = Raise e <->
  exists before bad rest,
    markets = (before ++ bad :: rest)%list /\
    (forall m, In m before -> exists o, _analyze_market cfg m = Ok o) /\
    _analyze_market cfg bad = Raise e.
Proof.
assert (Hscan : scan cfg markets = Raise e <-> scan_markets cfg markets = Raise e).
{ unfold scan. destruct markets as [|m markets].
  - cbn. split; discriminate.
  - destruct (scan_markets cfg (m :: markets)); cbn [rbind];
      split; intros Hx; (discriminate || exact Hx). }
rewrite Hscan. clear Hscan.
induction markets as [|m markets IH]; cbn [scan_markets].
- split; [discriminate|]. intros (before & bad & rest & Hm & _).
  now destruct before.
- destruct (_analyze_market cfg m) as [o|e'] eqn:Em; cbn [rbind].
  + destruct (scan_markets cfg markets) as [opps|e'']; cbn [rbind].
    * split; [discriminate|].
      intros (before & bad & rest & Hm & Hb & Hbad).
      destruct before as [|m' before]; cbn in Hm; injection Hm as -> ->.
      -- congruence.
      -- assert (Hx : Ok opps = Raise e :> result (list (ArbitrageOpportunity F))).
         { apply IH. exists before, bad, rest. split; [reflexivity|].
           split; [|exact Hbad]. intros m0 Hm0. apply Hb. now right. }
         discriminate.
    * split.
      -- intros Hx. apply IH in Hx.
         destruct Hx as (before & bad & rest & -> & Hb & Hbad).
         exists (m :: before), bad, rest. split; [reflexivity|].
         split; [|exact Hbad]. intros m0 [<-|Hm0]; [now exists o|now apply Hb].
      -- intros (before & bad & rest & Hm & Hb & Hbad).
         destruct before as [|m' before]; cbn in Hm; injection Hm as -> ->.
         ++ congruence.
         ++ apply IH. exists before, bad, rest. split; [reflexivity|].
            split; [|exact Hbad]. intros m0 Hm0. apply Hb. now right.
  + split.
    * intros [= ->]. exists [], m, markets. split; [reflexivity|].
      split; [intros m0 []|exact Em].
    * intros (before & bad & rest & Hm & Hb & Hbad).
      destruct before as [|m' before]; cbn in Hm; injection Hm as -> ->.
      -- congruence.
      -- destruct (Hb m' (or_introl eq_refl)) as [o Ho]. congruence.
Qed.

End ReturnsFacts.

(** ** Grouping loops *)

Section GroupingFacts.
Context {A : Type}.
Variable key : A -> string.

Lemma group_loop_get (ms : list A) (acc : dict (list A)) (k : string) :
  dict_get (group_loop key ms acc) k
  = match dict_get acc k with
    | Some l => Some (l ++ List.filter (fun m => String.eqb (key m) k) ms)%list
    | None =>
        match List.filter (fun m => String.eqb (key m) k) ms with
        | [] => None
        | l => Some l
        end
    end.
Proof.
unfold group_loop. revert acc.
induction ms as [|m ms IH]; intros acc; cbn [fold_left List.filter].
- destruct (dict_get acc k); [now rewrite app_nil_r|reflexivity].
- rewrite IH. destruct (String.eqb (key m) k) eqn:E.
  + apply String.eqb_eq in E. subst k.
    destruct (dict_get acc (key m)) as [l|];
      rewrite dict_get_set_eq; [now rewrite <- app_assoc|reflexivity].
  + apply String.eqb_neq in E.
    destruct (dict_get acc (key m)) as [l|];
      now rewrite dict_get_set_neq by exact E.
Qed.

Lemma group_loop_NoDup (ms : list A) (acc : dict (list A)) :
  NoDup (dict_keys acc) -> NoDup (dict_keys (group_loop key ms acc)).
Proof.
unfold group_loop. revert acc.
induction ms as [|m ms IH]; intros acc Hacc; cbn [fold_left]; [exact Hacc|].
apply IH. destruct (dict_get acc (key m)); now apply dict_set_NoDup.
Qed.

Lemma group_loop_keys (ms : list A) (acc : dict (list A)) (k : string) :
  In k (dict_keys (group_loop key ms acc)) <->
  In k (dict_keys acc) \/ In k (map key ms).
Proof.
unfold group_loop. revert acc.
induction ms as [|m ms IH]; intros acc; cbn [fold_left map In]; [tauto|].
rewrite IH.
assert (Hk : In k (dict_keys
               match dict_get acc (key m) with
               | Some l => dict_set acc (key m) (l ++ [m])%list
               | None => dict_set acc (key m) [m]
               end) <-> k = key m \/ In k (dict_keys acc))
  by (destruct (dict_get acc (key m)); apply dict_set_keys_incl).
rewrite Hk. intuition congruence.
Qed.

Lemma group_loop_head (ms : list A) (k0 : string) (l0 : list A)
    (r : dict (list A)) :
  exists l r', group_loop key ms ((k0, l0) :: r) = (k0, l) :: r'.
Proof.
unfold group_loop. revert l0 r.
induction ms as [|m ms IH]; intros l0 r; cbn [fold_left].
- now exists l0, r.
- cbn [dict_get]. destruct (String.eqb k0 (key m)) eqn:E.
  + cbn [dict_set]. rewrite E. apply IH.
  + destruct (dict_get r (key m)); cbn [dict_set]; rewrite E; apply IH.
Qed.

(** The groups of a list: distinct keys, the first key being the key of
    the first item, and under each key exactly the items of that key, in
    their order. *)
Lemma group_loop_spec (ms : list A) :
  NoDup (dict_keys (group_loop key ms [])) /\
  (forall k l, In (k, l) (group_loop key ms []) <->
     l <> [] /\ l = List.filter (fun m => String.eqb (key m) k) ms) /\
  (forall m ms', ms = m :: ms' ->
     exists l r, group_loop key ms [] = (key m, l) :: r).
Proof.
assert (Hnd : NoDup (dict_keys (group_loop key ms []))).
{ apply group_loop_NoDup. constructor. }
split; [exact Hnd|]. split.
- intros k l. split.
  + intros Hin. apply (dict_In_get _ _ _ Hnd) in Hin.
    rewrite group_loop_get in Hin. cbn [dict_get] in Hin.
    destruct (List.filter _ ms) as [|x f] eqn:Ef; [discriminate|].
    injection Hin as <-. split; [discriminate|reflexivity].
  + intros [Hne ->]. apply dict_get_In. rewrite group_loop_get. cbn [dict_get].
    destruct (List.filter _ ms); [contradiction|reflexivity].
- intros m ms' ->. unfold group_loop. cbn [fold_left dict_get dict_set].
  apply (group_loop_head ms' (key m) [m] []).
Qed.
End GroupingFacts.

(** ** Event matcher: the events it builds *)

Section MatcherFacts.
Import Base EventMatcher.

Lemma group_by_platform_is_loop {F : Type} `{PyFloat F}
    (ms : list (PlatformMarket F)) :
  group_by_platform ms = group_loop platform ms [].
Proof. reflexivity. Qed.

Lemma is_used_false (used : gset string) (k : string) :
  is_used used k = false <-> k ∉ used.
Proof. unfold is_used. apply bool_decide_eq_false. Qed.

(** A selected candidate was unused, and scored at least the threshold. *)
Lemma best_candidate_sound {F : Type} `{PyFloat F} (thr : F)
    (market : PlatformMarket F) (kws used : gset string)
    (cands : list (PlatformMarket F)) (bm : option (PlatformMarket F * F))
    (bs : F) (c : PlatformMarket F) (s : F) :
  best_candidate thr market kws used cands bm bs = Ok (Some (c, s)) ->
  bm = Some (c, s) \/
  (In c cands /\ is_used used (market_key c) = false /\
   _calculate_similarity market c (Some kws) = Ok s /\ fle thr s = true).
Proof.
revert bm bs. induction cands as [|cand rest IH]; intros bm bs Hres.
- left. cbn in Hres. congruence.
- cbn [best_candidate] in Hres.
  destruct (is_used used (market_key cand)) eqn:Eu.
  { destruct (IH _ _ Hres) as [Hl|(Hin & Hr)]; [now left|right].
    split; [now right|exact Hr]. }
  destruct (_calculate_similarity market cand (Some kws)) as [score|e] eqn:Es;
    cbn [rbind] in Hres; [|discriminate].
  destruct (flt bs score && fle thr score) eqn:Ec.
  + apply andb_true_iff in Ec as [_ Ethr].
    destruct (IH _ _ Hres) as [Hl|(Hin & Hr)].
    * injection Hl as <- <-. right. split; [now left|]. now repeat split.
    * right. split; [now right|exact Hr].
  + destruct (IH _ _ Hres) as [Hl|(Hin & Hr)]; [now left|right].
    split; [now right|exact Hr].
Qed.

Lemma collect_matches_sound {F : Type} `{PyFloat F} (thr : F)
    (bp : dict (list (PlatformMarket F))) (market : PlatformMarket F)
    (kws used : gset string) (others : list string)
    (matches : list (PlatformMarket F * F)) :
  collect_matches thr bp market kws used others = Ok matches ->
  forall c s, In (c, s) matches ->
    exists other cands,
      In other others /\ dict_get bp other = Some cands /\ In c cands /\
      is_used used (market_key c) = false /\
      _calculate_similarity market c (Some kws) = Ok s /\ fle thr s = true.
Proof.
revert matches. induction others as [|other rest IH]; intros matches;
  cbn [collect_matches].
- intros [= <-] c s [].
- destruct (best_candidate thr market kws used _ None (lit 0)) as [best|e] eqn:Eb;
    cbn [rbind]; [|discriminate].
  destruct (collect_matches thr bp market kws used rest) as [more|e];
    cbn [rbind]; [|discriminate].
  intros [= <-] c s Hin.
  assert (Hmore : In (c, s) more ->
    exists other0 cands,
      In other0 (other :: rest) /\ dict_get bp other0 = Some cands /\ In c cands /\
      is_used used (market_key c) = false /\
      _calculate_similarity market c (Some kws) = Ok s /\ fle thr s = true).
  { intros Hin'. destruct (IH more eq_refl c s Hin') as (o & cs & Ho & Hr).
    exists o, cs. split; [now right|exact Hr]. }
  destruct best as [[c' s']|]; [|now apply Hmore].
  destruct Hin as [E|Hin]; [|now apply Hmore].
  injection E as -> ->.
  apply best_candidate_sound in Eb. destruct Eb as [Hx|(Hc & Hr)]; [discriminate|].
  destruct (dict_get bp other) as [cands|] eqn:Eg; [|destruct Hc].
  exists other, cands. split; [now left|]. split; [exact Eg|].
  split; [exact Hc|exact Hr].
Qed.

(** What the adding loop changes of an event. *)
Lemma add_matches_shape {F : Type} `{PyFloat F}
    (matches : list (PlatformMarket F * F)) (event : MatchedEvent F)
    (used : gset string) (event' : MatchedEvent F) (used' : gset string) :
  add_matches matches event used = (event', used') ->
  keywords event' = keywords event /\
  needs_verification event' = needs_verification event /\
  (used ⊆ used') /\
  (NoDup (dict_keys (markets event)) -> NoDup (dict_keys (markets event'))) /\
  (forall p m, In (p, m) (markets event') ->
     In (p, m) (markets event) \/
     (p = platform m /\ (exists s, In (m, s) matches) /\
      (market_key m ∉ used) /\ (market_key m ∈ used'))) /\
  (forall k0 v0 r,
     markets event = (k0, v0) :: r ->
     (forall m s, In (m, s) matches -> platform m <> k0) ->
     exists r', markets event' = (k0, v0) :: r').
Proof.
revert event used. induction matches as [|[mm conf] rest IH]; intros event used;
  cbn [add_matches].
- intros [= <- <-]. repeat split; try reflexivity; try tauto.
  intros k0 v0 r Hm _. now exists r.
- destruct (is_used used (market_key mm)) eqn:Eu.
  + intros Hadd. destruct (IH _ _ Hadd) as (Hk & Hn & Hu & Hnd & Hin & Hhd).
    repeat split; try assumption.
    * intros p m Hpm. destruct (Hin p m Hpm) as [Hl|(Hp & [s Hs] & Hr)];
        [now left|right]. split; [exact Hp|]. split; [|exact Hr].
      exists s. now right.
    * intros k0 v0 r Hm Hne. apply (Hhd k0 v0 r Hm).
      intros m s Hms. apply (Hne m s). now right.
  + apply is_used_false in Eu. intros Hadd.
    destruct (IH _ _ Hadd) as (Hk & Hn & Hu & Hnd & Hin & Hhd).
    cbn [keywords needs_verification markets] in Hk, Hn, Hnd, Hin, Hhd.
    repeat split; try assumption.
    * transitivity ({[market_key mm]} ∪ used); [apply union_subseteq_r|exact Hu].
    * intros Hnd0. apply Hnd. now apply dict_set_NoDup.
    * intros p m Hpm. destruct (Hin p m Hpm) as [Hl|(Hp & [s Hs] & Hnu & Hu')].
      -- apply dict_set_In in Hl. destruct Hl as [[<- ->]|Hl]; [|now left].
         right. split; [reflexivity|]. split; [exists conf; now left|].
         split; [exact Eu|]. apply Hu, elem_of_union_l, elem_of_singleton.
         reflexivity.
      -- right. split; [exact Hp|]. split; [exists s; now right|].
         split; [|exact Hu'].
         intros Hx. apply Hnu, elem_of_union_r. exact Hx.
    * intros k0 v0 r Hm Hne. 
      assert (Hmm : platform mm <> k0) by (apply (Hne mm conf); now left).
      apply (Hhd k0 v0 (dict_set r (platform mm) mm)).
      -- rewrite Hm. cbn [dict_set].
         destruct (String.eqb k0 (platform mm)) eqn:E; [|reflexivity].
         apply String.eqb_eq in E. congruence.
      -- intros m s Hms. apply (Hne m s). now right.
Qed.

Lemma ForallOrdPairs_snoc {A : Type} (R : A -> A -> Prop) (l : list A) (x : A) :
  ForallOrdPairs R l -> List.Forall (fun y => R y x) l ->
  ForallOrdPairs R (l ++ [x]).
Proof.
induction 1 as [|a l Ha Hl IH]; intros Hx; cbn [app].
- constructor; constructor.
- inversion Hx; subst. constructor; [|now apply IH].
  apply Forall_app. split; [exact Ha|]. now repeat constructor.
Qed.

(** The main loop keeps two facts about the events built so far: each is
    built around a market of the first platform, and no two of them hold
    markets of the same key. *)
Lemma match_loop_inv {F : Type} `{PyFloat F} (thr : F)
    (ms : list (PlatformMarket F)) (bp : dict (list (PlatformMarket F)))
    (p0 : string) (others : list string) :
  (forall p l, dict_get bp p = Some l ->
     forall m, In m l -> platform m = p /\ In m ms) ->
  ~ In p0 others ->
  forall (mains : list (PlatformMarket F)) (used : gset string)
         (events out : list (MatchedEvent F)),
  (forall m, In m mains -> platform m = p0 /\ In m ms) ->
  (forall ev, In ev events ->
     (exists main, In main ms /\ platform main = p0 /\
                   matched_from thr ms main ev) /\
     forall p m, In (p, m) (markets ev) -> market_key m ∈ used) ->
  ForallOrdPairs disjoint_events events ->
  match_loop thr bp others mains used events = Ok out ->
  (forall ev, In ev out ->
     exists main, In main ms /\ platform main = p0 /\
                  matched_from thr ms main ev) /\
  ForallOrdPairs disjoint_events out.
Proof.
intros Hbp Hp0. induction mains as [|market rest IH];
  intros used events out Hmains Hev Hdis; cbn [match_loop].
{ intros [= <-]. split; [intros ev Hin; apply (Hev ev Hin)|exact Hdis]. }
assert (Hrest : forall m, In m rest -> platform m = p0 /\ In m ms)
  by (intros m Hm; apply Hmains; now right).
destruct (Hmains market (or_introl eq_refl)) as [Hmp Hmin].
assert (Hmono : forall used2 : gset string, used ⊆ used2 ->
  forall ev, In ev events ->
     (exists main, In main ms /\ platform main = p0 /\
                   matched_from thr ms main ev) /\
     forall p m, In (p, m) (markets ev) -> market_key m ∈ used2).
{ intros used2 Hsub ev Hin. destruct (Hev ev Hin) as [He Hk].
  split; [exact He|]. intros p m Hpm. apply Hsub. now apply (Hk p m). }
destruct (is_used used (market_key market)) eqn:Eu; [now apply IH|].
apply is_used_false in Eu.
destruct (nonempty (_extract_keywords (question market))) eqn:Ek; cbn [negb];
  [|now apply IH].
destruct (collect_matches thr bp market _ used others) as [matches|e] eqn:Ec;
  cbn [rbind]; [|discriminate].
pose proof (collect_matches_sound thr bp market _ used others matches Ec) as Hms.
destruct matches as [|mt matches'].
{ apply IH; [exact Hrest| |exact Hdis].
  apply Hmono. apply union_subseteq_r. }
remember (mt :: matches') as matches eqn:Ematches.
destruct (add_matches matches _ _) as [event used'] eqn:Ea.
pose proof (add_matches_shape matches _ _ event used' Ea) as Hshape.
cbn [keywords needs_verification markets] in Hshape.
destruct Hshape as (Hkw & Hnv & Hsub & Hnd & Hin & Hhd).
assert (Hused' : used ⊆ {[market_key market]} ∪ used').
{ transitivity ({[market_key market]} ∪ used); [apply union_subseteq_r|].
  transitivity used'; [exact Hsub|apply union_subseteq_r]. }
assert (Hentries : forall p m, In (p, m) (markets event) ->
  (platform m = p /\ In m ms /\
   (m = market \/
    exists s, _calculate_similarity market m (Some (keywords event)) = Ok s /\
              fle thr s = true)) /\
  (market_key m ∉ used) /\
  (market_key m ∈ {[market_key market]} ∪ used')).
{ intros p m Hpm. destruct (Hin p m Hpm) as [Hl|(Hp & [s Hs] & Hnu & Hu')].
  - cbn [dict_set In] in Hl. destruct Hl as [E|[]]. injection E as <- <-.
    split; [split; [reflexivity|split; [exact Hmin|now left]]|].
    split; [exact Eu|]. apply elem_of_union_l, elem_of_singleton. reflexivity.
  - destruct (Hms m s Hs) as (other & cands & Ho & Hg & Hc & _ & Hsim & Hthr).
    destruct (Hbp other cands Hg m Hc) as [Hpl Hmms].
    split; [split; [now rewrite Hp|split; [exact Hmms|right]]|].
    + exists s. rewrite Hkw. now split.
    + split; [|now apply elem_of_union_r].
      intros Hx. apply Hnu, elem_of_union_r. exact Hx. }
destruct (Nat.ltb_spec 1 (num_platforms event)) as [Hnum|Hnum].
- apply IH; [exact Hrest| |].
  + intros ev Hev'. apply in_app_iff in Hev'. destruct Hev' as [Hold|[<-|[]]].
    * now apply (Hmono _ Hused').
    * split.
      -- exists market. split; [exact Hmin|]. split; [exact Hmp|].
         unfold matched_from.
         destruct (Hhd (platform market) market [] eq_refl) as [r' Hr'].
         { intros m s Hs.
           destruct (Hms m s Hs) as (other & cands & Ho & Hg & Hc & _).
           destruct (Hbp other cands Hg m Hc) as [Hpl _].
           rewrite Hpl, Hmp. intros ->. contradiction. }
         split; [now rewrite Hr'|]. split; [exact Hkw|].
         split; [now rewrite Hkw|]. split; [exact Hnv|].
         split; [apply Hnd; repeat constructor; apply not_elem_of_nil|].
         split; [exact Hnum|].
         intros p m Hpm. apply (Hentries p m Hpm).
      -- intros p m Hpm. apply (Hentries p m Hpm).
  + apply ForallOrdPairs_snoc; [exact Hdis|].
    apply List.Forall_forall. intros old Hold p1 m1 p2 m2 H1 H2 Heq.
    destruct (Hev old Hold) as [_ Hk].
    destruct (Hentries p2 m2 H2) as (_ & Hnu & _).
    apply Hnu. rewrite <- Heq. now apply (Hk p1 m1).
- apply IH; [exact Hrest| |exact Hdis].
  now apply (Hmono _ Hused').
Qed.

(** The same facts for [match_markets]. *)
Lemma match_markets_inv {F : Type} `{PyFloat F} (thr : F)
    (ms : list (PlatformMarket F)) (first : PlatformMarket F)
    (rest : list (PlatformMarket F)) (out : list (MatchedEvent F)) :
  ms = first :: rest ->
  match_markets thr ms = Ok out ->
  (forall ev, In ev out ->
     exists main, In main ms /\ platform main = platform first /\
                  matched_from thr ms main ev) /\
  ForallOrdPairs disjoint_events out.
Proof.
intros -> Hout.
destruct (group_loop_spec platform (first :: rest)) as (Hnd & Hgroups & Hhead).
destruct (Hhead first rest eq_refl) as (mains & others & Hbp).
unfold match_markets in Hout.
rewrite group_by_platform_is_loop, Hbp in Hout.
assert (Hget : forall p l, dict_get ((platform first, mains) :: others) p = Some l ->
          forall m, In m l -> platform m = p /\ In m (first :: rest)).
{ rewrite <- Hbp. intros p l Hg m Hm. apply dict_get_In in Hg.
  apply Hgroups in Hg. destruct Hg as [_ ->].
  apply filter_In in Hm. destruct Hm as [Hm Hp].
  apply String.eqb_eq in Hp. now split. }
apply (match_loop_inv thr (first :: rest) _ (platform first) (dict_keys others) Hget)
  with (mains := mains) (used := ∅) (events := []).
- rewrite Hbp in Hnd. cbn [dict_keys map fst] in Hnd.
  apply NoDup_cons in Hnd. destruct Hnd as [Hnd _].
  intros Hx. apply Hnd. now apply list_elem_of_In.
- intros m Hm. apply (Hget (platform first) mains); [|exact Hm].
  cbn [dict_get]. now rewrite String.eqb_refl.
- intros ev [].
- constructor.
- exact Hout.
Qed.

(** In exact arithmetic the score is always defined, and is at most 1. *)
Lemma Q_calculate_similarity_returns (m1 m2 : PlatformMarket Q)
    (kw1 : option (gset string)) :
  exists s, _calculate_similarity m1 m2 kw1 = Ok s /\ s <= 1.
Proof.
unfold _calculate_similarity.
match goal with |- context [similarity_of ?a ?b] =>
  destruct (similarity_of_spec a b) as (s & Hs & Hspec) end.
exists s. split; [exact Hs|]. rewrite Hspec. unfold spec_similarity.
apply Q.le_min_l.
Qed.

Lemma Q_best_candidate_returns (thr : Q) (market : PlatformMarket Q)
    (kws used : gset string) (cands : list (PlatformMarket Q))
    (bm : option (PlatformMarket Q * Q)) (bs : Q) :
  exists r, best_candidate thr market kws used cands bm bs = Ok r.
Proof.
revert bm bs. induction cands as [|cand rest IH]; intros bm bs;
  cbn [best_candidate].
- now exists bm.
- destruct (is_used used (market_key cand)); [apply IH|].
  destruct (Q_calculate_similarity_returns market cand (Some kws)) as (s & Hs & _).
  rewrite Hs. cbn [rbind].
  destruct (flt bs s && fle thr s); apply IH.
Qed.

Lemma Q_collect_matches_returns (thr : Q) (bp : dict (list (PlatformMarket Q)))
    (market : PlatformMarket Q) (kws used : gset string) (others : list string) :
  exists matches, collect_matches thr bp market kws used others = Ok matches.
Proof.
induction others as [|other rest IH]; cbn [collect_matches].
- now exists [].
- match goal with |- context [best_candidate ?t ?m ?k ?u ?c ?b ?s] =>
    destruct (Q_best_candidate_returns t m k u c b s) as [best Hb] end.
  rewrite Hb. cbn [rbind]. destruct IH as [more Hm]. rewrite Hm. cbn [rbind].
  eexists. reflexivity.
Qed.

Lemma Q_match_loop_returns (thr : Q) (bp : dict (list (PlatformMarket Q)))
    (others : list string) (mains : list (PlatformMarket Q))
    (used : gset string) (events : list (MatchedEvent Q)) :
  exists out, match_loop thr bp others mains used events = Ok out.
Proof.
revert used events. induction mains as [|market rest IH]; intros used events;
  cbn [match_loop].
- now exists events.
- destruct (is_used used (market_key market)); [apply IH|].
  destruct (nonempty (_extract_keywords (question market))); cbn [negb];
    [|apply IH].
  match goal with |- context [collect_matches ?t ?b ?m ?k ?u ?o] =>
    destruct (Q_collect_matches_returns t b m k u o) as [matches Hm] end.
  rewrite Hm. cbn [rbind].
  destruct matches as [|mt matches']; [apply IH|].
  destruct (add_matches (mt :: matches') _ _) as [event used'].
  apply IH.
Qed.

(** The scores of the collected matches. *)
Lemma Q_collect_matches_scores (thr : Q) (bp : dict (list (PlatformMarket Q)))
    (market : PlatformMarket Q) (kws used : gset string) (others : list string)
    (matches : list (PlatformMarket Q * Q)) :
  collect_matches thr bp market kws used others = Ok matches ->
  forall c s, In (c, s) matches -> 0 < s /\ thr <= s /\ s <= 1.
Proof.
revert matches. induction others as [|other rest IH]; intros matches;
  cbn [collect_matches].
- intros [= <-] c s [].
- destruct (best_candidate thr market kws used _ None (lit 0)) as [best|e] eqn:Eb;
    cbn [rbind]; [|discriminate].
  destruct (collect_matches thr bp market kws used rest) as [more|e];
    cbn [rbind]; [|discriminate].
  intros [= <-] c s Hin.
  destruct best as [[c' s']|]; [|exact (IH more eq_refl c s Hin)].
  destruct Hin as [E|Hin]; [|exact (IH more eq_refl c s Hin)].
  injection E as -> ->.
  assert (Hzero : 0 <= lit 0) by (cbn; lra).
  destruct (best_candidate_positive _ _ _ _ _ _ _ _ _ Hzero Eb)
    as [Hx|(_ & Hsim & Hpos)]; [discriminate|].
  destruct (best_candidate_sound _ _ _ _ _ _ _ _ _ Eb)
    as [Hx|(_ & _ & _ & Hthr)]; [discriminate|].
  apply Q_fle_true in Hthr.
  destruct (Q_calculate_similarity_returns market c (Some kws)) as (s0 & Hs0 & Hle).
  rewrite Hsim in Hs0. injection Hs0 as <-. now repeat split.
Qed.

Lemma Q_add_matches_confidence (matches : list (PlatformMarket Q * Q))
    (event : MatchedEvent Q) (used : gset string)
    (event' : MatchedEvent Q) (used' : gset string) :
  add_matches matches event used = (event', used') ->
  (confidence event' = confidence event \/
   exists m s, In (m, s) matches /\ confidence event' = s) /\
  (markets event' = markets event \/
   exists m s, In (m, s) matches /\ s <= confidence event') /\
  confidence event <= confidence event'.
Proof.
revert event used. induction matches as [|[mm conf] rest IH]; intros event used;
  cbn [add_matches].
- intros [= <- <-]. split; [now left|]. split; [now left|lra].
- destruct (is_used used (market_key mm)).
  + intros Hadd. destruct (IH _ _ Hadd) as (H1 & H2 & H3).
    split; [|split; [|exact H3]].
    * destruct H1 as [H1|(m & s & Hin & H1)]; [now left|right].
      exists m, s. split; [now right|exact H1].
    * destruct H2 as [H2|(m & s & Hin & H2)]; [now left|right].
      exists m, s. split; [now right|exact H2].
  + intros Hadd. destruct (IH _ _ Hadd) as (H1 & H2 & H3).
    cbn [confidence markets] in H1, H2, H3.
    assert (Hmax : confidence event <= pymax (confidence event) conf /\
                   conf <= pymax (confidence event) conf /\
                   (pymax (confidence event) conf = confidence event \/
                    pymax (confidence event) conf = conf)).
    { unfold pymax. destruct (flt (confidence event) conf) eqn:E.
      - apply Q_flt_true in E. repeat split; [lra|lra|now right].
      - apply Q_flt_false in E. repeat split; [lra|lra|now left]. }
    destruct Hmax as (Hm1 & Hm2 & Hm3).
    split; [|split; [|lra]].
    * destruct H1 as [H1|(m & s & Hin & H1)].
      -- rewrite H1. destruct Hm3 as [->| ->]; [now left|right].
         exists mm, conf. split; [now left|reflexivity].
      -- right. exists m, s. split; [now right|exact H1].
    * right. exists mm, conf. split; [now left|lra].
Qed.

Lemma Q_match_loop_confidence (thr : Q) (bp : dict (list (PlatformMarket Q)))
    (others : list string) (mains : list (PlatformMarket Q))
    (used : gset string) (events out : list (MatchedEvent Q)) :
  (forall ev, In ev events ->
     0 < confidence ev /\ thr <= confidence ev /\ confidence ev <= 1) ->
  match_loop thr bp others mains used events = Ok out ->
  forall ev, In ev out ->
    0 < confidence ev /\ thr <= confidence ev /\ confidence ev <= 1.
Proof.
revert used events. induction mains as [|market rest IH]; intros used events Hev;
  cbn [match_loop].
- intros [= <-]. exact Hev.
- destruct (is_used used (market_key market)); [now apply IH|].
  destruct (nonempty (_extract_keywords (question market))); cbn [negb];
    [|now apply IH].
  destruct (collect_matches thr bp market _ used others) as [matches|e] eqn:Ec;
    cbn [rbind]; [|discriminate].
  pose proof (Q_collect_matches_scores thr bp market _ used others matches Ec)
    as Hscores.
  destruct matches as [|mt matches']; [now apply IH|].
  remember (mt :: matches') as matches eqn:Ematches.
  destruct (add_matches matches _ _) as [event used'] eqn:Ea.
  apply Q_add_matches_confidence in Ea.
  cbn [confidence markets dict_set] in Ea. destruct Ea as (H1 & H2 & _).
  destruct (Nat.ltb_spec 1 (num_platforms event)) as [Hnum|Hnum];
    [|now apply IH].
  apply IH. intros ev Hin. apply in_app_iff in Hin.
  destruct Hin as [Hin|[<-|[]]]; [now apply Hev|].
  destruct H2 as [H2|(m & s & Hin & Hle)].
  { unfold num_platforms in Hnum. rewrite H2 in Hnum. cbn in Hnum. lia. }
  destruct (Hscores m s Hin) as (Hpos & _).
  destruct H1 as [H1|(m2 & s2 & Hin2 & H1)].
  { rewrite H1 in Hle. cbn in Hle. lra. }
  rewrite H1. apply (Hscores m2 s2 Hin2).
Qed.

Lemma ForallOrdPairs_split {A : Type} (R : A -> A -> Prop)
    (l1 l2 l3 : list A) (x y : A) :
  ForallOrdPairs R (l1 ++ x :: l2 ++ y :: l3) -> R x y.
Proof.
induction l1 as [|a l1 IH]; cbn [app]; intros Hp; inversion Hp; subst.
- match goal with Hf : List.Forall (R x) _ |- _ =>
    rewrite List.Forall_forall in Hf; apply Hf end.
  apply in_app_iff. right. now left.
- now apply IH.
Qed.

(** X8. The events [match_markets] returns, in either arithmetic.  Each
    event spans at least two platforms and holds one market for each of
    them, stored under its own platform name and taken from the input; it
    is flagged as needing verification.  Its first market is on the
    platform of the first input market; the event's keywords are the
    (non-empty) keywords of that market's question, and every other market
    of the event scored at least the threshold against it. *)
Theorem match_markets_events_well_formed {F : Type} `{PyFloat F} (thr : F)
    (ms : list (PlatformMarket F)) (out : list (MatchedEvent F))
    (ev : MatchedEvent F) :
  match_markets thr ms = Ok out ->
  In ev out ->
  (2 <= num_platforms ev)%nat /\
  NoDup (platforms ev) /\
  (forall p m, In (p, m) (markets ev) -> platform m = p /\ In m ms) /\
  needs_verification ev = true /\
  exists first rest main others,
    ms = first :: rest /\
    In main ms /\ platform main = platform first /\
    markets ev = (platform main, main) :: others /\
    keywords ev = _extract_keywords (question main) /\
    keywords ev <> ∅ /\
    forall p m, In (p, m) others ->
      exists s,
        _calculate_similarity main m (Some (keywords ev)) = Ok s /\
        fle thr s = true.
Proof.
intros Hout Hin.
destruct ms as [|first rest]; [cbn in Hout; injection Hout as <-; destruct Hin|].
destruct (match_markets_inv thr _ first rest out eq_refl Hout) as [Hall _].
destruct (Hall ev Hin) as (main & Hmain & Hp & Hm).
destruct Hm as (Hhd & Hkw & Hne & Hnv & Hnd & Hnum & Hentries).
split; [exact Hnum|]. split; [exact Hnd|].
split; [intros p m Hpm; destruct (Hentries p m Hpm) as (H1 & H2 & _); now split|].
split; [exact Hnv|].
destruct (markets ev) as [|x others] eqn:Em; [discriminate|].
cbn [hd_error] in Hhd. injection Hhd as ->.
exists first, rest, main, others.
split; [reflexivity|]. split; [exact Hmain|]. split; [exact Hp|].
split; [reflexivity|]. split; [exact Hkw|].
split; [now apply nonempty_true|].
intros p m Hpm.
destruct (Hentries p m (or_intror Hpm)) as (Hpl & _ & [->|Hs]); [|exact Hs].
exfalso. cbn [dict_keys map fst] in Hnd. apply NoDup_cons in Hnd.
destruct Hnd as [Hnd _]. apply Hnd. apply list_elem_of_In.
rewrite Hpl. apply (in_map fst) in Hpm. exact Hpm.
Qed.

Lemma match_markets_events_well_formed_witness :
  exists ev : MatchedEvent Q,
    match_markets (45 # 100)
      [ question_market "polymarket" "1" "Trump 2024 election";
        question_market "kalshi" "2" "Trump win 2024" ] = Ok [ev] /\
    (2 <= num_platforms ev)%nat /\
    NoDup (platforms ev) /\
    needs_verification ev = true.
Proof.
assert (E : { ev : MatchedEvent Q |
              match_markets (45 # 100)
                [ question_market "polymarket" "1" "Trump 2024 election";
                  question_market "kalshi" "2" "Trump win 2024" ] = Ok [ev] })
  by (eexists; vm_compute; reflexivity).
destruct E as [ev E]. exists ev. split; [exact E|].
destruct (match_markets_events_well_formed _ _ _ ev E (or_introl eq_refl))
  as (H1 & H2 & _ & H4 & _).
now repeat split.
Defined.

(** X9. No market is in two events: two different events of the result
    of [match_markets] never hold markets with the same platform:id key,
    in either arithmetic. *)
Theorem match_markets_events_disjoint {F : Type} `{PyFloat F} (thr : F)
    (ms : list (PlatformMarket F)) (l1 l2 l3 : list (MatchedEvent F))
    (e1 e2 : MatchedEvent F) (p1 p2 : string) (m1 m2 : PlatformMarket F) :
  match_markets thr ms = Ok (l1 ++ e1 :: l2 ++ e2 :: l3)%list ->
  In (p1, m1) (markets e1) ->
  In (p2, m2) (markets e2) ->
  market_key m1 <> market_key m2.
Proof.
intros Hout H1 H2.
destruct ms as [|first rest]; [cbn in Hout; now destruct l1|].
destruct (match_markets_inv thr _ first rest _ eq_refl Hout) as [_ Hdis].
apply ForallOrdPairs_split in Hdis. now apply (Hdis p1 m1 p2 m2).
Qed.

Lemma match_markets_events_disjoint_witness :
  exists e1 e2 : MatchedEvent Q,
    match_markets (45 # 100)
      [ question_market "polymarket" "1" "Trump 2024 election";
        question_market "kalshi" "2" "Trump win 2024";
        question_market "polymarket" "3" "Bitcoin reach 2025";
        question_market "kalshi" "4" "Bitcoin hit 2025" ] = Ok [e1; e2] /\
    market_key (question_market "polymarket" "1" "Trump 2024 election"
                  : PlatformMarket Q)
    <> market_key (question_market "polymarket" "3" "Bitcoin reach 2025"
                     : PlatformMarket Q).
Proof.
assert (E : { e1 : MatchedEvent Q & { e2 : MatchedEvent Q |
    match_markets (45 # 100)
      [ question_market "polymarket" "1" "Trump 2024 election";
        question_market "kalshi" "2" "Trump win 2024";
        question_market "polymarket" "3" "Bitcoin reach 2025";
        question_market "kalshi" "4" "Bitcoin hit 2025" ] = Ok [e1; e2] /\
    In ("polymarket", question_market "polymarket" "1" "Trump 2024 election")
       (markets e1) /\
    In ("polymarket", question_market "polymarket" "3" "Bitcoin reach 2025")
       (markets e2) } }).
{ eexists. eexists. split; [vm_compute; reflexivity|].
  split; left; reflexivity. }
destruct E as (e1 & e2 & E & H1 & H2). exists e1, e2. split; [exact E|].
apply (match_markets_events_disjoint _ _ [] [] [] e1 e2 _ _ _ _ E H1 H2).
Defined.

(** X10. In exact arithmetic [match_markets] always returns, whatever
    the markets and the threshold, and the confidence of every event it
    returns is positive, at least the threshold and at most 1. *)
Theorem match_markets_returns_bounded_confidence (thr : Q)
    (ms : list (PlatformMarket Q)) :
  exists out,
    match_markets thr ms = Ok out /\
    forall ev, In ev out ->
      0 < confidence ev /\ thr <= confidence ev /\ confidence ev <= 1.
Proof.
unfold match_markets. destruct ms as [|first rest].
{ exists []. split; [reflexivity|intros ev []]. }
destruct (group_by_platform (first :: rest)) as [|[p0 mains] others] eqn:Eg.
{ exists []. split; [reflexivity|intros ev []]. }
destruct (Q_match_loop_returns thr ((p0, mains) :: others) (dict_keys others)
            mains ∅ []) as [out Hout].
exists out. split; [exact Hout|].
apply (Q_match_loop_confidence _ _ _ _ _ _ _ (fun ev (Hx : In ev []) =>
         match Hx with end) Hout).
Qed.

(** With no other platform there is nothing to match against. *)
Lemma match_loop_no_others {F : Type} `{PyFloat F} (thr : F)
    (bp : dict (list (PlatformMarket F))) (mains : list (PlatformMarket F))
    (used : gset string) (events : list (MatchedEvent F)) :
  match_loop thr bp [] mains used events = Ok events.
Proof.
revert used. induction mains as [|market mains IH]; intros used;
  cbn [match_loop]; [reflexivity|].
destruct (is_used used (market_key market)); [apply IH|].
destruct (nonempty (_extract_keywords (question market))); cbn [negb];
  [|apply IH].
cbn [collect_matches rbind]. apply IH.
Qed.

(** X11. Markets that are all on one platform are never matched: the
    result is empty, in either arithmetic, whatever their questions. *)
Theorem match_markets_single_platform {F : Type} `{PyFloat F} (thr : F)
    (ms : list (PlatformMarket F)) (p : string) :
  (forall m, In m ms -> platform m = p) ->
  match_markets thr ms = Ok [].
Proof.
intros Hp. destruct ms as [|first rest]; [reflexivity|].
destruct (group_loop_spec platform (first :: rest)) as (Hnd & Hgroups & Hhead).
destruct (Hhead first rest eq_refl) as (mains & others & Hbp).
unfold match_markets. rewrite group_by_platform_is_loop, Hbp.
assert (Ho : others = []).
{ destruct others as [|[k l] others]; [reflexivity|]. exfalso.
  assert (Hk : In k (dict_keys (group_loop platform (first :: rest) []))).
  { rewrite Hbp. cbn. right. now left. }
  apply group_loop_keys in Hk. destruct Hk as [[]|Hk].
  apply in_map_iff in Hk. destruct Hk as (m & <- & Hm).
  rewrite Hbp in Hnd. cbn [dict_keys map fst] in Hnd.
  apply NoDup_cons in Hnd. destruct Hnd as [Hnd _]. apply Hnd.
  rewrite (Hp m Hm), <- (Hp first (or_introl eq_refl)). left. }
rewrite Ho. cbn [dict_keys map]. apply match_loop_no_others.
Qed.

Lemma match_markets_single_platform_witness :
  match_markets (45 # 100)
    [ question_market "polymarket" "1" "Trump 2024 election";
      question_market "polymarket" "2" "Trump win 2024" : PlatformMarket Q ]
  = Ok [].
Proof.
apply (match_markets_single_platform _ _ "polymarket").
intros m [<-|[<-|[]]]; reflexivity.
Defined.

End MatcherFacts.

(** ** Cross-platform detector: selection, returns, scan *)

Section CrossScanFacts.
Import Base EventMatcher CrossPlatformScanner.

(** The two outcomes of [_find_arbitrage] in exact arithmetic. *)
Lemma Q_find_arbitrage_cases (platforms : dict Q) (ev : MatchedEvent Q) :
  _find_arbitrage platforms ev = Ok [] \/
  exists py y pn n,
    min_item (yes_prices ev) = Some (py, y) /\
    min_item (no_prices ev) = Some (pn, n) /\
    0 < y /\ 0 < n /\ y + n < 1 /\ py <> pn /\
    _find_arbitrage platforms ev
    = Ok [ {| event := ev;
              yes_platform := py; yes_price := y;
              no_platform := pn; no_price := n;
              total_cost := y + n;
              gross_profit_pct := (1 - (y + n)) / (y + n) * 100;
              net_profit_pct :=
                (1 - (y + n)
                 - (fee_of platforms py + fee_of platforms pn) / 2)
                / (y + n) * 100;
              yes_platform_fee := fee_of platforms py;
              no_platform_fee := fee_of platforms pn |} ].
Proof.
unfold _find_arbitrage.
destruct (min_item (yes_prices ev)) as [[py y]|] eqn:Ey; [|now left].
destruct (min_item (no_prices ev)) as [[pn n]|] eqn:En; [|now left].
cbn [fst snd].
destruct (fle (lit 1) (fadd y n)) eqn:Etotal; [now left|].
destruct (String.eqb py pn) eqn:Ep; [now left|].
right. exists py, y, pn, n.
pose proof (min_item_In _ _ Ey) as Hy. pose proof (min_item_In _ _ En) as Hn.
apply collect_prices_In in Hy as (my & _ & _ & Huy).
apply collect_prices_In in Hn as (mn & _ & _ & Hun).
apply Q_usable_pos in Huy, Hun.
apply Q_fle_false in Etotal. qsimp.
assert (Hnz : ~ y + n == 0) by lra.
assert (H2 : ~ 2 == 0) by lra.
repeat (rewrite Q_fdiv_ok by assumption; cbn [rbind]).
split; [reflexivity|]. split; [reflexivity|].
split; [exact Huy|]. split; [exact Hun|]. split; [exact Etotal|].
split; [now apply String.eqb_neq|reflexivity].
Qed.





(** X13. For an opportunity the cross-platform detector emitted and any
    investment, its [calculate_returns] returns: the YES and NO stakes add
    up to the investment, the number of units times the total cost is the
    investment, the net profit is the investment times the net profit
    percentage, and the ROI it reports is the net profit percentage for a
    positive investment and 0 otherwise. *)
Theorem cross_calculate_returns_matches_opportunity (platforms : dict Q)
    (ev : MatchedEvent Q) (opps : list (CrossPlatformArbitrage Q))
    (arb : CrossPlatformArbitrage Q) (invest : Q) :
  _find_arbitrage platforms ev = Ok opps ->
  In arb opps ->
  exists r,
    calculate_returns arb invest = Ok r /\
    yes_investment r + no_investment r == invest /\
    units r * total_cost arb == invest /\
    gross_return r == units r * guaranteed_return arb /\
    net_profit r * 100 == invest * net_profit_pct arb /\
    (0 < invest -> roi_pct r == net_profit_pct arb) /\
    (invest <= 0 -> roi_pct r == 0).
Proof.
intros Hopps Hin.
destruct (Q_find_arbitrage_cases platforms ev) as [E|E].
{ rewrite E in Hopps. injection Hopps as <-. destruct Hin. }
destruct E as (py & y & pn & n & _ & _ & Hy & Hn & Hlt & _ & E).
rewrite E in Hopps. injection Hopps as <-.
destruct Hin as [<-|[]].
unfold calculate_returns, guaranteed_return.
cbn [yes_price no_price yes_platform_fee no_platform_fee net_profit_pct
     total_cost].
assert (Hnz : ~ y + n == 0) by lra.
assert (H2 : ~ 2 == 0) by lra.
qsimp. rewrite (Q_fdiv_ok invest _ Hnz). cbn [rbind].
rewrite (Q_fdiv_ok _ 2 H2). cbn [rbind].
destruct (flt 0 invest) eqn:Epos.
- apply Q_flt_true in Epos. rewrite Q_fdiv_ok by lra. cbn [rbind].
  eexists. split; [reflexivity|].
  cbn [yes_investment no_investment units gross_return net_profit roi_pct].
  split; [now field|]. split; [now field|]. split; [reflexivity|].
  split; [now field|]. split.
  + intros _. field. split; [exact Hnz|lra].
  + intros Hle. lra.
- apply Q_flt_false in Epos. cbn [rbind].
  eexists. split; [reflexivity|].
  cbn [yes_investment no_investment units gross_return net_profit roi_pct].
  split; [now field|]. split; [now field|]. split; [reflexivity|].
  split; [now field|]. split.
  + intros Hpos. lra.
  + intros _. reflexivity.
Qed.

Lemma cross_calculate_returns_matches_opportunity_witness :
  exists arb r,
    _find_arbitrage default_platforms
      (two_platform_event (40 # 100) (65 # 100) (50 # 100) (55 # 100)
         : MatchedEvent Q) = Ok [arb] /\
    calculate_returns arb 100 = Ok r /\
    yes_investment r + no_investment r == 100 /\
    roi_pct r == net_profit_pct arb.
Proof.
assert (E : { arb : CrossPlatformArbitrage Q |
              _find_arbitrage default_platforms
                (two_platform_event (40 # 100) (65 # 100) (50 # 100) (55 # 100))
              = Ok [arb] })
  by (eexists; vm_compute; reflexivity).
destruct E as [arb E].
destruct (cross_calculate_returns_matches_opportunity _ _ _ arb 100 E
            (or_introl eq_refl)) as (r & H1 & H2 & _ & _ & _ & H6 & _).
exists arb, r. split; [exact E|]. split; [exact H1|]. split; [exact H2|].
apply H6. reflexivity.
Defined.

Lemma Q_find_all (platforms : dict Q) (events : list (MatchedEvent Q)) :
  exists opps,
    find_all platforms events = Ok opps /\
    forall arb, In arb opps ->
      In (event arb) events /\
      _find_arbitrage platforms (event arb) = Ok [arb] /\
      yes_platform arb <> no_platform arb /\
      0 < total_cost arb /\ total_cost arb < 1.
Proof.
induction events as [|ev events IH]; cbn [find_all].
- exists []. split; [reflexivity|intros arb []].
- destruct IH as (more & Hmore & Hall). rewrite Hmore.
  assert (Hrest : forall arb, In arb more ->
    In (event arb) (ev :: events) /\
    _find_arbitrage platforms (event arb) = Ok [arb] /\
    yes_platform arb <> no_platform arb /\
    0 < total_cost arb /\ total_cost arb < 1).
  { intros arb Hin. destruct (Hall arb Hin) as (H1 & H2).
    split; [now right|exact H2]. }
  destruct (Q_find_arbitrage_cases platforms ev) as [E|E].
  + rewrite E. cbn [rbind app]. exists more. split; [reflexivity|exact Hrest].
  + destruct E as (py & y & pn & n & _ & _ & Hy & Hn & Hlt & Hne & E).
    rewrite E. cbn [rbind app]. eexists. split; [reflexivity|].
    intros arb [<-|Hin]; [|now apply Hrest].
    cbn [event yes_platform no_platform total_cost].
    split; [now left|]. split; [exact E|]. split; [exact Hne|]. split; lra.
Qed.

Lemma descending_filter {A : Type} (key : A -> Q) (f : A -> bool) (l : list A) :
  descending key l -> descending key (List.filter f l).
Proof.
unfold descending. induction 1 as [|x l Hl IH Hx]; cbn [List.filter].
- constructor.
- destruct (f x); [|exact IH]. constructor; [exact IH|].
  rewrite List.Forall_forall in *. intros y Hy.
  apply filter_In in Hy. now apply Hx.
Qed.

(** X14. The cross-platform scan on fetched markets, in exact
    arithmetic.  It always returns.  Fewer than two markets give no
    opportunity.  The opportunities it reports are in descending order of
    net profit percentage; each has a net profit percentage above the
    configured threshold, is what [_find_arbitrage] returns for a matched
    event of at least two platforms (the matcher being run at threshold
    0.5), buys its two sides on different platforms, and costs more than 0
    and less than 1 in total. *)
Theorem cross_scan_reports_profitable_sorted (cfg : Config Q)
    (platforms : dict Q) (all_markets : list (PlatformMarket Q)) :
  exists opps,
    scan cfg platforms all_markets = Ok opps /\
    ((length all_markets < 2)%nat -> opps = []) /\
    descending net_profit_pct opps /\
    forall arb, In arb opps ->
      MIN_PROFIT_THRESHOLD cfg < net_profit_pct arb /\
      (exists events,
         match_markets (1 # 2) all_markets = Ok events /\
         In (event arb) events /\
         (2 <= num_platforms (event arb))%nat) /\
      _find_arbitrage platforms (event arb) = Ok [arb] /\
      yes_platform arb <> no_platform arb /\
      0 < total_cost arb /\ total_cost arb < 1.
Proof.
unfold scan.
destruct (Nat.ltb_spec (length all_markets) 2) as [Hlen|Hlen].
{ exists []. split; [reflexivity|]. split; [reflexivity|].
  split; [constructor|intros arb []]. }
assert (Hm : exists events, match_markets (1 # 2) all_markets = Ok events).
{ unfold match_markets. destruct all_markets as [|first rest]; [now exists []|].
  destruct (group_by_platform (first :: rest)) as [|[p0 mains] others];
    [now exists []|].
  apply Q_match_loop_returns. }
destruct Hm as [events Hevents]. qsimp. rewrite Hevents. cbn [rbind].
destruct (Q_find_all platforms
            (List.filter (fun e => (1 <? num_platforms e)%nat) events))
  as (found & Hfound & Hall).
rewrite Hfound. cbn [rbind]. eexists. split; [reflexivity|].
split; [lia|]. split.
- apply descending_filter, sort_by_reverse_descending.
- intros arb Hin. apply filter_In in Hin. destruct Hin as [Hin Hprof].
  apply (Permutation_in _ (sort_by_reverse_perm net_profit_pct found)) in Hin.
  destruct (Hall arb Hin) as (Hev & Hfa & Hne & Hpos & Hlt).
  apply filter_In in Hev. destruct Hev as [Hev Hnum].
  apply Nat.ltb_lt in Hnum.
  split; [now apply Q_flt_true|].
  split; [exists events; split; [reflexivity|split; [exact Hev|lia]]|].
  now repeat split.
Qed.

End CrossScanFacts.

(** ** Quotes of a matched event *)

Section QuotesFacts.
Import Base EventMatcher.

Lemma min_by_spec {A : Type} (key : A -> Q) (x : A) (rest : list A) :
  In (min_by key x rest) (x :: rest) /\
  forall y, In y (x :: rest) -> key (min_by key x rest) <= key y.
Proof.
unfold min_by. revert x. induction rest as [|z rest IH]; intros x; cbn [fold_left].
- split; [now left|]. intros y [<-|[]]. lra.
- destruct (IH (if flt (key z) (key x) then z else x)) as [Hin Hle].
  destruct (flt (key z) (key x)) eqn:E.
  + apply Q_flt_true in E. split.
    * destruct Hin as [<-|Hin]; [right; now left|right; now right].
    * intros y [<-|[<-|Hy]].
      -- specialize (Hle z (or_introl eq_refl)). lra.
      -- apply Hle. now left.
      -- apply Hle. now right.
  + apply Q_flt_false in E. split.
    * destruct Hin as [<-|Hin]; [now left|right; now right].
    * intros y [<-|[<-|Hy]].
      -- apply Hle. now left.
      -- specialize (Hle x (or_introl eq_refl)). lra.
      -- apply Hle. now right.
Qed.

Lemma max_by_spec {A : Type} (key : A -> Q) (x : A) (rest : list A) :
  In (max_by key x rest) (x :: rest) /\
  forall y, In y (x :: rest) -> key y <= key (max_by key x rest).
Proof.
unfold max_by. revert x. induction rest as [|z rest IH]; intros x; cbn [fold_left].
- split; [now left|]. intros y [<-|[]]. lra.
- destruct (IH (if flt (key x) (key z) then z else x)) as [Hin Hle].
  destruct (flt (key x) (key z)) eqn:E.
  + apply Q_flt_true in E. split.
    * destruct Hin as [<-|Hin]; [right; now left|right; now right].
    * intros y [<-|[<-|Hy]].
      -- specialize (Hle z (or_introl eq_refl)). lra.
      -- apply Hle. now left.
      -- apply Hle. now right.
  + apply Q_flt_false in E. split.
    * destruct Hin as [<-|Hin]; [now left|right; now right].
    * intros y [<-|[<-|Hy]].
      -- apply Hle. now left.
      -- specialize (Hle x (or_introl eq_refl)). lra.
      -- apply Hle. now right.
Qed.

(** Selecting by price and then reading the price is selecting among the
    prices. *)
Lemma min_by_snd {F : Type} `{PyFloat F} (x : string * F)
    (rest : list (string * F)) :
  snd (min_by snd x rest) = min_by (fun p => p) (snd x) (map snd rest).
Proof.
unfold min_by. revert x. induction rest as [|z rest IH]; intros x;
  cbn [fold_left map]; [reflexivity|].
rewrite IH. now destruct (flt (snd z) (snd x)).
Qed.

Lemma max_by_snd {F : Type} `{PyFloat F} (x : string * F)
    (rest : list (string * F)) :
  snd (max_by snd x rest) = max_by (fun p => p) (snd x) (map snd rest).
Proof.
unfold max_by. revert x. induction rest as [|z rest IH]; intros x;
  cbn [fold_left map]; [reflexivity|].
rewrite IH. now destruct (flt (snd x) (snd z)).
Qed.

Lemma get_prices_In {F : Type} `{PyFloat F} (ev : MatchedEvent F)
    (outcome k : string) (v : F) :
  In (k, v) (get_prices ev outcome) ->
  exists m, In (k, m) (markets ev) /\ get_outcome_price m outcome = Some v.
Proof.
unfold get_prices.
assert (Hgen : forall items acc,
  In (k, v) (fold_left
    (fun prices item =>
       match get_outcome_price (snd item) outcome with
       | Some price => dict_set prices (fst item) price
       | None => prices
       end) items acc) ->
  In (k, v) acc \/
  exists m, In (k, m) items /\ get_outcome_price m outcome = Some v).
{ induction items as [|[k' m'] items IH]; intros acc; cbn [fold_left fst snd].
  - now left.
  - intros Hin. destruct (IH _ Hin) as [Hacc|(m & Hm & Hg)].
    + destruct (get_outcome_price m' outcome) as [x|] eqn:Eg; [|now left].
      apply dict_set_In in Hacc. destruct Hacc as [[-> ->]|Hacc]; [|now left].
      right. exists m'. split; [now left|exact Eg].
    + right. exists m. split; [now right|exact Hg]. }
intros Hin. destruct (Hgen _ _ Hin) as [[]|Hm]. exact Hm.
Qed.

(** X15. The quotes of a matched event for one outcome, in exact
    arithmetic.  Every collected quote is the price some market of the
    event gives for the outcome, under that market's platform.  With no
    quote, best buy and best sell are the pair of the empty name and 0;
    otherwise they are collected quotes, the best buy being the least and
    the best sell the greatest.  The spread is never negative: it is 0 with
    fewer than two quotes, and the best sell price less the best buy price
    otherwise. *)
Theorem matched_event_quotes (ev : MatchedEvent Q) (outcome : string) :
  (forall k v, In (k, v) (get_prices ev outcome) ->
     (exists m, In (k, m) (markets ev) /\ get_outcome_price m outcome = Some v) /\
     snd (get_best_buy ev outcome) <= v /\
     v <= snd (get_best_sell ev outcome)) /\
  (get_prices ev outcome = [] ->
     get_best_buy ev outcome = ("", 0) /\ get_best_sell ev outcome = ("", 0)) /\
  (get_prices ev outcome <> [] ->
     In (get_best_buy ev outcome) (get_prices ev outcome) /\
     In (get_best_sell ev outcome) (get_prices ev outcome)) /\
  0 <= price_spread ev outcome /\
  ((length (get_prices ev outcome) < 2)%nat -> price_spread ev outcome = 0) /\
  ((2 <= length (get_prices ev outcome))%nat ->
     price_spread ev outcome
     = snd (get_best_sell ev outcome) - snd (get_best_buy ev outcome)).
Proof.
unfold get_best_buy, get_best_sell, price_spread.
pose proof (get_prices_In ev outcome) as Hsrc.
destruct (get_prices ev outcome) as [|x rest] eqn:Ep.
{ split; [intros k v []|]. split; [now split|]. split; [congruence|].
  cbn. split; [lra|]. split; [reflexivity|lia]. }
destruct (min_by_spec snd x rest) as [Hmin_in Hmin].
destruct (max_by_spec snd x rest) as [Hmax_in Hmax].
split.
{ intros k v Hin. split; [now apply Hsrc|]. split.
  - apply (Hmin (k, v) Hin).
  - apply (Hmax (k, v) Hin). }
split; [discriminate|]. split; [now split|].
cbn [map]. destruct rest as [|y rest].
- cbn. split; [lra|]. split; [reflexivity|lia].
- cbn [map]. change (snd y :: map snd rest) with (map snd (y :: rest)).
  rewrite <- (min_by_snd x (y :: rest)), <- (max_by_snd x (y :: rest)).
  split; [|split; [cbn; lia|reflexivity]].
  cbn [fsub Q_float].
  specialize (Hmin x (or_introl eq_refl)). specialize (Hmax x (or_introl eq_refl)).
  lra.
Qed.

End QuotesFacts.

(** ** Keyword extraction *)

Section KeywordFacts.
Import Base EventMatcher.

Lemma ascii_lower_word (c : ascii) :
  is_word_char (ascii_lower c) = is_word_char c.
Proof. destruct c as [[] [] [] [] [] [] [] []]; reflexivity. Qed.

Lemma ascii_lower_digit (c d : ascii) :
  DeltaScanner.is_digit d = true ->
  Ascii.eqb (ascii_lower c) d = Ascii.eqb c d.
Proof.
destruct d as [[] [] [] [] [] [] [] []]; try discriminate; intros _;
  destruct c as [[] [] [] [] [] [] [] []]; reflexivity.
Qed.

Lemma lower_string_of_list (l : list ascii) :
  lower (string_of_list_ascii l) = string_of_list_ascii (map ascii_lower l).
Proof. induction l as [|c l IH]; cbn; [reflexivity|]. now rewrite IH. Qed.

Lemma runs_lower (keep : ascii -> bool) (s : string) (cur : list ascii) :
  (forall c, keep (ascii_lower c) = keep c) ->
  runs keep (lower s) (map ascii_lower cur) = map lower (runs keep s cur).
Proof.
intros Hkeep.
assert (Hflush : forall cur,
  flush (map ascii_lower cur) = map lower (flush cur)).
{ intros [|c cur']; cbn [flush map]; [reflexivity|].
  rewrite lower_string_of_list. cbn [rev map]. now rewrite map_app, map_rev. }
revert cur. induction s as [|c s IH]; intros cur; cbn [lower runs].
- apply Hflush.
- rewrite Hkeep. destruct (keep c).
  + apply (IH (c :: cur)).
  + rewrite map_app, Hflush. f_equal. apply (IH []).
Qed.

Lemma word_runs_lower (s : string) :
  word_runs (lower s) = map lower (word_runs s).
Proof. apply (runs_lower is_word_char s [] ascii_lower_word). Qed.

(** A text is one of the year tokens exactly when its lower-case form
    is. *)
Lemma lower_eqb_digits (w y : string) :
  forallb DeltaScanner.is_digit (list_ascii_of_string y) = true ->
  String.eqb (lower w) y = String.eqb w y.
Proof.
revert y. induction w as [|c w IH]; intros [|d y] Hy; cbn [lower String.eqb];
  try reflexivity.
cbn [list_ascii_of_string forallb] in Hy. apply andb_true_iff in Hy as [Hd Hy].
rewrite (ascii_lower_digit c d Hd).
destruct (Ascii.eqb c d); [now apply IH|reflexivity].
Qed.

Lemma year_token_lower (w : string) :
  str_in (lower w) ["2024"; "2025"; "2026"; "2027"; "2028"; "2029"]
  = str_in w ["2024"; "2025"; "2026"; "2027"; "2028"; "2029"].
Proof.
unfold str_in. cbn [existsb].
rewrite (lower_eqb_digits w "2024" eq_refl), (lower_eqb_digits w "2025" eq_refl),
        (lower_eqb_digits w "2026" eq_refl), (lower_eqb_digits w "2027" eq_refl),
        (lower_eqb_digits w "2028" eq_refl), (lower_eqb_digits w "2029" eq_refl).
reflexivity.
Qed.

Lemma year_token_is_lower (w : string) :
  str_in w ["2024"; "2025"; "2026"; "2027"; "2028"; "2029"] = true ->
  lower w = w.
Proof.
unfold str_in. cbn [existsb]. rewrite !orb_true_iff.
intros [H|[H|[H|[H|[H|[H|H]]]]]]; try discriminate;
  apply String.eqb_eq in H; subst w; reflexivity.
Qed.

Lemma findall_years_lower (text : string) :
  findall_years (lower text) = findall_years text.
Proof.
unfold findall_years. rewrite word_runs_lower.
induction (word_runs text) as [|w l IH]; cbn [map List.filter]; [reflexivity|].
rewrite year_token_lower.
destruct (str_in w _) eqn:E; [|exact IH].
now rewrite (year_token_is_lower w E), IH.
Qed.

Lemma lower_idempotent (s : string) : lower (lower s) = lower s.
Proof.
induction s as [|c s IH]; cbn; [reflexivity|]. rewrite IH. f_equal.
destruct c as [[] [] [] [] [] [] [] []]; reflexivity.
Qed.

(** X16. On ASCII text, keyword extraction ignores case, and so does
    the matcher's score: two ASCII questions that are equal up to the case
    of their letters have the same keywords, an ASCII question has the
    keywords of its lower-case form, and the score of a pair of markets
    does not change when a question is replaced by one that differs only
    in case. *)
Theorem extract_keywords_ignores_case (t1 t2 : string) :
  ascii_text t1 = true ->
  ascii_text t2 = true ->
  lower t1 = lower t2 ->
  _extract_keywords t1 = _extract_keywords t2 /\
  _extract_keywords (lower t1) = _extract_keywords t1 /\
  forall (m1 m2 m2' : PlatformMarket Q),
    question m2 = t1 -> question m2' = t2 ->
    _calculate_similarity m1 m2 None = _calculate_similarity m1 m2' None.
Proof.
intros _ _ Hl.
assert (Hkw : forall t, _extract_keywords t
  = (list_to_set (findall_words (lower t)) ∩ ENTITIES)
    ∪ list_to_set (findall_years (lower t))
    ∪ (list_to_set (findall_words (lower t)) ∩ ACTIONS)).
{ intros t. unfold _extract_keywords. now rewrite findall_years_lower. }
assert (H12 : _extract_keywords t1 = _extract_keywords t2)
  by (rewrite (Hkw t1), (Hkw t2); now rewrite Hl).
split; [exact H12|]. split.
- rewrite (Hkw (lower t1)), (Hkw t1). now rewrite lower_idempotent.
- intros m1 m2 m2' H1 H2. unfold _calculate_similarity.
  now rewrite H1, H2, H12.
Qed.

Lemma extract_keywords_ignores_case_witness :
  ascii_text "TRUMP Win 2024" = true /\
  ascii_text "trump win 2024" = true /\
  _extract_keywords "TRUMP Win 2024" = _extract_keywords "trump win 2024" /\
  _extract_keywords "trump win 2024" = {[ "trump"; "2024"; "win" ]}.
Proof.
split; [reflexivity|]. split; [reflexivity|]. split.
- apply (extract_keywords_ignores_case "TRUMP Win 2024" "trump win 2024");
    reflexivity.
- vm_compute. reflexivity.
Defined.

End KeywordFacts.

(** ** Delta detector: parsing *)

Section DeltaParsingFacts.
Import DeltaScanner.

(** What one round of the pattern loop can return. *)
Lemma Q_try_pattern_found (i : nat) (letters : option (list ascii))
    (q : list ascii) (t : Q) :
  try_pattern i letters q = Some (Found t) ->
  exists n,
    100 <= n /\ ~ (2020 <= n /\ n <= 2030) /\
    t = match i with
        | 0%nat => n * 1000
        | 1%nat => n * 1000000
        | _ => n
        end.
Proof.
unfold try_pattern.
destruct (search_amount letters q) as [g|]; [|discriminate].
destruct (parse_float _) as [n|]; [|discriminate]. qsimp.
destruct (fle 2020 n && fle n 2030) eqn:Ey; [discriminate|].
destruct (flt n 100) eqn:En; [discriminate|].
intros [= <-]. exists n. apply Q_flt_false in En.
split; [exact En|]. split; [|reflexivity].
intros [H1 H2]. apply Q_fle_true in H1, H2.
rewrite H1, H2 in Ey. discriminate.
Qed.

Lemma Q_scaled_threshold_bounds (n t : Q) :
  100 <= n -> ~ (2020 <= n /\ n <= 2030) ->
  t = n * 1000 \/ t = n * 1000000 \/ t = n ->
  100 <= t /\ ~ (2020 <= t /\ t <= 2030) /\ ~ t == 0.
Proof.
intros H1 H2 [->|[->| ->]].
- split; [lra|]. split; [intros [H3 H4]; lra|lra].
- split; [lra|]. split; [intros [H3 H4]; lra|lra].
- split; [lra|]. split; [exact H2|lra].
Qed.

Lemma Q_extract_threshold_bounds (question : string) (t : Q) :
  _extract_threshold question = Found t ->
  100 <= t /\ ~ (2020 <= t /\ t <= 2030) /\ ~ t == 0.
Proof.
unfold _extract_threshold. intros Hq.
assert (Hround : forall i letters,
  try_pattern i letters (list_ascii_of_string question) = Some (Found t) ->
  100 <= t /\ ~ (2020 <= t /\ t <= 2030) /\ ~ t == 0).
{ intros i letters Hi. apply Q_try_pattern_found in Hi.
  destruct Hi as (n & H1 & H2 & ->). apply (Q_scaled_threshold_bounds n); trivial.
  destruct i as [|[|i]]; tauto. }
destruct (try_pattern 0 _ _) as [r|] eqn:E0; [subst r; now apply (Hround _ _ E0)|].
destruct (try_pattern 1 _ _) as [r|] eqn:E1; [subst r; now apply (Hround _ _ E1)|].
destruct (try_pattern 2 _ _) as [r|] eqn:E2; [|discriminate].
subst r. now apply (Hround _ _ E2).
Qed.

Lemma span_spec (f : ascii -> bool) (cs a b : list ascii) :
  span f cs = (a, b) ->
  cs = (a ++ b)%list /\ List.Forall (fun c => f c = true) a /\
  forall c r, b = c :: r -> f c = false.
Proof.
revert a b. induction cs as [|c cs IH]; intros a b; cbn [span].
- intros [= <- <-]. split; [reflexivity|]. split; [constructor|discriminate].
- destruct (f c) eqn:Ec.
  + destruct (span f cs) as [a' b'] eqn:Es. intros [= <- <-].
    destruct (IH _ _ eq_refl) as (-> & Ha & Hb).
    split; [reflexivity|]. split; [now constructor|exact Hb].
  + intros [= <- <-]. split; [reflexivity|]. split; [constructor|].
    intros c' r [= <- <-]. exact Ec.
Qed.

Lemma span_app (f : ascii -> bool) (a b : list ascii) :
  List.Forall (fun c => f c = true) a ->
  (forall c r, b = c :: r -> f c = false) ->
  span f (a ++ b) = (a, b).
Proof.
intros Ha Hb. induction Ha as [|c a Hc Ha IH]; cbn [app].
- destruct b as [|c r]; [reflexivity|]. cbn [span].
  now rewrite (Hb c r eq_refl).
- cbn [span]. now rewrite Hc, IH.
Qed.

Lemma match_amount_spec (cs g rest : list ascii) :
  match_amount cs = Some (g, rest) ->
  exists ws whole frac,
    cs = (ws ++ whole ++ fraction_text frac ++ rest)%list /\
    g = (whole ++ fraction_text frac)%list /\
    List.Forall (fun c => is_space c = true) ws /\
    whole <> [] /\
    List.Forall (fun c => is_amount_char c = true) whole /\
    List.Forall (fun c => is_digit c = true) frac /\
    match frac with
    | [] =>
        forall c r, rest = c :: r ->
          is_amount_char c = false /\
          (c = "."%char -> forall d r', r = d :: r' -> is_digit d = false)
    | _ => forall c r, rest = c :: r -> is_digit c = false
    end.
Proof.
unfold match_amount.
destruct (span is_space cs) as [ws r1] eqn:E1.
destruct (span is_amount_char r1) as [whole r2] eqn:E2.
apply span_spec in E1 as (-> & Hws & _).
apply span_spec in E2 as (-> & Hwhole & Hr2).
destruct whole as [|w0 whole']; [discriminate|].
set (whole := w0 :: whole') in *.
assert (Hne : whole <> []) by discriminate.
assert (Hplain : forall r3,
  r2 = "."%char :: r3 -> (forall x r', r3 = x :: r' -> is_digit x = false) ->
  forall c r, r2 = c :: r ->
    is_amount_char c = false /\
    (c = "."%char -> forall d r', r = d :: r' -> is_digit d = false)).
{ intros r3 -> Hr3 c r [= <- <-]. split; [reflexivity|].
  intros _ d r' ->. now apply (Hr3 d r'). }
destruct r2 as [|c2 r3].
{ intros [= <- <-]. exists ws, whole, []. cbn [fraction_text app].
  rewrite !app_nil_r. repeat (split; [assumption || reflexivity || constructor|]).
  discriminate. }
destruct (Ascii.eqb c2 "."%char) eqn:Ec.
- apply Ascii.eqb_eq in Ec. subst c2.
  destruct (span is_digit r3) as [frac r4] eqn:E3.
  apply span_spec in E3 as (-> & Hfrac & Hr4).
  destruct frac as [|f0 frac'].
  + intros [= <- <-]. exists ws, whole, []. cbn [fraction_text app].
    rewrite app_nil_r.
    repeat (split; [assumption || reflexivity || constructor|]).
    apply (Hplain r4 eq_refl). exact Hr4.
  + intros [= <- <-]. exists ws, whole, (f0 :: frac'). cbn [fraction_text].
    split; [reflexivity|].
    repeat (split; [assumption || reflexivity|]). exact Hr4.
- assert (Hout : Some (whole, c2 :: r3) = Some (g, rest) ->
    exists ws0 whole0 frac,
      (ws ++ whole ++ c2 :: r3)%list
        = (ws0 ++ whole0 ++ fraction_text frac ++ rest)%list /\
      g = (whole0 ++ fraction_text frac)%list /\
      List.Forall (fun c => is_space c = true) ws0 /\
      whole0 <> [] /\
      List.Forall (fun c => is_amount_char c = true) whole0 /\
      List.Forall (fun c => is_digit c = true) frac /\
      match frac with
      | [] =>
          forall c r, rest = c :: r ->
            is_amount_char c = false /\
            (c = "."%char -> forall d r', r = d :: r' -> is_digit d = false)
      | _ => forall c r, rest = c :: r -> is_digit c = false
      end).
  { intros [= <- <-]. exists ws, whole, []. cbn [fraction_text app].
    rewrite app_nil_r.
    repeat (split; [assumption || reflexivity || constructor|]).
    intros c r [= <- <-]. split; [now apply (Hr2 c2 r3)|].
    intros ->. discriminate Ec. }
  destruct c2 as [[] [] [] [] [] [] [] []]; try exact Hout; discriminate Ec.
Qed.

Lemma match_suffix_spec (letters rest : list ascii) :
  match_suffix letters rest = true -> followed_by letters rest.
Proof.
unfold match_suffix, followed_by.
destruct (span is_space rest) as [ws r] eqn:E.
apply span_spec in E as (-> & Hws & _). cbn [snd].
destruct r as [|c after]; [discriminate|].
intros Hc. exists ws, c, after. split; [reflexivity|]. split; [exact Hws|].
apply existsb_exists in Hc as (x & Hx & Hcx).
apply Ascii.eqb_eq in Hcx. now subst x.
Qed.

Lemma match_suffix_complete (letters rest : list ascii) :
  List.Forall (fun c => is_space c = false) letters ->
  followed_by letters rest -> match_suffix letters rest = true.
Proof.
intros Hl (ws & c & after & -> & Hws & Hc). unfold match_suffix.
rewrite (span_app is_space ws (c :: after) Hws).
- cbn [snd]. apply existsb_exists. exists c. split; [exact Hc|].
  apply Ascii.eqb_refl.
- intros c' r [= <- _]. now apply (proj1 (List.Forall_forall _ _) Hl).
Qed.

Lemma amount_char_not_space (c : ascii) :
  is_amount_char c = true -> is_space c = false.
Proof. destruct c as [[] [] [] [] [] [] [] []]; try reflexivity; discriminate. Qed.

Lemma amount_here_sound (letters : option (list ascii)) (cs g rest : list ascii) :
  match_amount cs = Some (g, rest) -> (match letters with
   | Some ls => match_suffix ls rest
   | None => true
   end) = true ->
  exists whole frac,
    amount_here letters cs whole frac rest /\
    g = (whole ++ fraction_text frac)%list.
Proof.
intros Em Es.
apply match_amount_spec in Em
  as (ws & whole & frac & -> & -> & Hws & Hne & Hwhole & Hfrac & Hfull).
exists whole, frac. split; [|reflexivity].
split; [exists ws; now split|].
do 4 (split; [assumption|]).
destruct letters as [ls|]; [now apply match_suffix_spec|exact I].
Qed.

Lemma amount_here_complete (letters : option (list ascii))
    (cs whole frac rest : list ascii) :
  (match letters with
   | Some ls => List.Forall (fun c => is_space c = false) ls
   | None => True
   end) ->
  amount_here letters cs whole frac rest ->
  match_amount cs = Some ((whole ++ fraction_text frac)%list, rest) /\
  (match letters with
   | Some ls => match_suffix ls rest
   | None => true
   end) = true.
Proof.
intros Hl ((ws & -> & Hws) & Hne & Hwhole & Hfrac & Hfull & Hsuf).
split.
- unfold match_amount.
  rewrite (span_app is_space ws _ Hws).
  2:{ destruct whole as [|w0 whole']; [contradiction|].
      intros c r [= <- _]. apply amount_char_not_space.
      now inversion Hwhole. }
  rewrite (span_app is_amount_char whole _ Hwhole).
  2:{ destruct frac as [|f0 frac']; cbn [fraction_text app].
      - intros c r E. now apply (Hfull c r).
      - intros c r [= <- _]. reflexivity. }
  destruct whole as [|w0 whole']; [contradiction|].
  destruct frac as [|f0 frac']; cbn [fraction_text app].
  + rewrite app_nil_r. destruct rest as [|c r]; [reflexivity|].
    destruct (Hfull c r eq_refl) as [Hc Hdot].
    destruct (Ascii.eqb c "."%char) eqn:Ec.
    * apply Ascii.eqb_eq in Ec. subst c.
      assert (Er : span is_digit r = ([], r)).
      { apply (span_app is_digit [] r); [constructor|].
        intros d r' E. now apply (Hdot eq_refl d r'). }
      now rewrite Er.
    * destruct c as [[] [] [] [] [] [] [] []]; try reflexivity;
        discriminate Ec.
  + assert (Er : span is_digit (f0 :: (frac' ++ rest)%list) = (f0 :: frac', rest))
      by apply (span_app is_digit (f0 :: frac') rest Hfrac Hfull).
    cbn [app]. cbv iota beta. rewrite Er. reflexivity.
- destruct letters as [ls|]; [|reflexivity].
  now apply match_suffix_complete.
Qed.

Lemma search_amount_spec (letters : option (list ascii)) (cs g : list ascii) :
  (match letters with
   | Some ls => List.Forall (fun c => is_space c = false) ls
   | None => True
   end) ->
  search_amount letters cs = Some g ->
  exists whole frac rest,
    reads_amount letters cs whole frac rest /\
    g = (whole ++ fraction_text frac)%list.
Proof.
intros Hl.
induction cs as [|c r IH]; cbn [search_amount]; [discriminate|].
assert (Hgo :
  (c = "$"%char -> forall whole frac rest,
     ~ amount_here letters r whole frac rest) ->
  search_amount letters r = Some g ->
  exists whole frac rest,
    reads_amount letters (c :: r) whole frac rest /\
    g = (whole ++ fraction_text frac)%list).
{ intros Hhere Hr.
  destruct (IH Hr) as (whole & frac & rest & Hread & Hg).
  exists whole, frac, rest. split; [|exact Hg].
  destruct Hread as (before & cs' & -> & Hamount & Hfirst).
  exists (c :: before), cs'. split; [reflexivity|]. split; [exact Hamount|].
  intros [|b0 b1] b2 whole' frac' rest'; cbn [app].
  - intros [= -> <-]. now apply Hhere.
  - intros [= _ ->]. now apply (Hfirst b1 b2). }
destruct (Ascii.eqb c "$"%char) eqn:Ec.
2:{ apply Hgo. intros ->. discriminate Ec. }
apply Ascii.eqb_eq in Ec. subst c.
destruct (match_amount r) as [[g' rest]|] eqn:Em.
2:{ apply Hgo. intros _ whole frac rest Hh.
    apply (amount_here_complete _ _ _ _ _ Hl) in Hh as [Hm _].
    rewrite Hm in Em. discriminate. }
destruct (match letters with
   | Some ls => match_suffix ls rest
   | None => true
   end) eqn:Es.
2:{ apply Hgo. intros _ whole frac rest' Hh.
    apply (amount_here_complete _ _ _ _ _ Hl) in Hh as [Hm Hs].
    rewrite Hm in Em. injection Em as _ <-. rewrite Hs in Es. discriminate. }
intros [= <-].
destruct (amount_here_sound letters r g' rest Em Es) as (whole & frac & Hh & Hg).
exists whole, frac, rest. split; [|exact Hg].
exists [], r. split; [reflexivity|]. split; [exact Hh|].
intros [|b0 b1] b2 whole' frac' rest'; discriminate.
Qed.

Lemma filter_commas_digits (whole : list ascii) :
  List.Forall (fun c => is_amount_char c = true) whole ->
  List.Forall (fun c => is_digit c = true)
    (List.filter (fun c => negb (Ascii.eqb c ","%char)) whole).
Proof.
induction 1 as [|c l Hc Hl IH]; cbn [List.filter]; [constructor|].
destruct (Ascii.eqb c ","%char) eqn:E; cbn [negb]; [exact IH|].
constructor; [|exact IH].
unfold is_amount_char in Hc. rewrite E, orb_false_r in Hc. exact Hc.
Qed.

Lemma filter_commas_fraction (frac : list ascii) :
  List.Forall (fun c => is_digit c = true) frac ->
  List.filter (fun c => negb (Ascii.eqb c ","%char)) (fraction_text frac)
  = fraction_text frac.
Proof.
intros Hf.
assert (Hd : List.filter (fun c => negb (Ascii.eqb c ","%char)) frac = frac).
{ induction Hf as [|c l Hc Hl IH]; cbn [List.filter]; [reflexivity|].
  replace (Ascii.eqb c ","%char) with false; [cbn [negb]; now rewrite IH|].
  destruct c as [[] [] [] [] [] [] [] []]; try reflexivity; discriminate Hc. }
destruct frac as [|f0 frac']; [reflexivity|].
cbn [fraction_text]. cbn [List.filter Ascii.eqb]. cbn. cbn in Hd. now rewrite Hd.
Qed.

(** The value [float] reads on an amount without its commas. *)
Lemma parse_float_amount (whole frac : list ascii) (n : Q) :
  List.Forall (fun c => is_amount_char c = true) whole ->
  List.Forall (fun c => is_digit c = true) frac ->
  parse_float (List.filter (fun c => negb (Ascii.eqb c ","%char))
                 (whole ++ fraction_text frac)) = Some n ->
  n == amount_value whole frac.
Proof.
intros Hw Hf. rewrite List.filter_app, (filter_commas_fraction frac Hf).
apply filter_commas_digits in Hw.
set (wd := List.filter _ whole) in *. unfold amount_value. fold wd.
unfold parse_float. destruct frac as [|f0 frac'].
- cbn [fraction_text]. rewrite (span_app is_digit wd [] Hw) by discriminate.
  destruct wd; [discriminate|]. intros [= <-].
  rewrite app_nil_r. cbn [length].
  change (inject_Z (10 ^ Z.of_nat 0)) with 1.
  generalize (inject_Z (digits_value (a :: wd))). intros x. field.
- cbn [fraction_text].
  rewrite (span_app is_digit wd ("."%char :: f0 :: frac') Hw)
    by (intros c r [= <- _]; reflexivity).
  replace (forallb is_digit (f0 :: frac')) with true
    by (symmetry; apply forallb_forall; intros x Hx;
        now apply (proj1 (List.Forall_forall _ _) Hf)).
  cbn [andb].
  destruct (negb _); [|discriminate]. intros [= <-]. reflexivity.
Qed.

(** What one round of the pattern loop returns, read on the text. *)
Lemma Q_try_pattern_reads (i : nat) (letters : option (list ascii))
    (q : list ascii) (t : Q) :
  match letters with
  | Some ls => List.Forall (fun c => is_space c = false) ls
  | None => True
  end ->
  try_pattern i letters q = Some (Found t) ->
  exists whole frac rest n,
    reads_amount letters q whole frac rest /\
    n == amount_value whole frac /\
    100 <= n /\ ~ (2020 <= n /\ n <= 2030) /\
    t = match i with
        | 0%nat => n * 1000
        | 1%nat => n * 1000000
        | _ => n
        end.
Proof.
intros Hl. unfold try_pattern.
destruct (search_amount letters q) as [g|] eqn:Eg; [|discriminate].
apply (search_amount_spec _ _ _ Hl) in Eg as (whole & frac & rest & Hread & ->).
destruct (parse_float _) as [n|] eqn:En; [|discriminate]. qsimp.
destruct (fle 2020 n && fle n 2030) eqn:Ey; [discriminate|].
destruct (flt n 100) eqn:E100; [discriminate|].
intros [= <-]. exists whole, frac, rest, n. apply Q_flt_false in E100.
split; [exact Hread|]. split.
- destruct Hread as (before & cs & _ & (_ & _ & Hw & Hf & _) & _).
  now apply parse_float_amount.
- split; [exact E100|]. split; [|reflexivity].
  intros [H1 H2]. apply Q_fle_true in H1, H2.
  rewrite H1, H2 in Ey. discriminate.
Qed.

(** X17. The thresholds [_extract_threshold] returns on an ASCII
    question, in exact arithmetic.  A returned threshold comes from an
    amount that stands in the question after a dollar sign and optional
    whitespace: a run of digits and commas, optionally a point and
    digits, read to its full length, at the first dollar sign where the
    pattern matches.  With [n]
    the number this amount denotes once its commas are dropped, the
    threshold is [n * 1000] when it was read by the K pattern (the amount
    is followed by optional whitespace and k or K), [n * 1000000] when it
    was read by the M pattern (followed by m or M), and [n] when it was
    read by the plain pattern.  In each case [n] is at least 100 and
    outside 2020..2030, the test being made before the scaling.  So a
    returned threshold is never zero, never below 100 and never in
    2020..2030. *)
Theorem extract_threshold_range (question : string) (t : Q) :
  ascii_text question = true ->
  _extract_threshold question = Found t ->
  (exists whole frac rest n,
     n == amount_value whole frac /\
     100 <= n /\ ~ (2020 <= n /\ n <= 2030) /\
     (reads_amount (Some ["k"; "K"]%char) (list_ascii_of_string question)
        whole frac rest /\ t = n * 1000 \/
      reads_amount (Some ["m"; "M"]%char) (list_ascii_of_string question)
        whole frac rest /\ t = n * 1000000 \/
      reads_amount None (list_ascii_of_string question) whole frac rest
        /\ t = n)) /\
  100 <= t /\ ~ (2020 <= t /\ t <= 2030) /\ ~ t == 0.
Proof.
intros _ Hq.
assert (Hk : List.Forall (fun c => is_space c = false) ["k"; "K"]%char)
  by (repeat constructor).
assert (Hm : List.Forall (fun c => is_space c = false) ["m"; "M"]%char)
  by (repeat constructor).
assert (Hn : exists whole frac rest n,
  n == amount_value whole frac /\
  100 <= n /\ ~ (2020 <= n /\ n <= 2030) /\
  (reads_amount (Some ["k"; "K"]%char) (list_ascii_of_string question)
     whole frac rest /\ t = n * 1000 \/
   reads_amount (Some ["m"; "M"]%char) (list_ascii_of_string question)
     whole frac rest /\ t = n * 1000000 \/
   reads_amount None (list_ascii_of_string question) whole frac rest
     /\ t = n)).
{ unfold _extract_threshold in Hq.
  destruct (try_pattern 0 _ _) as [r|] eqn:E0.
  { subst r. apply (Q_try_pattern_reads _ (Some _) _ _ Hk) in E0.
    destruct E0 as (whole & frac & rest & n & Hr & Hv & H1 & H2 & ->).
    exists whole, frac, rest, n. tauto. }
  destruct (try_pattern 1 _ _) as [r|] eqn:E1.
  { subst r. apply (Q_try_pattern_reads _ (Some _) _ _ Hm) in E1.
    destruct E1 as (whole & frac & rest & n & Hr & Hv & H1 & H2 & ->).
    exists whole, frac, rest, n. tauto. }
  destruct (try_pattern 2 _ _) as [r|] eqn:E2; [|discriminate].
  subst r. apply (Q_try_pattern_reads _ None _ _ I) in E2.
  destruct E2 as (whole & frac & rest & n & Hr & Hv & H1 & H2 & ->).
  exists whole, frac, rest, n. tauto. }
split; [exact Hn|].
destruct Hn as (whole & frac & rest & n & _ & H1 & H2 & [[_ ->]|[[_ ->]|[_ ->]]]).
- split; [lra|]. split; [intros [H3 H4]; lra|lra].
- split; [lra|]. split; [intros [H3 H4]; lra|lra].
- split; [lra|]. split; [exact H2|lra].
Qed.


Lemma extract_threshold_range_witness :
  ascii_text "Will Bitcoin reach $150K in 2025?" = true /\
  _extract_threshold "Will Bitcoin reach $150K in 2025?" = Found (150000 : Q) /\
  (exists whole frac rest n,
     n == amount_value whole frac /\
     100 <= n /\ ~ (2020 <= n /\ n <= 2030) /\
     (reads_amount (Some ["k"; "K"]%char)
        (list_ascii_of_string "Will Bitcoin reach $150K in 2025?")
        whole frac rest /\ 150000 = n * 1000 \/
      reads_amount (Some ["m"; "M"]%char)
        (list_ascii_of_string "Will Bitcoin reach $150K in 2025?")
        whole frac rest /\ 150000 = n * 1000000 \/
      reads_amount None
        (list_ascii_of_string "Will Bitcoin reach $150K in 2025?")
        whole frac rest /\ 150000 = n)) /\
  100 <= 150000 /\ ~ 150000 == 0.
Proof.
assert (E : _extract_threshold "Will Bitcoin reach $150K in 2025?"
            = Found (150000 : Q)) by (vm_compute; reflexivity).
destruct (extract_threshold_range "Will Bitcoin reach $150K in 2025?" 150000
            eq_refl E) as (Hread & H1 & _ & H3).
split; [reflexivity|]. split; [exact E|]. split; [exact Hread|].
split; assumption.
Defined.

(** The reading of that question, written out: the amount 150 after the
    dollar sign, followed by K. *)
Lemma reads_amount_example :
  reads_amount (Some ["k"; "K"]%char)
    (list_ascii_of_string "Will Bitcoin reach $150K in 2025?")
    (list_ascii_of_string "150") [] (list_ascii_of_string "K in 2025?") /\
  amount_value (list_ascii_of_string "150") [] == 150.
Proof.
split; [|reflexivity].
exists (list_ascii_of_string "Will Bitcoin reach "),
       (list_ascii_of_string "150K in 2025?").
split; [reflexivity|]. split.
- split; [exists []; split; [reflexivity|constructor]|].
  split; [discriminate|]. split; [repeat constructor|].
  split; [constructor|]. split.
  + intros c r [= <- _]. split; [reflexivity|discriminate].
  + exists [], "K"%char, (list_ascii_of_string " in 2025?").
    split; [reflexivity|]. split; [constructor|]. right. now left.
- intros b1 b2 whole' frac' rest' E _.
  assert (Hin : In "$"%char (list_ascii_of_string "Will Bitcoin reach "))
    by (rewrite E; apply in_elt).
  cbn in Hin. intuition discriminate.
Qed.

(** The same function on some questions, in exact arithmetic and in
    binary64. *)
Lemma extract_threshold_examples :
  _extract_threshold "BTC above $100,000?" = Found (100000 : Q) /\
  _extract_threshold "BTC above $100,000?" = Found 100000%float /\
  _extract_threshold "BTC to $ 1,250.5 k" = Found ((12505 # 10) * 1000 : Q) /\
  _extract_threshold "BTC to $ 1,250.5 k" = Found 1250500%float /\
  _extract_threshold "Will BTC reach $95K?" = (Missing : threshold_result Q) /\
  _extract_threshold "Will BTC reach $95K?" = (Missing : threshold_result float) /\
  _extract_threshold "Market cap $1.5M?" = (Missing : threshold_result Q) /\
  _extract_threshold "Price $2025?" = (Missing : threshold_result Q) /\
  _extract_threshold "No amount here" = (Missing : threshold_result Q) /\
  _extract_threshold "Odd $, amount" = (FloatError : threshold_result Q) /\
  _extract_threshold "Odd $, amount" = (FloatError : threshold_result float).
Proof. repeat split; vm_compute; reflexivity. Qed.

Lemma extract_direction_values (question : string) :
  In (_extract_direction question) ["above"; "below"; "reach"; "unknown"].
Proof.
unfold _extract_direction.
destruct (_ || _ || _); [now left|].
destruct (_ || _ || _ || _ || _); [right; now left|].
destruct (_ || _); [right; right; now left|right; right; right; now left].
Qed.

(** X18. What [_parse_market] lets through, in exact arithmetic.  It
    returns None exactly when the question is empty, or there are not two
    outcomes and two prices, or the volume is below 1000, or the threshold
    text makes [float] fail.  A parsed market carries the two prices in
    order, a volume of at least 1000, the topic and direction extracted
    from its question (the direction being one of above, below, reach,
    unknown), and a threshold that, when present, is at least 100: the
    detector will count it as a threshold market and never divide by it as
    zero. *)
Theorem parse_market_fields (market : DecodedMarket Q) :
  (_parse_market market = None <->
     raw_question market = "" \/
     length (raw_outcomes market) <> 2%nat \/
     length (raw_prices market) <> 2%nat \/
     raw_volume market < 1000 \/
     _extract_threshold (raw_question market) = (FloatError : threshold_result Q)) /\
  (forall p, _parse_market market = Some p ->
     question p = raw_question market /\
     raw_prices market = [yes_price p; no_price p] /\
     volume p = raw_volume market /\ 1000 <= volume p /\
     Parsed.topic p = _extract_topic (question p) /\
     direction p = _extract_direction (question p) /\
     In (direction p) ["above"; "below"; "reach"; "unknown"] /\
     (threshold p = None <->
        _extract_threshold (question p) = (Missing : threshold_result Q)) /\
     (forall t, threshold p = Some t ->
        100 <= t /\ has_threshold p = true /\ ~ thr p == 0)).
Proof.
unfold _parse_market.
destruct (raw_question market) as [|c q] eqn:Eq.
{ split; [split; [now left|reflexivity]|discriminate]. }
destruct (raw_outcomes market) as [|o1 [|o2 [|o3 os]]] eqn:Eo;
  try (split; [split; [right; left; cbn; lia|reflexivity]|discriminate]).
destruct (raw_prices market) as [|p1 [|p2 [|p3 ps]]] eqn:Ep;
  try (split; [split; [right; right; left; cbn; lia|reflexivity]|discriminate]).
qsimp. destruct (flt (raw_volume market) 1000) eqn:Ev.
{ apply Q_flt_true in Ev.
  split; [split; [tauto|reflexivity]|discriminate]. }
apply Q_flt_false in Ev.
destruct (_extract_threshold (String c q)) as [t| |] eqn:Et.
- split.
  + split; [discriminate|]. cbn [length].
    intros [H|[H|[H|[H|H]]]]; try discriminate; try lia; lra.
  + intros p [= <-].
    cbn [question yes_price no_price volume Parsed.topic direction threshold].
    rewrite Et.
    destruct (Q_extract_threshold_bounds _ _ Et) as (Hb1 & _ & Hb3).
    split; [reflexivity|]. split; [reflexivity|]. split; [reflexivity|].
    split; [exact Ev|]. split; [reflexivity|]. split; [reflexivity|].
    split; [apply extract_direction_values|].
    split; [split; discriminate|].
    intros t' [= <-]. split; [exact Hb1|].
    match goal with |- has_threshold ?m = true /\ _ =>
      destruct (Q_has_threshold m t eq_refl Hb3) as [Hh Ht] end.
    split; [exact Hh|]. now rewrite Ht.
- split.
  + split; [discriminate|]. cbn [length].
    intros [H|[H|[H|[H|H]]]]; try discriminate; try lia; lra.
  + intros p [= <-].
    cbn [question yes_price no_price volume Parsed.topic direction threshold].
    rewrite Et.
    split; [reflexivity|]. split; [reflexivity|]. split; [reflexivity|].
    split; [exact Ev|]. split; [reflexivity|]. split; [reflexivity|].
    split; [apply extract_direction_values|].
    split; [split; reflexivity|].
    intros t' [=].
- split; [split; [tauto|reflexivity]|discriminate].
Qed.

End DeltaParsingFacts.

(** ** Delta detector: records, errors, scan *)

Section DeltaDetectorFacts.
Import DeltaScanner.

Lemma sort_by_threshold_is_sort_by {F : Type} `{PyFloat F}
    (l : list (ParsedMarket F)) :
  sort_by_threshold l = sort_by thr l.
Proof.
unfold sort_by_threshold, sort_by.
assert (Hins : forall x acc, insert_sorted x acc = insert_by thr x acc).
{ intros x acc. induction acc as [|y r IH]; cbn; [reflexivity|]. now rewrite IH. }
generalize (@nil (ParsedMarket F)).
induction l as [|x l IH]; intros acc; cbn [fold_left]; [reflexivity|].
now rewrite Hins, IH.
Qed.

Lemma Ok_inj {A : Type} (a b : A) : Ok a = Ok b -> a = b.
Proof. now intros [= ->]. Qed.

Lemma Q_has_threshold_nonzero (m : ParsedMarket Q) :
  has_threshold m = true -> ~ thr m == 0.
Proof.
unfold has_threshold, thr, truthy. destruct (threshold m) as [t|]; [|discriminate].
cbn [fis0 Q_float]. intros Ht Hz. apply Qeq_bool_iff in Hz.
rewrite Hz in Ht. discriminate.
Qed.

(** Every record of an adjacent-pair loop comes from the body at two
    neighbours of the list. *)
Lemma adjacent_loop_In {F : Type} `{PyFloat F}
    (body : ParsedMarket F -> ParsedMarket F -> result (list (DeltaOpportunity F)))
    (ms : list (ParsedMarket F)) (opps : list (DeltaOpportunity F))
    (o : DeltaOpportunity F) :
  adjacent_loop body ms = Ok opps -> In o opps ->
  exists l1 lower higher l2 here,
    ms = (l1 ++ lower :: higher :: l2)%list /\
    body lower higher = Ok here /\ In o here.
Proof.
revert opps. induction ms as [|lower rest IH]; intros opps; cbn [adjacent_loop].
- intros [= <-] [].
- destruct rest as [|higher rest'].
  + intros [= <-] [].
  + destruct (body lower higher) as [here|e] eqn:Eh; cbn [rbind]; [|discriminate].
    destruct (adjacent_loop body (higher :: rest')) as [more|e] eqn:Em;
      cbn [rbind]; [|discriminate].
    intros [= <-] Hin. apply in_app_iff in Hin. destruct Hin as [Hin|Hin].
    * exists [], lower, higher, rest', here. now repeat split.
    * destruct (IH more eq_refl Hin) as (l1 & lo & hi & l2 & h & E & Hb & Ho).
      exists (lower :: l1), lo, hi, l2, h. split; [|now split].
      cbn [app]. now rewrite E.
Qed.

Lemma adjacent_loop_returns {F : Type} `{PyFloat F}
    (body : ParsedMarket F -> ParsedMarket F -> result (list (DeltaOpportunity F)))
    (ms : list (ParsedMarket F)) :
  (forall lower higher, In lower ms -> exists here, body lower higher = Ok here) ->
  exists opps, adjacent_loop body ms = Ok opps.
Proof.
induction ms as [|lower rest IH]; intros Hbody; cbn [adjacent_loop].
- now exists [].
- destruct rest as [|higher rest']; [now exists []|].
  destruct (Hbody lower higher (or_introl eq_refl)) as [here Hh]. rewrite Hh.
  cbn [rbind].
  destruct IH as [more Hm]; [intros lo hi Hlo; apply Hbody; now right|].
  rewrite Hm. cbn [rbind]. eexists. reflexivity.
Qed.

Lemma Q_dip_pair_eval (topic_name : string) (lower higher : ParsedMarket Q) :
  dip_pair topic_name lower higher =
  Ok (if flt (yes_price higher) (yes_price lower)
         && flt (1 # 1000) (yes_price higher)
      then [ {| event_a := lower; event_b := higher; topic := topic_name;
                profit_potential :=
                  pymin ((yes_price lower - yes_price higher)
                         / pymax (yes_price higher) (1 # 100) * 100) 500;
                confidence := 85 |} ]
      else []).
Proof.
unfold dip_pair. qsimp.
destruct (flt (yes_price higher) (yes_price lower)
          && flt (1 # 1000) (yes_price higher)); [|reflexivity].
now rewrite (Q_fdiv_ok _ _ (Q_pymax_nonzero (yes_price higher))).
Qed.

(** The capped profit of a violation is positive and at most 500. *)
Lemma Q_capped_profit (hi lo : Q) :
  lo < hi ->
  0 < pymin ((hi - lo) / pymax lo (1 # 100) * 100) 500 /\
  pymin ((hi - lo) / pymax lo (1 # 100) * 100) 500 <= 500.
Proof.
intros Hlt.
assert (Hmax : 0 < pymax lo (1 # 100)).
{ unfold pymax. destruct (flt lo (1 # 100)) eqn:E; [lra|].
  apply Q_flt_false in E. lra. }
assert (Hd : 0 < (hi - lo) / pymax lo (1 # 100)).
{ apply Qlt_shift_div_l; [exact Hmax|lra]. }
unfold pymin. destruct (flt 500 _) eqn:E.
- split; lra.
- apply Q_flt_false in E. split; lra.
Qed.

(** The markets of the reach loop and of the dip loop: those of the
    input that pass the filter, in ascending order of threshold. *)
Lemma Q_sorted_filter (f : ParsedMarket Q -> bool) (ms : list (ParsedMarket Q))
    (l1 l2 : list (ParsedMarket Q)) (lower higher : ParsedMarket Q) :
  sort_by_threshold (List.filter f ms) = (l1 ++ lower :: higher :: l2)%list ->
  In lower ms /\ In higher ms /\ f lower = true /\ f higher = true /\
  thr lower <= thr higher.
Proof.
intros Hs. rewrite sort_by_threshold_is_sort_by in Hs.
pose proof (sort_by_perm thr (List.filter f ms)) as Hp.
pose proof (sort_by_ascending thr (List.filter f ms)) as Ha.
rewrite Hs in Hp, Ha.
assert (Hlo : In lower (List.filter f ms)).
{ apply (Permutation_in _ Hp). apply in_app_iff. right. now left. }
assert (Hhi : In higher (List.filter f ms)).
{ apply (Permutation_in _ Hp). apply in_app_iff. right. right. now left. }
apply filter_In in Hlo, Hhi. destruct Hlo as [Hlo Hfl], Hhi as [Hhi Hfh].
repeat split; try assumption.
unfold ascending in Ha. apply StronglySorted_app_1_r in Ha.
apply StronglySorted_cons in Ha. destruct Ha as [Ha _].
rewrite List.Forall_forall in Ha. apply Ha. now left.
Qed.

Lemma spread_loop_In (topic_name : string) (ms : list (ParsedMarket Q))
    (opps : list (DeltaOpportunity Q)) (o : DeltaOpportunity Q) :
  spread_loop topic_name ms = Ok opps -> In o opps ->
  exists m, In m ms /\
    yes_price m + no_price m < 95 # 100 /\ 5000 < volume m /\
    ~ yes_price m + no_price m == 0 /\
    o = {| event_a := m; event_b := m; topic := topic_name;
           profit_potential :=
             (1 - (yes_price m + no_price m)) / (yes_price m + no_price m) * 100;
           confidence := 95 |}.
Proof.
revert opps. induction ms as [|m ms IH]; intros opps; cbn [spread_loop].
- intros [= <-] [].
- unfold spread_one. qsimp.
  destruct (flt (yes_price m + no_price m) (95 # 100) && flt 5000 (volume m))
    eqn:Ec.
  + destruct (Qeq_dec (yes_price m + no_price m) 0) as [Hz|Hnz].
    { rewrite (Q_fdiv_zero _ _ Hz). cbn [rbind]. discriminate. }
    rewrite (Q_fdiv_ok _ _ Hnz). cbn [rbind].
    destruct (spread_loop topic_name ms) as [more|e]; cbn [rbind]; [|discriminate].
    intros [= <-] [<-|Hin].
    * apply andb_true_iff in Ec as [E1 E2]. apply Q_flt_true in E1, E2.
      exists m. split; [now left|]. now repeat split.
    * destruct (IH more eq_refl Hin) as (m' & Hm' & Hr).
      exists m'. split; [now right|exact Hr].
  + cbn [rbind].
    destruct (spread_loop topic_name ms) as [more|e]; cbn [rbind]; [|discriminate].
    intros [= <-] Hin. cbn [app] in Hin.
    destruct (IH more eq_refl Hin) as (m' & Hm' & Hr).
    exists m'. split; [now right|exact Hr].
Qed.

(** X19. Every record of [_find_inconsistencies] is justified, in exact
    arithmetic.  Its topic is the group's, and its two events are threshold
    markets of the group.  A record of confidence 90 or 60 pairs two
    markets of direction above or reach, event_b having the lower
    threshold and the ratio of the thresholds being at least 1.1; at 90 the
    higher threshold has the strictly higher YES price and the profit is
    positive and at most 500; at 60 it has not, the two YES prices are less
    than 0.02 apart, and the profit is 5.  A record of confidence 85 pairs
    two markets of direction below, event_a having the lower threshold and
    the strictly higher YES price, with a profit positive and at most 500.
    A record of confidence 95 is about one market whose two prices sum to
    a non-zero total below 0.95, with volume above 5000, and its profit is
    (1 - total) / total * 100.  There are no other records. *)
Theorem find_inconsistencies_records_justified (topic_name : string)
    (ms : list (ParsedMarket Q)) (opps : list (DeltaOpportunity Q))
    (o : DeltaOpportunity Q) :
  _find_inconsistencies topic_name ms = Ok opps ->
  In o opps ->
  topic o = topic_name /\
  In (event_a o) ms /\ In (event_b o) ms /\
  has_threshold (event_a o) = true /\ has_threshold (event_b o) = true /\
  ((confidence o = 90%nat /\
    str_in (direction (event_a o)) ["above"; "reach"] = true /\
    str_in (direction (event_b o)) ["above"; "reach"] = true /\
    thr (event_b o) <= thr (event_a o) /\
    11 # 10 <= thr (event_a o) / thr (event_b o) /\
    yes_price (event_b o) < yes_price (event_a o) /\
    1 # 1000 < yes_price (event_b o) /\
    0 < profit_potential o /\ profit_potential o <= 500) \/
   (confidence o = 60%nat /\
    str_in (direction (event_a o)) ["above"; "reach"] = true /\
    str_in (direction (event_b o)) ["above"; "reach"] = true /\
    thr (event_b o) <= thr (event_a o) /\
    11 # 10 <= thr (event_a o) / thr (event_b o) /\
    yes_price (event_a o) <= yes_price (event_b o) /\
    yes_price (event_b o) - yes_price (event_a o) < 2 # 100 /\
    5 # 100 < yes_price (event_b o) /\
    profit_potential o = 5) \/
   (confidence o = 85%nat /\
    direction (event_a o) = "below" /\ direction (event_b o) = "below" /\
    thr (event_a o) <= thr (event_b o) /\
    yes_price (event_b o) < yes_price (event_a o) /\
    1 # 1000 < yes_price (event_b o) /\
    0 < profit_potential o /\ profit_potential o <= 500) \/
   (confidence o = 95%nat /\
    event_a o = event_b o /\
    yes_price (event_a o) + no_price (event_a o) < 95 # 100 /\
    ~ yes_price (event_a o) + no_price (event_a o) == 0 /\
    5000 < volume (event_a o) /\
    profit_potential o
    = (1 - (yes_price (event_a o) + no_price (event_a o)))
      / (yes_price (event_a o) + no_price (event_a o)) * 100)).
Proof.
intros Hopps Hin.
apply find_inconsistencies_three_loops in Hopps.
destruct Hopps as (reach & dip & spread & Hreach & Hdip & Hspread & ->).
apply in_app_iff in Hin. destruct Hin as [Hin|Hin];
  [|apply in_app_iff in Hin; destruct Hin as [Hin|Hin]].
- destruct (adjacent_loop_In _ _ _ o Hreach Hin)
    as (l1 & lower & higher & l2 & here & Hl & Hbody & Ho).
  apply Q_sorted_filter in Hl.
  destruct Hl as (Hlo & Hhi & Hfl & Hfh & Hthr).
  apply andb_true_iff in Hfl as [Htl Hdl]. apply andb_true_iff in Hfh as [Hth Hdh].
  rewrite (reach_pair_eval _ _ _ (Q_has_threshold_nonzero _ Htl)) in Hbody.
  apply Ok_inj in Hbody. subst here.
  destruct (flt (thr higher / thr lower) (11 # 10)) eqn:Er; [now cbn in Ho|].
  apply Q_flt_false in Er.
  destruct (flt (yes_price lower) (yes_price higher)
            && flt (1 # 1000) (yes_price lower)) eqn:Ev.
  + destruct Ho as [<-|[]]. cbn [topic event_a event_b confidence profit_potential].
    apply andb_true_iff in Ev as [E1 E2]. apply Q_flt_true in E1, E2.
    destruct (Q_capped_profit (yes_price higher) (yes_price lower) E1) as [Hp1 Hp2].
    split; [reflexivity|]. repeat (split; [assumption|]).
    left. now repeat split.
  + destruct (flt (Qabs (yes_price higher - yes_price lower)) (2 # 100)
              && flt (5 # 100) (yes_price lower)) eqn:En; [|now cbn in Ho].
    destruct Ho as [<-|[]]. cbn [topic event_a event_b confidence profit_potential].
    apply andb_true_iff in En as [E1 E2]. apply Q_flt_true in E1, E2.
    assert (Hle : yes_price higher <= yes_price lower).
    { apply andb_false_iff in Ev. destruct Ev as [Ev|Ev].
      - now apply Q_flt_false in Ev.
      - apply Q_flt_false in Ev. lra. }
    assert (Habs : yes_price lower - yes_price higher < 2 # 100).
    { rewrite Qabs_neg in E1 by lra. lra. }
    split; [reflexivity|]. repeat (split; [assumption|]).
    right. left. now repeat split.
- destruct (adjacent_loop_In _ _ _ o Hdip Hin)
    as (l1 & lower & higher & l2 & here & Hl & Hbody & Ho).
  apply Q_sorted_filter in Hl.
  destruct Hl as (Hlo & Hhi & Hfl & Hfh & Hthr).
  apply andb_true_iff in Hfl as [Htl Hdl]. apply andb_true_iff in Hfh as [Hth Hdh].
  apply String.eqb_eq in Hdl, Hdh.
  rewrite Q_dip_pair_eval in Hbody. apply Ok_inj in Hbody. subst here.
  destruct (flt (yes_price higher) (yes_price lower)
            && flt (1 # 1000) (yes_price higher)) eqn:Ev; [|now cbn in Ho].
  destruct Ho as [<-|[]]. cbn [topic event_a event_b confidence profit_potential].
  apply andb_true_iff in Ev as [E1 E2]. apply Q_flt_true in E1, E2.
  destruct (Q_capped_profit (yes_price lower) (yes_price higher) E1) as [Hp1 Hp2].
  split; [reflexivity|]. repeat (split; [assumption|]).
  right. right. left. now repeat split.
- destruct (spread_loop_In _ _ _ o Hspread Hin) as (m & Hm & Hlt & Hvol & Hnz & ->).
  cbn [topic event_a event_b confidence profit_potential].
  apply filter_In in Hm. destruct Hm as [Hm Hth].
  split; [reflexivity|]. repeat (split; [assumption|]).
  right. right. right. now repeat split.
Qed.

Lemma find_inconsistencies_records_justified_witness :
  exists o : DeltaOpportunity Q,
    _find_inconsistencies "BTC"
      [ threshold_market 100000 (10 # 100) (90 # 100) 2000 "reach";
        threshold_market 150000 (11 # 100) (89 # 100) 2000 "reach" ] = Ok [o] /\
    topic o = "BTC" /\
    has_threshold (event_a o) = true.
Proof.
assert (E : { o : DeltaOpportunity Q |
              _find_inconsistencies "BTC"
                [ threshold_market 100000 (10 # 100) (90 # 100) 2000 "reach";
                  threshold_market 150000 (11 # 100) (89 # 100) 2000 "reach" ]
              = Ok [o] })
  by (eexists; vm_compute; reflexivity).
destruct E as [o E]. exists o. split; [exact E|].
destruct (find_inconsistencies_records_justified _ _ _ o E (or_introl eq_refl))
  as (H1 & _ & _ & H4 & _).
now split.
Defined.

Lemma Q_reach_loop_returns (topic_name : string) (ms : list (ParsedMarket Q)) :
  (forall m, In m ms -> has_threshold m = true) ->
  exists opps, adjacent_loop (reach_pair topic_name) ms = Ok opps.
Proof.
intros Hth. apply adjacent_loop_returns. intros lower higher Hin.
rewrite (reach_pair_eval _ _ _ (Q_has_threshold_nonzero _ (Hth lower Hin))).
eexists. reflexivity.
Qed.

Lemma Q_dip_loop_returns (topic_name : string) (ms : list (ParsedMarket Q)) :
  exists opps, adjacent_loop (dip_pair topic_name) ms = Ok opps.
Proof.
apply adjacent_loop_returns. intros lower higher _.
rewrite Q_dip_pair_eval. eexists. reflexivity.
Qed.

Lemma sort_by_threshold_In {F : Type} `{PyFloat F}
    (f : ParsedMarket F -> bool) (ms : list (ParsedMarket F)) (m : ParsedMarket F) :
  In m (sort_by_threshold (List.filter f ms)) -> In m ms /\ f m = true.
Proof.
unfold sort_by_threshold.
assert (Hins : forall x acc y, In y (insert_sorted x acc) -> y = x \/ In y acc).
{ intros x acc y. induction acc as [|z r IH]; cbn [insert_sorted].
  - intros [<-|[]]. now left.
  - destruct (flt (thr x) (thr z)).
    + intros [<-|Hy]; [now left|now right].
    + intros [<-|Hy]; [right; now left|].
      destruct (IH Hy) as [->|Hr]; [now left|right; now right]. }
assert (Hgen : forall l acc,
  In m (fold_left (fun acc x => insert_sorted x acc) l acc) -> In m acc \/ In m l).
{ induction l as [|x l IH]; intros acc; cbn [fold_left]; [now left|].
  intros Hin. destruct (IH _ Hin) as [Hacc|Hl]; [|right; now right].
  destruct (Hins _ _ _ Hacc) as [->|Hacc']; [right; now left|now left]. }
intros Hin. destruct (Hgen _ _ Hin) as [[]|Hf]. now apply filter_In in Hf.
Qed.

Lemma spread_loop_raises (topic_name : string) (ms : list (ParsedMarket Q))
    (e : exn) :
  spread_loop topic_name ms = Raise e <->
  e = ZeroDivisionError /\
  exists m, In m ms /\ yes_price m + no_price m == 0 /\ 5000 < volume m.
Proof.
induction ms as [|m ms IH]; cbn [spread_loop].
- split; [discriminate|]. intros (_ & m & [] & _).
- unfold spread_one. qsimp.
  destruct (flt (yes_price m + no_price m) (95 # 100) && flt 5000 (volume m))
    eqn:Ec.
  + apply andb_true_iff in Ec as [E1 E2]. apply Q_flt_true in E1, E2.
    destruct (Qeq_dec (yes_price m + no_price m) 0) as [Hz|Hnz].
    * rewrite (Q_fdiv_zero _ _ Hz). cbn [rbind]. split.
      -- intros [= <-]. split; [reflexivity|]. exists m.
         split; [now left|now split].
      -- intros [-> _]. reflexivity.
    * rewrite (Q_fdiv_ok _ _ Hnz). cbn [rbind].
      destruct (spread_loop topic_name ms) as [more|e']; cbn [rbind].
      -- split; [discriminate|]. intros (He & m' & [<-|Hm'] & Hz & Hv);
           [contradiction|].
         assert (Hx : Ok more = Raise e :> result (list (DeltaOpportunity Q))).
         { apply IH. split; [exact He|]. now exists m'. }
         discriminate.
      -- split.
         ++ intros Hx. apply IH in Hx. destruct Hx as (He & m' & Hm' & Hr).
            split; [exact He|]. exists m'. split; [now right|exact Hr].
         ++ intros (He & m' & [<-|Hm'] & Hz & Hv); [contradiction|].
            apply IH. split; [exact He|]. now exists m'.
  + cbn [rbind].
    destruct (spread_loop topic_name ms) as [more|e']; cbn [rbind].
    * split; [discriminate|]. intros (He & m' & [<-|Hm'] & Hz & Hv).
      -- apply andb_false_iff in Ec. destruct Ec as [Ec|Ec];
           apply Q_flt_false in Ec; lra.
      -- assert (Hx : Ok more = Raise e :> result (list (DeltaOpportunity Q))).
         { apply IH. split; [exact He|]. now exists m'. }
         discriminate.
    * split.
      -- intros Hx. apply IH in Hx. destruct Hx as (He & m' & Hm' & Hr).
         split; [exact He|]. exists m'. split; [now right|exact Hr].
      -- intros (He & m' & [<-|Hm'] & Hz & Hv).
         ++ apply andb_false_iff in Ec. destruct Ec as [Ec|Ec];
              apply Q_flt_false in Ec; lra.
         ++ apply IH. split; [exact He|]. now exists m'.
Qed.

(** The two threshold rules never raise: the detector raises what the
    in-market rule raises. *)
Lemma Q_find_inconsistencies_spread (topic_name : string)
    (ms : list (ParsedMarket Q)) (e : exn) :
  _find_inconsistencies topic_name ms = Raise e <->
  spread_loop topic_name (List.filter has_threshold ms) = Raise e.
Proof.
unfold _find_inconsistencies.
match goal with |- context [adjacent_loop (reach_pair topic_name) ?l] =>
  destruct (Q_reach_loop_returns topic_name l) as [reach Hreach] end.
{ intros m Hm. apply sort_by_threshold_In in Hm. destruct Hm as [_ Hf].
  now apply andb_true_iff in Hf as [Hf _]. }
rewrite Hreach. cbn [rbind].
match goal with |- context [adjacent_loop (dip_pair topic_name) ?l] =>
  destruct (Q_dip_loop_returns topic_name l) as [dip Hdip] end.
rewrite Hdip. cbn [rbind].
destruct (spread_loop topic_name (List.filter has_threshold ms)) as [spread|e'];
  cbn [rbind]; split; intros Hx; (discriminate || exact Hx).
Qed.

(** X20. When [_find_inconsistencies] raises, in exact arithmetic: it
    raises exactly when some market of the group that has a threshold is
    priced YES + NO = 0 with a volume above 5000, and the exception is then
    ZeroDivisionError, raised by the in-market rule.  The two threshold
    rules never raise, and nothing that was found for the other markets of
    the group is returned. *)
Theorem find_inconsistencies_raises (topic_name : string)
    (ms : list (ParsedMarket Q)) (e : exn) :
  _find_inconsistencies topic_name ms = Raise e <->
  e = ZeroDivisionError /\
  exists m, In m ms /\ has_threshold m = true /\
            yes_price m + no_price m == 0 /\ 5000 < volume m.
Proof.
rewrite Q_find_inconsistencies_spread, spread_loop_raises. split.
- intros (He & m & Hm & Hz & Hv). apply filter_In in Hm.
  destruct Hm as [Hm Hth]. split; [exact He|]. exists m. now repeat split.
- intros (He & m & Hm & Hth & Hz & Hv). split; [exact He|]. exists m.
  split; [apply filter_In; now split|now split].
Qed.

Lemma group_loop_concat {A : Type} (key : A -> string) (ms : list A)
    (acc : dict (list A)) :
  Permutation (concat (map snd (group_loop key ms acc)))
              (concat (map snd acc) ++ ms).
Proof.
assert (Hset : forall (d : dict (list A)) k l m,
  dict_get d k = Some l ->
  Permutation (concat (map snd (dict_set d k (l ++ [m])%list)))
              (concat (map snd d) ++ [m])).
{ induction d as [|[k' l'] d IH]; intros k l m; cbn [dict_get dict_set];
    [discriminate|].
  destruct (String.eqb k' k).
  - intros [= ->]. cbn [map snd concat]. rewrite <- !app_assoc.
    apply Permutation_app_head. apply Permutation_app_comm.
  - intros Hg. cbn [map snd concat]. rewrite (IH _ _ _ Hg).
    now rewrite app_assoc. }
unfold group_loop. revert acc.
induction ms as [|m ms IH]; intros acc; cbn [fold_left].
- now rewrite app_nil_r.
- rewrite IH. destruct (dict_get acc (key m)) as [l|] eqn:Eg.
  + rewrite (Hset _ _ _ _ Eg). now rewrite <- app_assoc.
  + apply dict_get_None in Eg. rewrite (dict_set_fresh _ _ _ Eg).
    rewrite map_app, concat_app. cbn [map snd concat].
    rewrite app_nil_r. now rewrite <- app_assoc.
Qed.

(** X21. [_group_by_topic] partitions the parsed markets, in either
    arithmetic: the topics of the groups are distinct, each group is
    exactly the markets of its topic in their order and is not empty, and
    the groups together are a rearrangement of the input, so no market is
    lost or counted twice. *)
Theorem group_by_topic_partition {F : Type} `{PyFloat F}
    (ms : list (ParsedMarket F)) :
  NoDup (dict_keys (_group_by_topic ms)) /\
  (forall k l, In (k, l) (_group_by_topic ms) <->
     l <> [] /\
     l = List.filter (fun m => String.eqb (Parsed.topic m) k) ms) /\
  Permutation (concat (map snd (_group_by_topic ms))) ms.
Proof.
change (_group_by_topic ms) with (group_loop Parsed.topic ms []).
destruct (group_loop_spec Parsed.topic ms) as (Hnd & Hgroups & _).
split; [exact Hnd|]. split; [exact Hgroups|].
apply (group_loop_concat Parsed.topic ms []).
Qed.

Lemma parse_all_In {F : Type} `{PyFloat F} (markets : list (DecodedMarket F))
    (p : ParsedMarket F) :
  In p (parse_all markets) <->
  exists m, In m markets /\ _parse_market m = Some p.
Proof.
induction markets as [|m markets IH]; cbn [parse_all].
- split; [intros []|intros (m & [] & _)].
- destruct (_parse_market m) as [p'|] eqn:Ep.
  + cbn [In]. rewrite IH. split.
    * intros [<-|(m' & Hm' & Hp)]; [exists m; split; [now left|exact Ep]|].
      exists m'. split; [now right|exact Hp].
    * intros (m' & [<-|Hm'] & Hp); [left; congruence|right; now exists m'].
  + rewrite IH. split.
    * intros (m' & Hm' & Hp). exists m'. split; [now right|exact Hp].
    * intros (m' & [<-|Hm'] & Hp); [congruence|now exists m'].
Qed.

Lemma scan_groups_In {F : Type} `{PyFloat F}
    (groups : dict (list (ParsedMarket F))) (opps : list (DeltaOpportunity F))
    (o : DeltaOpportunity F) :
  scan_groups groups = Ok opps -> In o opps ->
  exists k l found,
    In (k, l) groups /\ _find_inconsistencies k l = Ok found /\ In o found.
Proof.
revert opps. induction groups as [|[k l] groups IH]; intros opps;
  cbn [scan_groups].
- intros [= <-] [].
- destruct (_find_inconsistencies k l) as [found|e] eqn:Ef; cbn [rbind];
    [|discriminate].
  destruct (scan_groups groups) as [more|e]; cbn [rbind]; [|discriminate].
  intros [= <-] Hin. apply in_app_iff in Hin. destruct Hin as [Hin|Hin].
  + exists k, l, found. split; [now left|now split].
  + destruct (IH more eq_refl Hin) as (k' & l' & f' & Hg & Hr).
    exists k', l', f'. split; [now right|exact Hr].
Qed.

Lemma Q_scan_groups_raises (groups : dict (list (ParsedMarket Q))) (e : exn) :
  scan_groups groups = Raise e <->
  e = ZeroDivisionError /\
  exists k l m, In (k, l) groups /\ In m l /\ has_threshold m = true /\
                yes_price m + no_price m == 0 /\ 5000 < volume m.
Proof.
induction groups as [|[k l] groups IH]; cbn [scan_groups].
- split; [discriminate|]. intros (_ & k & l & m & [] & _).
- destruct (_find_inconsistencies k l) as [found|e'] eqn:Ef; cbn [rbind].
  + assert (Hgood : forall m, In m l -> has_threshold m = true ->
                      yes_price m + no_price m == 0 -> 5000 < volume m -> False).
    { intros m Hm Hth Hz Hv.
      assert (Hx : _find_inconsistencies k l = Raise ZeroDivisionError).
      { apply Q_find_inconsistencies_spread, spread_loop_raises.
        split; [reflexivity|]. exists m.
        split; [apply filter_In; now split|now split]. }
      rewrite Ef in Hx. discriminate. }
    destruct (scan_groups groups) as [more|e'']; cbn [rbind].
    * split; [discriminate|].
      intros (He & k' & l' & m & [E|Hg] & Hm & Hth & Hz & Hv).
      -- injection E as <- <-. exfalso. now apply (Hgood m).
      -- assert (Hx : Ok more = Raise e :> result (list (DeltaOpportunity Q))).
         { apply IH. split; [exact He|]. exists k', l', m. now repeat split. }
         discriminate.
    * split.
      -- intros Hx. apply IH in Hx.
         destruct Hx as (He & k' & l' & m & Hg & Hr).
         split; [exact He|]. exists k', l', m. split; [now right|exact Hr].
      -- intros (He & k' & l' & m & [E|Hg] & Hm & Hth & Hz & Hv).
         ++ injection E as <- <-. exfalso. now apply (Hgood m).
         ++ apply IH. split; [exact He|]. exists k', l', m. now repeat split.
  + apply Q_find_inconsistencies_spread, spread_loop_raises in Ef.
    destruct Ef as (-> & m & Hm & Hr). apply filter_In in Hm.
    destruct Hm as [Hm Hth]. split.
    * intros [= <-]. split; [reflexivity|]. exists k, l, m.
      split; [now left|]. split; [exact Hm|]. split; [exact Hth|exact Hr].
    * intros (-> & _). reflexivity.
Qed.

Lemma sorted_neighbours_In {F : Type} `{PyFloat F}
    (f : ParsedMarket F -> bool) (ms l1 l2 : list (ParsedMarket F))
    (lower higher : ParsedMarket F) :
  sort_by_threshold (List.filter f ms) = (l1 ++ lower :: higher :: l2)%list ->
  (In lower ms /\ f lower = true) /\ (In higher ms /\ f higher = true).
Proof.
intros Hl. split; apply sort_by_threshold_In; rewrite Hl; apply in_app_iff; right.
- now left.
- right. now left.
Qed.

(** Where the events of a record come from, in either arithmetic. *)
Lemma delta_records_members {F : Type} `{PyFloat F} (topic_name : string)
    (ms : list (ParsedMarket F)) (opps : list (DeltaOpportunity F))
    (o : DeltaOpportunity F) :
  _find_inconsistencies topic_name ms = Ok opps -> In o opps ->
  topic o = topic_name /\
  In (event_a o) ms /\ In (event_b o) ms /\
  has_threshold (event_a o) = true /\ has_threshold (event_b o) = true.
Proof.
intros Hopps Hin.
apply find_inconsistencies_three_loops in Hopps.
destruct Hopps as (reach & dip & spread & Hreach & Hdip & Hspread & ->).
apply in_app_iff in Hin. destruct Hin as [Hin|Hin];
  [|apply in_app_iff in Hin; destruct Hin as [Hin|Hin]].
- destruct (adjacent_loop_In _ _ _ o Hreach Hin)
    as (l1 & lower & higher & l2 & here & Hl & Hbody & Ho).
  apply sorted_neighbours_In in Hl. destruct Hl as ((Hlo & Htl) & (Hhi & Hth)).
  apply andb_true_iff in Htl as [Htl _]. apply andb_true_iff in Hth as [Hth _].
  unfold reach_pair in Hbody.
  destruct (fdiv (thr higher) (thr lower)) as [ratio|]; cbn [rbind] in Hbody;
    [|discriminate].
  destruct (flt ratio _); [apply Ok_inj in Hbody; subst here; destruct Ho|].
  destruct (_ && _).
  + destruct (fdiv _ _); cbn [rbind] in Hbody; [|discriminate].
    apply Ok_inj in Hbody. subst here. destruct Ho as [<-|[]]. now cbn.
  + destruct (_ && _); apply Ok_inj in Hbody; subst here; [|destruct Ho].
    destruct Ho as [<-|[]]. now cbn.
- destruct (adjacent_loop_In _ _ _ o Hdip Hin)
    as (l1 & lower & higher & l2 & here & Hl & Hbody & Ho).
  apply sorted_neighbours_In in Hl. destruct Hl as ((Hlo & Htl) & (Hhi & Hth)).
  apply andb_true_iff in Htl as [Htl _]. apply andb_true_iff in Hth as [Hth _].
  unfold dip_pair in Hbody.
  destruct (_ && _); [|apply Ok_inj in Hbody; subst here; destruct Ho].
  destruct (fdiv _ _); cbn [rbind] in Hbody; [|discriminate].
  apply Ok_inj in Hbody. subst here. destruct Ho as [<-|[]]. now cbn.
- clear Hreach Hdip. revert spread Hspread Hin.
  assert (Hgen : forall l spread,
    (forall m, In m l -> In m ms /\ has_threshold m = true) ->
    spread_loop topic_name l = Ok spread -> In o spread ->
    topic o = topic_name /\ In (event_a o) ms /\ In (event_b o) ms /\
    has_threshold (event_a o) = true /\ has_threshold (event_b o) = true).
  { induction l as [|m l IH]; intros spread Hl; cbn [spread_loop].
    - intros [= <-] [].
    - destruct (spread_one topic_name m) as [here|] eqn:Eh; cbn [rbind];
        [|discriminate].
      destruct (spread_loop topic_name l) as [more|]; cbn [rbind]; [|discriminate].
      intros [= <-] Hin. apply in_app_iff in Hin. destruct Hin as [Hin|Hin].
      + destruct (Hl m (or_introl eq_refl)) as [Hm Hth].
        unfold spread_one in Eh.
        destruct (_ && _); [|apply Ok_inj in Eh; subst here; destruct Hin].
        destruct (fdiv _ _); cbn [rbind] in Eh; [|discriminate].
        apply Ok_inj in Eh. subst here. destruct Hin as [<-|[]]. now cbn.
      + apply (IH more); [|reflexivity|exact Hin].
        intros m' Hm'. apply Hl. now right. }
  intros spread Hspread Hin.
  apply (Hgen (List.filter has_threshold ms) spread); [|exact Hspread|exact Hin].
  intros m Hm. now apply filter_In in Hm.
Qed.

Lemma Q_parse_market_threshold (market : DecodedMarket Q) (p : ParsedMarket Q)
    (t : Q) :
  _parse_market market = Some p -> threshold p = Some t -> 100 <= t.
Proof.
unfold _parse_market.
destruct (raw_question market); [discriminate|].
destruct (raw_outcomes market) as [|o1 [|o2 [|o3 os]]]; try discriminate.
destruct (raw_prices market) as [|p1 [|p2 [|p3 ps]]]; try discriminate.
destruct (flt _ _); [discriminate|].
destruct (_extract_threshold _) as [t'| |] eqn:Et; try discriminate.
- intros [= <-]. cbn [threshold]. intros [= <-].
  now apply (Q_extract_threshold_bounds _ _ Et).
- intros [= <-]. cbn [threshold]. discriminate.
Qed.

(** X22. The delta scan on a decoded response, in exact arithmetic.  It
    raises exactly when some market that parses to a threshold market is
    priced YES + NO = 0 with volume above 5000, and the exception is
    ZeroDivisionError.  Otherwise it returns records in descending order
    of profit; the two events of each record are parsed from markets of
    the response, carry the topic of the record (markets of different
    topics are never compared), and have thresholds of at least 100. *)
Theorem delta_scan_reports (markets : list (DecodedMarket Q)) :
  (forall e, scan markets = Raise e <->
     e = ZeroDivisionError /\
     exists m p, In m markets /\ _parse_market m = Some p /\
                 has_threshold p = true /\
                 yes_price p + no_price p == 0 /\ 5000 < volume p) /\
  (forall opps, scan markets = Ok opps ->
     descending profit_potential opps /\
     forall o, In o opps ->
       (exists m, In m markets /\ _parse_market m = Some (event_a o)) /\
       (exists m, In m markets /\ _parse_market m = Some (event_b o)) /\
       Parsed.topic (event_a o) = topic o /\
       Parsed.topic (event_b o) = topic o /\
       100 <= thr (event_a o) /\ 100 <= thr (event_b o)).
Proof.
unfold scan.
destruct (group_loop_spec Parsed.topic (parse_all markets)) as (_ & Hgroups & _).
change (group_loop Parsed.topic (parse_all markets) [])
  with (_group_by_topic (parse_all markets)) in Hgroups.
assert (Hmember : forall k l m, In (k, l) (_group_by_topic (parse_all markets)) ->
          In m l ->
          Parsed.topic m = k /\
          exists raw, In raw markets /\ _parse_market raw = Some m).
{ intros k l m Hg Hm. apply Hgroups in Hg. destruct Hg as [_ ->].
  apply filter_In in Hm. destruct Hm as [Hm Hk].
  apply String.eqb_eq in Hk. split; [exact Hk|]. now apply parse_all_In. }
split.
- intros e.
  destruct (scan_groups (_group_by_topic (parse_all markets))) as [found|e']
    eqn:Es; cbn [rbind].
  + split; [discriminate|].
    intros (He & raw & p & Hraw & Hp & Hth & Hz & Hv).
    assert (Hx : scan_groups (_group_by_topic (parse_all markets)) = Raise e).
    { apply Q_scan_groups_raises. split; [exact He|].
      exists (Parsed.topic p),
             (List.filter (fun m => String.eqb (Parsed.topic m) (Parsed.topic p))
                          (parse_all markets)), p.
      assert (Hin : In p (List.filter
                (fun m => String.eqb (Parsed.topic m) (Parsed.topic p))
                (parse_all markets))).
      { apply filter_In. split; [|apply String.eqb_refl].
        apply parse_all_In. now exists raw. }
      split; [|now repeat split].
      apply Hgroups. split; [|reflexivity]. intros E. rewrite E in Hin.
      destruct Hin. }
    rewrite Es in Hx. discriminate.
  + apply Q_scan_groups_raises in Es.
    destruct Es as (-> & k & l & m & Hg & Hm & Hr).
    destruct (Hmember k l m Hg Hm) as (_ & raw & Hraw & Hp). split.
    * intros [= <-]. split; [reflexivity|]. exists raw, m. now repeat split.
    * intros (-> & _). reflexivity.
- intros opps.
  destruct (scan_groups (_group_by_topic (parse_all markets))) as [found|e']
    eqn:Es; cbn [rbind]; [|discriminate].
  intros [= <-]. split; [apply sort_by_reverse_descending|].
  intros o Hin.
  apply (Permutation_in _ (sort_by_reverse_perm profit_potential found)) in Hin.
  destruct (scan_groups_In _ _ o Es Hin) as (k & l & here & Hg & Hf & Ho).
  destruct (delta_records_members _ _ _ o Hf Ho) as (Ht & Ha & Hb & Hta & Htb).
  destruct (Hmember k l _ Hg Ha) as (Hka & rawa & Hrawa & Hpa).
  destruct (Hmember k l _ Hg Hb) as (Hkb & rawb & Hrawb & Hpb).
  split; [now exists rawa|]. split; [now exists rawb|].
  split; [congruence|]. split; [congruence|].
  split.
  + destruct (threshold (event_a o)) as [t|] eqn:Et;
      [|unfold has_threshold in Hta; rewrite Et in Hta; discriminate].
    unfold thr. rewrite Et. apply (Q_parse_market_threshold rawa _ t Hpa Et).
  + destruct (threshold (event_b o)) as [t|] eqn:Et;
      [|unfold has_threshold in Htb; rewrite Et in Htb; discriminate].
    unfold thr. rewrite Et. apply (Q_parse_market_threshold rawb _ t Hpb Et).
Qed.

End DeltaDetectorFacts.

(** ** The bot's counters *)

Section BotFacts.
Import PolymarketClient ArbitrageScanner Main.

Lemma descending_head {A : Type} (key : A -> Q) (x : A) (l : list A) :
  descending key (x :: l) -> forall y, In y (x :: l) -> key y <= key x.
Proof.
unfold descending. intros Hd y [<-|Hy]; [lra|].
apply StronglySorted_cons in Hd. destruct Hd as [Hx _].
rewrite List.Forall_forall in Hx. now apply Hx.
Qed.

(** X23. What one scan does to the bot, in exact arithmetic.  The scan
    count goes up by one whether the scan returns or raises.  A scan that
    raises or finds nothing leaves the opportunity count and the best
    opportunity as they were.  A scan that finds opportunities adds their
    number to the count and replaces the best opportunity by the first one
    returned, which is profitable and has the greatest net profit
    percentage of this scan, whatever the best opportunity was before. *)
Theorem scan_once_tracks_latest_best (cfg : Config Q) (bot : NodoBot Q)
    (markets : list (Market Q)) :
  scan_count (fst (scan_once cfg bot markets)) = S (scan_count bot) /\
  snd (scan_once cfg bot markets) = scan cfg markets /\
  (forall e, scan cfg markets = Raise e ->
     opportunities_found (fst (scan_once cfg bot markets))
       = opportunities_found bot /\
     best_opportunity (fst (scan_once cfg bot markets)) = best_opportunity bot) /\
  (scan cfg markets = Ok [] ->
     opportunities_found (fst (scan_once cfg bot markets))
       = opportunities_found bot /\
     best_opportunity (fst (scan_once cfg bot markets)) = best_opportunity bot) /\
  (forall best rest, scan cfg markets = Ok (best :: rest) ->
     opportunities_found (fst (scan_once cfg bot markets))
       = (opportunities_found bot + S (length rest))%nat /\
     best_opportunity (fst (scan_once cfg bot markets)) = Some best /\
     is_profitable cfg best = true /\
     forall opp, In opp (best :: rest) ->
       net_profit_pct opp <= net_profit_pct best).
Proof.
unfold scan_once.
destruct (scan cfg markets) as [[|best rest]|e] eqn:Es; cbn [fst snd scan_count
  opportunities_found best_opportunity].
- split; [reflexivity|]. split; [reflexivity|].
  split; [discriminate|]. split; [now split|discriminate].
- split; [reflexivity|]. split; [reflexivity|].
  split; [discriminate|]. split; [discriminate|].
  intros best' rest' E. apply Ok_inj in E. injection E as <- <-.
  split; [reflexivity|]. split; [reflexivity|].
  assert (Hd : descending net_profit_pct (best :: rest)).
  { unfold scan in Es. destruct markets as [|m markets]; [discriminate|].
    destruct (scan_markets cfg (m :: markets)) as [kept|e]; cbn [rbind] in Es;
      [|discriminate].
    apply Ok_inj in Es. rewrite <- Es. apply sort_by_reverse_descending. }
  assert (Hp : is_profitable cfg best = true).
  { unfold scan in Es. destruct markets as [|m markets]; [discriminate|].
    destruct (scan_markets cfg (m :: markets)) as [kept|e] eqn:Ek;
      cbn [rbind] in Es; [|discriminate].
    apply Ok_inj in Es.
    apply (scan_markets_In cfg _ kept Ek best).
    apply (Permutation_in _ (sort_by_reverse_perm net_profit_pct kept)).
    rewrite Es. now left. }
  split; [exact Hp|]. now apply descending_head.
- split; [reflexivity|]. split; [reflexivity|].
  split; [now split|]. split; discriminate.
Qed.

(** X24. The counters over a run of scans, in either arithmetic.  After
    the loop has gone through a number of batches, failing scans included,
    the scan count has gone up by that number and the opportunity count has
    not gone down.  The best opportunity kept is that of the latest scan
    when it found something: it is not compared with what earlier scans
    found. *)
Theorem run_scans_counts {F : Type} `{PyFloat F} (cfg : Config F)
    (bot : NodoBot F) (batches : list (list (Market F))) :
  scan_count (run_scans cfg bot batches)
    = (scan_count bot + length batches)%nat /\
  (opportunities_found bot <= opportunities_found (run_scans cfg bot batches))%nat /\
  (forall earlier markets best rest,
     batches = (earlier ++ [markets])%list ->
     scan cfg markets = Ok (best :: rest) ->
     best_opportunity (run_scans cfg bot batches) = Some best).
Proof.
split; [|split].
- unfold run_scans. revert bot.
  induction batches as [|markets batches IH]; intros bot; cbn [fold_left length];
    [lia|].
  rewrite IH. unfold scan_once.
  destruct (scan cfg markets) as [[|best rest]|e]; cbn [fst scan_count]; lia.
- unfold run_scans. revert bot.
  induction batches as [|markets batches IH]; intros bot; cbn [fold_left];
    [lia|].
  etransitivity; [|apply IH]. unfold scan_once.
  destruct (scan cfg markets) as [[|best rest]|e];
    cbn [fst opportunities_found]; lia.
- intros earlier markets best rest -> Hscan. unfold run_scans.
  rewrite fold_left_app. cbn [fold_left]. unfold scan_once at 1.
  now rewrite Hscan.
Qed.

End BotFacts.
